(** * Tensor-based coverage strength (adolphus/tensor.py)

    A shallow embedding of [Tensor], [CameraTensor], [TriangleTensor] and
    [TensorModel] from [src/adolphus/tensor.py].

    Numbers.  Python floats are idealised as real numbers ([R]); the one
    non-real value the code itself introduces, [float('inf')], is a
    constructor of [pyfloat].  Rounding, NaN and overflow are outside the
    model.  Division follows Python: a zero divisor raises
    [ZeroDivisionError].

    Exceptions are values of [result]; loops are recursive functions over
    the iterated sequence, with [break] as an early return. *)

From stdpp Require Import gmap strings.
From Stdlib Require Import Reals Lra Lia ZArith.

Open Scope R_scope.

(** ** Exceptions *)

Inductive exn : Set :=
  | ZeroDivisionError
  | AssertionError
  | IndexError
  | KeyError.

Inductive result (A : Type) : Type :=
  | Ok (a : A)
  | Raise (e : exn).

Arguments Ok {A} a.
Arguments Raise {A} e.

#[global] Instance result_ret : MRet result := @Ok.

#[global] Instance result_bind : MBind result :=
  λ A B f m, match m with Ok a => f a | Raise e => Raise e end.

(** ** Float operations *)

(** [a / b] on Python floats. *)
Definition pydiv (a b : R) : result R :=
  if Req_dec_T b 0 then Raise ZeroDivisionError else Ok (a / b).

Definition Rltb (a b : R) : bool := if Rlt_dec a b then true else false.
Definition Rgtb (a b : R) : bool := if Rgt_dec a b then true else false.
Definition Rleb (a b : R) : bool := if Rle_dec a b then true else false.
Definition Reqb (a b : R) : bool := if Req_dec_T a b then true else false.

(** ** Points

    tensor.py imports [Point], [avg_points] and [point_segment_dis] from
    the geometry module, which is not under src/. *)

(** Modelled from the spec: [geometry.Point], a position or vector with
    coordinates [x], [y], [z]. *)
Record Point : Type := mkPoint { x : R; y : R; z : R }.

(** Modelled from the spec: [Point.__add__]. *)
Definition Point_add (p q : Point) : Point :=
  mkPoint (x p + x q) (y p + y q) (z p + z q).

(** Modelled from the spec: [Point.__sub__]. *)
Definition Point_sub (p q : Point) : Point :=
  mkPoint (x p - x q) (y p - y q) (z p - z q).

(** Modelled from the spec: [Point.__neg__]. *)
Definition Point_neg (p : Point) : Point :=
  mkPoint (- x p) (- y p) (- z p).

(** Modelled from the spec: [Point.__mul__] by a scalar. *)
Definition Point_mul (p : Point) (s : R) : Point :=
  mkPoint (x p * s) (y p * s) (z p * s).

(** Modelled from the spec: [Point.dot]. *)
Definition Point_dot (p q : Point) : R :=
  x p * x q + y p * y q + z p * z q.

(** Modelled from the spec: [Point.cross]. *)
Definition Point_cross (p q : Point) : Point :=
  mkPoint (y p * z q - z p * y q)
          (z p * x q - x p * z q)
          (x p * y q - y p * x q).

(** Modelled from the spec: [Point.magnitude]. *)
Definition Point_magnitude (p : Point) : R :=
  sqrt (x p * x p + y p * y p + z p * z p).

(** Modelled from the spec: [Point.euclidean], the Euclidean distance
    between two points. *)
Definition Point_euclidean (p q : Point) : R :=
  Point_magnitude (Point_sub p q).

(** Modelled from the spec: [Point.unit].  Normalisation divides each
    coordinate by the magnitude, so the zero vector raises. *)
Definition Point_unit (p : Point) : result Point :=
  let m := Point_magnitude p in
  a ← pydiv (x p) m;
  b ← pydiv (y p) m;
  c ← pydiv (z p) m;
  Ok (mkPoint a b c).

Definition origin : Point := mkPoint 0 0 0.

(** Modelled from the spec: [geometry.avg_points], the spec's [centroid]:
    the coordinate sums divided by the number of points. *)
Definition avg_points (ps : list Point) : result Point :=
  let s := foldr Point_add origin ps in
  let n := INR (length ps) in
  a ← pydiv (x s) n;
  b ← pydiv (y s) n;
  c ← pydiv (z s) n;
  Ok (mkPoint a b c).

(** Modelled from the spec: [geometry.point_segment_dis], the spec's
    [point_to_segment_distance]: the distance from [p] to the segment
    from [s1] to [s2], which is the distance to the nearer end point when
    the foot of the perpendicular falls outside the segment, and to the
    foot otherwise. *)
Definition point_segment_dis (s1 s2 p : Point) : R :=
  let v := Point_sub s2 s1 in
  let w := Point_sub p s1 in
  let c1 := Point_dot w v in
  let c2 := Point_dot v v in
  if Rleb c1 0 then Point_euclidean p s1
  else if Rleb c2 c1 then Point_euclidean p s2
  else Point_euclidean p (Point_add s1 (Point_mul v (c1 / c2))).

(** ** Tensor *)

(** [_h], [_w] and the flat row-major [array('d')] [_tensor]. *)
Record Tensor : Type := mkTensor { _h : nat; _w : nat; _tensor : list R }.

(** The loop of [Tensor.__init__] over the rows: every row must have
    length [w]; its elements are appended to the vector. *)
Fixpoint init_rows (w : nat) (matrix : list (list R)) : result (list R) :=
  match matrix with
  | [] => Ok []
  | row :: rest =>
      if Nat.eqb (length row) w
      then vector ← init_rows w rest; Ok (row ++ vector)
      else Raise AssertionError
  end.

(** [Tensor.__init__] for a matrix given as a list of rows. *)
Definition Tensor_init (matrix : list (list R)) : result Tensor :=
  match matrix with
  | [] => Ok (mkTensor 0 0 [])
  | row0 :: _ =>
      let w := length row0 in
      if Nat.eqb w 0 then Ok (mkTensor 0 0 [])
      else vector ← init_rows w matrix; Ok (mkTensor (length matrix) w vector)
  end.

(** [array.__getitem__] with an integer: negative indices count from the
    end. *)
Definition array_getitem (a : list R) (k : Z) : result R :=
  let n := Z.of_nat (length a) in
  let k' := if (k <? 0)%Z then (k + n)%Z else k in
  if ((k' <? 0) || (n <=? k'))%Z then Raise IndexError
  else match nth_error a (Z.to_nat k') with
       | Some v => Ok v
       | None => Raise IndexError
       end.

(** The range check that [__getitem__] performs on an integer index. *)
Definition index_in_range (i : Z) (n : nat) : bool :=
  (((i <? 0) && (- Z.of_nat n <=? i)) || ((0 <=? i) && (i <? Z.of_nat n)))%Z.

(** [Tensor.__getitem__] for a pair of integers, [self[i,j]]: both
    indices are checked, then the flat array is read at [i * _w + j] with
    the indices as given. *)
Definition Tensor_getitem (self : Tensor) (i j : Z) : result R :=
  if negb (index_in_range i (_h self)) then Raise IndexError
  else if negb (index_in_range j (_w self)) then Raise IndexError
  else array_getitem (_tensor self) (i * Z.of_nat (_w self) + j)%Z.

Arguments Tensor_getitem self (i j)%_Z.

(** [Tensor.size]. *)
Definition size (self : Tensor) : nat * nat := (_h self, _w self).

(** The inner loop of [__richcmp__] over [j], for one row [i]: [eq] is
    set to [False] and the loop left at the first pair of elements further
    apart than [1e-9]. *)
Fixpoint richcmp_cols (self t : Tensor) (i : nat) (js : list nat)
    (eq : bool) : result bool :=
  match js with
  | [] => Ok eq
  | j :: js' =>
      a ← Tensor_getitem self (Z.of_nat i) (Z.of_nat j);
      b ← Tensor_getitem t (Z.of_nat i) (Z.of_nat j);
      if Rgtb (Rabs (a - b)) 1e-9 then Ok false
      else richcmp_cols self t i js' eq
  end.

(** The outer loop of [__richcmp__] over [i]; the inner [break] does not
    leave it. *)
Fixpoint richcmp_rows (self t : Tensor) (rows : list nat) (w1 : nat)
    (eq : bool) : result bool :=
  match rows with
  | [] => Ok eq
  | i :: rows' =>
      eq' ← richcmp_cols self t i (seq 0 w1) eq;
      richcmp_rows self t rows' w1 eq'
  end.

(** [Tensor.__richcmp__(self, t, o)], called as a method; [o] is the
    comparison code of the protocol the name belongs to, 2 for equality
    and 3 for inequality; any other [o] falls off the end and returns
    [None]. *)
Definition Tensor_richcmp (self t : Tensor) (o : Z) : result (option bool) :=
  let '(h1, w1) := size self in
  let '(h2, w2) := size t in
  if negb (Nat.eqb h1 h2 && Nat.eqb w1 w2) then Raise AssertionError
  else
    eq ← richcmp_rows self t (seq 0 h1) w1 true;
    if (o =? 2)%Z then Ok (Some eq)
    else if (o =? 3)%Z then Ok (Some (negb eq))
    else Ok None.

(** A tensor object: the identity of the instance, with its state. *)
Definition Tensor_object : Type := nat * Tensor.

(** [a == b] and [a != b] on tensors.  [class Tensor(object)] defines
    neither [__eq__] nor [__ne__], and Python never looks up
    [__richcmp__]: the operators are those every object has, which compare
    the identity of the two instances and do not raise. *)
Definition Tensor_eq (a b : Tensor_object) : result bool :=
  Ok (bool_decide (a.1 = b.1)).

Definition Tensor_ne (a b : Tensor_object) : result bool :=
  Ok (negb (bool_decide (a.1 = b.1))).

(** [Tensor.__neg__]: columns 0 and 1 change sign, column 2 is kept. *)
Definition Tensor_neg (self : Tensor) : result Tensor :=
  a00 ← Tensor_getitem self 0 0;
  a01 ← Tensor_getitem self 0 1;
  a02 ← Tensor_getitem self 0 2;
  a10 ← Tensor_getitem self 1 0;
  a11 ← Tensor_getitem self 1 1;
  a12 ← Tensor_getitem self 1 2;
  a20 ← Tensor_getitem self 2 0;
  a21 ← Tensor_getitem self 2 1;
  a22 ← Tensor_getitem self 2 2;
  Tensor_init [[- a00; - a01; a02];
               [- a10; - a11; a12];
               [- a20; - a21; a22]].

(** The column [j] of a tensor with three rows, read as
    [Point(self[0,j], self[1,j], self[2,j])]. *)
Definition column (self : Tensor) (j : Z) : result Point :=
  a ← Tensor_getitem self 0 j;
  b ← Tensor_getitem self 1 j;
  c ← Tensor_getitem self 2 j;
  Ok (mkPoint a b c).

(** The nested list [[a1.x, a2.x, a3.x], [a1.y, ...], [a1.z, ...]]. *)
Definition columns_matrix (a1 a2 a3 : Point) : list (list R) :=
  [[x a1; x a2; x a3];
   [y a1; y a2; y a3];
   [z a1; z a2; z a3]].

(** [Tensor.unit]. *)
Definition Tensor_unit (self : Tensor) : result Tensor :=
  c1 ← column self 0; axis1 ← Point_unit c1;
  c2 ← column self 1; axis2 ← Point_unit c2;
  c3 ← column self 2; axis3 ← Point_unit c3;
  Tensor_init (columns_matrix axis1 axis2 axis3).

(** [Tensor.schatten]. *)
Definition schatten (self : Tensor) : result R :=
  c1 ← column self 0; let lambda1 := Point_magnitude c1 in
  c2 ← column self 1; let lambda2 := Point_magnitude c2 in
  c3 ← column self 2; let lambda3 := Point_magnitude c3 in
  Ok (sqrt (lambda1 ^ 2 + lambda2 ^ 2 + lambda3 ^ 2)).

(** The loops of [frobenius]: [distance += (t[i,j] - self[i,j]) ** 2]. *)
Fixpoint frobenius_cols (self t : Tensor) (i : nat) (js : list nat)
    (distance : R) : result R :=
  match js with
  | [] => Ok distance
  | j :: js' =>
      b ← Tensor_getitem t (Z.of_nat i) (Z.of_nat j);
      a ← Tensor_getitem self (Z.of_nat i) (Z.of_nat j);
      frobenius_cols self t i js' (distance + (b - a) ^ 2)
  end.

Fixpoint frobenius_rows (self t : Tensor) (rows : list nat) (w1 : nat)
    (distance : R) : result R :=
  match rows with
  | [] => Ok distance
  | i :: rows' =>
      d ← frobenius_cols self t i (seq 0 w1) distance;
      frobenius_rows self t rows' w1 d
  end.

(** [Tensor.frobenius]. *)
Definition frobenius (self t : Tensor) : result R :=
  let '(h1, w1) := size self in
  let '(h2, w2) := size t in
  if negb (Nat.eqb h1 h2 && Nat.eqb w1 w2) then Raise AssertionError
  else d ← frobenius_rows self t (seq 0 h1) w1 0; Ok (sqrt d).

(** ** Poses

    [geometry.Pose] and [geometry.Rotation] are not under src/.  tensor.py
    uses a pose only through [pose.R.rotate(p)] and [pose.map(p)]. *)

(** Modelled from the spec: [geometry.Rotation], the orientation of an
    entity, through its [rotate] method on vectors. *)
Record Rotation : Type := mkRotation { rotate : Point → Point }.

(** Modelled from the spec: [geometry.Pose], through its rotation [R] and
    its [map] method, the whole transformation applied to a point. *)
Record Pose : Type := mkPose { pose_R : Rotation; pose_map : Point → Point }.

(** ** Python values held in parameter dictionaries *)

#[local] Set Warnings "-register-all".

Inductive pyval : Type :=
  | VInt (n : Z)
  | VFloat (r : R)
  | VInf
  | VList (l : list pyval).

(** A dictionary with string keys. *)
Abbreviation dict := (gmap string pyval).

(** Objects are referred to by location; the store maps the location of
    each dictionary object to its current contents. *)
Abbreviation loc := nat (only parsing).
Abbreviation store := (gmap nat (gmap string pyval)).

(** [list.__getitem__] with a literal non-negative index. *)
Definition list_getitem {A : Type} (l : list A) (k : nat) : result A :=
  match nth_error l k with
  | Some a => Ok a
  | None => Raise IndexError
  end.

(** [min] of a non-empty list: the first of the smallest elements. *)
Definition pymin (first : R) (rest : list R) : R :=
  fold_left (λ m v, if Rltb v m then v else m) rest first.

(** What [vision_distance] needs of its argument, a [CameraTensor] or a
    [TriangleTensor]: the [centre] property and the tensor itself. *)
Class TensorLike (A : Type) : Type := {
  centre_of : A → Point;
  tensor_of : A → Tensor
}.

(** ** TriangleTensor *)

Module TriangleTensor.

(** The triangle's vertices ([self.triangle.vertices]), its pose, the
    cached [_centre] and the tensor. *)
Record t : Type := mk {
  vertices : list Point;
  pose : Pose;
  _centre : Point;
  tensor : Tensor
}.

(** [_get_tensor_basis]. *)
Definition _get_tensor_basis (vertices : list Point) : result (list Point) :=
  centre ← avg_points vertices;
  v0 ← list_getitem vertices 0;
  let vector1 := Point_sub v0 centre in
  v1 ← list_getitem vertices 1;
  let vector2 := Point_sub v1 centre in
  v2 ← list_getitem vertices 2;
  let vector3 := Point_sub v2 centre in
  let mag1 := point_segment_dis v0 v1 centre in
  let mag2 := point_segment_dis v0 v2 centre in
  let mag3 := point_segment_dis v1 v2 centre in
  let mag := pymin mag1 [mag2; mag3] in
  u1 ← Point_unit vector1;
  u2 ← Point_unit vector2;
  first_axis ← Point_unit (Point_cross u1 u2);
  second_axis ← Point_unit vector1;
  third_axis ← Point_unit (Point_cross second_axis first_axis);
  Ok [Point_mul first_axis mag; Point_mul second_axis mag;
      Point_mul third_axis mag].

(** [_get_tensor_matrix]: the matrix, and the value assigned to [_centre]
    on the way. *)
Definition _get_tensor_matrix (tri_pose : Pose) (vertices : list Point)
    : result (list (list R) * Point) :=
  centre ← avg_points vertices;
  basis ← _get_tensor_basis vertices;
  let world_centre := pose_map tri_pose centre in
  b0 ← list_getitem basis 0;
  let axis1 := rotate (pose_R tri_pose) b0 in
  b1 ← list_getitem basis 1;
  let axis2 := rotate (pose_R tri_pose) b1 in
  b2 ← list_getitem basis 2;
  let axis3 := rotate (pose_R tri_pose) b2 in
  Ok (columns_matrix axis1 axis2 axis3, world_centre).

(** [__init__], without the visualisation.  [OcclusionTriangle.__init__]
    (posable.py, not under src/) runs first; of what it does the tensor
    code reads back the vertices and the pose, which are kept as given.
    What it does with other than three vertices is not modelled. *)
Definition init (vertices : list Point) (tri_pose : Pose) : result t :=
  '(matrix, centre) ← _get_tensor_matrix tri_pose vertices;
  tensor ← Tensor_init matrix;
  Ok (mk vertices tri_pose centre tensor).

(** The [centre] property. *)
Definition centre (self : t) : Point := _centre self.

(** The [axis] property. *)
Definition axis (self : t) : result Point := column (tensor self) 0.

#[global] Instance tensor_like : TensorLike t :=
  {| centre_of := centre; tensor_of := tensor |}.

End TriangleTensor.

(** ** CameraTensor *)

Module CameraTensor.

(** The location of the class attribute [CameraTensor.defaults]: one
    dictionary object, created when the class body runs. *)
Definition defaults : loc := 0%nat.

(** The contents of [defaults] as the class body writes them. *)
Definition documented_defaults : dict :=
  <["ocular" := VInt 1]>
  (<["boundary_padding" := VFloat 0]>
  (<["res_max" := VList [VFloat 0; VFloat 0]]>
  (<["res_min" := VList [VInf; VInf]]>
  (<["blur_max" := VList [VFloat 1; VInf]]>
  (<["angle_max" := VList [VFloat (PI / 2); VFloat (PI / 2)]]> ∅))))).

Definition param_keys : list string := ["A"; "dim"; "f"; "o"; "s"; "zS"].

(** The instance attributes the tensor code reads and writes.
    [task_params] holds a reference to a dictionary object. *)
Record t : Type := mk {
  task_params : loc;
  _params : dict;
  pose : Pose;
  _frustum_centre : Point;
  tensor : Tensor
}.

(** [isinstance(value, Number)]. *)
Definition is_number (v : pyval) : bool :=
  match v with
  | VInt _ | VFloat _ | VInf => true
  | VList _ => false
  end.

(** The loop of [__init__] that builds [_params]: keys outside
    [param_keys] are skipped, a numeric ['s'] becomes a pair. *)
Definition init_params (params : dict) : dict :=
  map_imap (λ param value,
    if bool_decide (param ∈ param_keys)
    then Some (if bool_decide (param = "s") && is_number value
               then VList [value; value] else value)
    else None) params.

(** The loop [for param in task_params: self.task_params[param] =
    task_params[param]] run on the dictionary object at [l]: every entry
    of the argument is stored into that object.  A store without an object
    at [l] is not a state the program reaches. *)
Definition update_params (l : loc) (task_params : dict) (σ : store)
    : result store :=
  match σ !! l with
  | Some d =>
      Ok (<[l := map_fold (λ param value acc, <[param := value]> acc)
                   d task_params]> σ)
  | None => Raise KeyError
  end.

Section Build.

(** [Camera.gen_frustum_hull] (external): the hull, in the camera frame,
    for the given task parameters and camera parameters. *)
Variable gen_frustum_hull : dict → dict → list Point.

(** [_get_tensor_matrix]: the matrix, and the value assigned to
    [_frustum_centre] on the way. *)
Definition _get_tensor_matrix (cam_params : dict) (cam_pose : Pose)
    (task_params : dict) : result (list (list R) * Point) :=
  let hull := gen_frustum_hull task_params cam_params in
  if bool_decide (hull = []) then Raise AssertionError
  else
    centre_c ← avg_points hull;
    far ← avg_points (drop 4 hull);
    let first_axis := Point_sub far centre_c in
    h2 ← list_getitem hull 2;
    h3 ← list_getitem hull 3;
    h6 ← list_getitem hull 6;
    h7 ← list_getitem hull 7;
    side ← avg_points [h2; h3; h6; h7];
    let second_axis := Point_sub side centre_c in
    h0 ← list_getitem hull 0;
    h3' ← list_getitem hull 3;
    h4 ← list_getitem hull 4;
    h7' ← list_getitem hull 7;
    top ← avg_points [h0; h3'; h4; h7'];
    let third_axis := Point_sub top centre_c in
    let frustum_centre := pose_map cam_pose centre_c in
    let axis1 := rotate (pose_R cam_pose) first_axis in
    let axis2 := rotate (pose_R cam_pose) second_axis in
    let axis3 := rotate (pose_R cam_pose) third_axis in
    Ok (columns_matrix axis1 axis2 axis3, frustum_centre).

(** [__init__]: the task parameters are set first, so the store is
    returned whether or not the rest of the constructor raises. *)
Definition init (σ : store) (task_params params : dict)
    (cam_pose : Pose) : store * result t :=
  let self_task_params := defaults in
  match update_params self_task_params task_params σ with
  | Raise e => (σ, Raise e)
  | Ok σ' =>
      let self_params := init_params params in
      (σ',
       d ← from_option Ok (Raise KeyError) (σ' !! self_task_params);
       '(matrix, centre) ← _get_tensor_matrix self_params cam_pose d;
       tensor ← Tensor_init matrix;
       Ok (mk self_task_params self_params cam_pose centre tensor))
  end.

End Build.

(** [self.task_params[key]], read in store [σ]. *)
Definition read_task_param (σ : store) (self : t) (key : string)
    : option pyval :=
  d ← σ !! task_params self; d !! key.

(** The [centre] property. *)
Definition centre (self : t) : Point := _frustum_centre self.

(** The [axis] property. *)
Definition axis (self : t) : result Point := column (tensor self) 0.

#[global] Instance tensor_like : TensorLike t :=
  {| centre_of := centre; tensor_of := tensor |}.

(** [vision_distance].  Only the [return] expression is inside the
    [try]. *)
Definition vision_distance `{TensorLike A} (self : t) (other : A)
    : result R :=
  let euc_dist := Point_euclidean (centre self) (centre_of other) in
  u ← Tensor_unit (tensor self);
  v ← Tensor_unit (tensor_of other);
  nv ← Tensor_neg v;
  frob_dis ← frobenius u nv;
  match (q ← pydiv frob_dis (sqrt 8);
         r ← pydiv 1 (1 - q);
         Ok (r * (euc_dist + 1e-4))) with
  | Raise ZeroDivisionError => Ok (-1)
  | outcome => outcome
  end.

(** [strength]. *)
Definition strength (self : t) (triangle : TriangleTensor.t) : result R :=
  let euc_dis :=
    Point_euclidean (centre self) (TriangleTensor.centre triangle) in
  a ← axis self;
  ua ← Point_unit a;
  ta ← TriangleTensor.axis triangle;
  uta ← Point_unit ta;
  let rot_dis := Point_euclidean ua (Point_neg uta) in
  s ← schatten (tensor self);
  q ← pydiv euc_dis (s ^ 2);
  let re := 1 - q in
  q' ← pydiv rot_dis (sqrt 2);
  let rr := 1 - q' in
  let de := if Rltb re 0 then 0 else re in
  let dr := if Rltb rr 0 then 0 else rr in
  Ok (sqrt (de * dr)).

End CameraTensor.

(** ** Floats with the special values

    [TensorModel.strength] starts its minimum at [float('inf')], so the
    values it handles and returns are reals extended with the IEEE special
    values. *)

Inductive pyfloat : Type :=
  | Fin (r : R)
  | PInf
  | NInf
  | NaN.

(** [a < b]. *)
Definition pyfloat_ltb (a b : pyfloat) : bool :=
  match a, b with
  | Fin r, Fin s => Rltb r s
  | Fin _, PInf | NInf, Fin _ | NInf, PInf => true
  | _, _ => false
  end.

(** [a == b]. *)
Definition pyfloat_eqb (a b : pyfloat) : bool :=
  match a, b with
  | Fin r, Fin s => Reqb r s
  | PInf, PInf | NInf, NInf => true
  | _, _ => false
  end.

(** The builtin [max(a, b)]: [b] only when [b > a]. *)
Definition pymax (a b : pyfloat) : pyfloat :=
  if pyfloat_ltb a b then b else a.

(** [a + b]. *)
Definition pyfloat_add (a b : pyfloat) : pyfloat :=
  match a, b with
  | Fin r, Fin s => Fin (r + s)
  | NaN, _ | _, NaN => NaN
  | PInf, NInf | NInf, PInf => NaN
  | PInf, _ | _, PInf => PInf
  | NInf, _ | _, NInf => NInf
  end.

(** [a / b]: a zero divisor raises, whatever the dividend. *)
Definition pyfloat_div (a b : pyfloat) : result pyfloat :=
  match b with
  | Fin s =>
      if Reqb s 0 then Raise ZeroDivisionError
      else Ok match a with
              | Fin r => Fin (r / s)
              | PInf => if Rltb 0 s then PInf else NInf
              | NInf => if Rltb 0 s then NInf else PInf
              | NaN => NaN
              end
  | PInf | NInf =>
      Ok match a with
         | Fin _ => Fin 0
         | _ => NaN
         end
  | NaN => Ok NaN
  end.

(** ** Directional points and the point cache

    [geometry.DirectionalPoint] and [coverage.PointCache] are not under
    src/. *)

(** Modelled from the spec: [geometry.DirectionalPoint], constructible
    from [(x, y, z, rho, eta)]. *)
Record DirectionalPoint : Type := mkDirectionalPoint {
  dp_x : R; dp_y : R; dp_z : R; dp_rho : R; dp_eta : R
}.

#[global] Instance R_eq_dec : EqDecision R := Req_dec_T.

#[global] Instance DirectionalPoint_eq_dec : EqDecision DirectionalPoint.
Proof. solve_decision. Defined.

(** Modelled from the spec: [coverage.PointCache], a dictionary from
    directional points to strengths; the entries are kept in insertion
    order, one per key. *)
Abbreviation PointCache := (list (DirectionalPoint * pyfloat)).

(** Modelled from the spec: [cache[point] = value]. *)
Fixpoint cache_setitem (cache : PointCache) (point : DirectionalPoint)
    (value : pyfloat) : PointCache :=
  match cache with
  | [] => [(point, value)]
  | (k, v) :: rest =>
      if decide (k = point) then (k, value) :: rest
      else (k, v) :: cache_setitem rest point value
  end.

(** Modelled from the spec: [cache[point]]. *)
Fixpoint cache_getitem (cache : PointCache) (point : DirectionalPoint)
    : result pyfloat :=
  match cache with
  | [] => Raise KeyError
  | (k, v) :: rest =>
      if decide (k = point) then Ok v else cache_getitem rest point
  end.

(** Modelled from the spec: [cache.keys()]. *)
Definition cache_keys (cache : PointCache) : list DirectionalPoint :=
  cache.*1.

(** ** Calls to the collaborators, recorded

    [TensorModel.strength] queries a camera's strength and the occlusion
    test; a computation in [traced] returns its outcome together with the
    queries made so far, in order. *)

Inductive event : Type :=
  | QueryStrength (camera : string)
  | QueryOccluded (camera : string).

Definition traced (A : Type) : Type := list event → result A * list event.

#[global] Instance traced_ret : MRet traced := λ A a tr, (Ok a, tr).

#[global] Instance traced_bind : MBind traced :=
  λ A B f m tr,
    match m tr with
    | (Ok a, tr') => f a tr'
    | (Raise e, tr') => (Raise e, tr')
    end.

(** Record [ev], then continue with the outcome [r]. *)
Definition query {A : Type} (ev : event) (r : result A) : traced A :=
  λ tr, (r, tr ++ [ev]).

(** ** TensorModel *)

Module TensorModel.

Section Model.

(** The triangles handed to the occlusion test. *)
Variable occluder : Type.

(** The cameras of the model by name: [self[camera]]. *)
Variable cameras : gmap string CameraTensor.t.

(** [Model.views] (external): the camera groupings over a subset. *)
Variable views : option (gset string) → list (list string).

(** [Model.occluded] (external). *)
Variable occluded : Point → string → list occluder → bool.

(** The triangles of all scene members, as [coverage] collects them. *)
Variable scene_triangles : list occluder.

(** [Point.angle] and [math.atan2] (external). *)
Variable Point_angle : Point → Point → R.
Variable atan2 : R → R → R.

(** [self[camera].strength(triangle)]. *)
Definition camera_strength (camera : string) (triangle : TriangleTensor.t)
    : traced R :=
  query (QueryStrength camera)
    (cam ← from_option Ok (Raise KeyError) (cameras !! camera);
     CameraTensor.strength cam triangle).

(** [self.occluded(triangle.centre, camera, triangle_set=triangle_set)]. *)
Definition camera_occluded (camera : string) (triangle : TriangleTensor.t)
    (triangle_set : list occluder) : traced bool :=
  query (QueryOccluded camera)
    (Ok (occluded (TriangleTensor.centre triangle) camera triangle_set)).

(** The loop over the cameras of one view. *)
Fixpoint view_loop (triangle : TriangleTensor.t)
    (triangle_set : list occluder) (view : list string)
    (minstrength : pyfloat) : traced pyfloat :=
  match view with
  | [] => mret minstrength
  | camera :: rest =>
      strength ← camera_strength camera triangle;
      if Reqb strength 0 then mret (Fin 0)
      else
        occ ← camera_occluded camera triangle triangle_set;
        if occ : bool then mret (Fin 0)
        else if pyfloat_ltb (Fin strength) minstrength
        then view_loop triangle triangle_set rest (Fin strength)
        else view_loop triangle triangle_set rest minstrength
  end.

(** The loop over the views. *)
Fixpoint views_loop (triangle : TriangleTensor.t)
    (triangle_set : list occluder) (vs : list (list string))
    (maxstrength : pyfloat) : traced pyfloat :=
  match vs with
  | [] => mret maxstrength
  | view :: rest =>
      minstrength ← view_loop triangle triangle_set view PInf;
      let maxstrength := pymax maxstrength minstrength in
      if pyfloat_eqb maxstrength (Fin 1) then mret maxstrength
      else views_loop triangle triangle_set rest maxstrength
  end.

(** [TensorModel.strength]. *)
Definition strength (triangle : TriangleTensor.t)
    (triangle_set : list occluder) (subset : option (gset string))
    : traced pyfloat :=
  views_loop triangle triangle_set (views subset) (Fin 0).

(** The loop of [coverage] over [object.triangles]. *)
Fixpoint coverage_loop (triangles : list TriangleTensor.t)
    (subset : option (gset string)) (coverage : PointCache)
    : result PointCache :=
  match triangles with
  | [] => Ok coverage
  | triangle :: rest =>
      let p := TriangleTensor.centre triangle in
      a ← TriangleTensor.axis triangle;
      let rho := Point_angle a (mkPoint 0 0 1) in
      ay ← TriangleTensor.axis triangle;
      ax ← TriangleTensor.axis triangle;
      let eta := atan2 (y ay) (x ax) in
      let point := mkDirectionalPoint (x p) (y p) (z p) rho eta in
      s ← (strength triangle scene_triangles subset []).1;
      coverage_loop rest subset (cache_setitem coverage point s)
  end.

(** [TensorModel.coverage], for the triangles of the task object. *)
Definition coverage (object_triangles : list TriangleTensor.t)
    (subset : option (gset string)) : result PointCache :=
  coverage_loop object_triangles subset [].

(** The loop of [performance] over [coverage.keys()]. *)
Fixpoint performance_loop (coverage : PointCache)
    (points : list DirectionalPoint) (Fn Fd : pyfloat)
    : result (pyfloat * pyfloat) :=
  match points with
  | [] => Ok (Fn, Fd)
  | point :: rest =>
      v ← cache_getitem coverage point;
      performance_loop coverage rest (pyfloat_add Fn v)
        (pyfloat_add Fd (Fin 1))
  end.

(** [TensorModel.performance]; [coverage or self.coverage(...)] takes the
    given cache unless it is [None] or empty. *)
Definition performance (object_triangles : list TriangleTensor.t)
    (subset : option (gset string)) (coverage_arg : option PointCache)
    : result pyfloat :=
  cache ← match coverage_arg with
          | Some (entry :: more) => Ok (entry :: more)
          | Some [] | None => coverage object_triangles subset
          end;
  '(Fn, Fd) ← performance_loop cache (cache_keys cache) (Fin 0) (Fin 0);
  pyfloat_div Fn Fd.

End Model.

End TensorModel.

(** * The rest of tensor.py *)

(** ** Subscripts with slices *)

(** One index of a subscript: an integer, or a slice [start:stop] whose
    ends may be omitted.  The step of a slice is not read. *)
Inductive index : Type :=
  | Int (i : Z)
  | Slice (start stop : option Z).

(** The argument of [__getitem__]: one index, [t[i]], or a pair,
    [t[i, j]]. *)
Inductive subscript : Type :=
  | Single (i : index)
  | Pair (i j : index).

(** What [__getitem__] returns: a number for two integers, a list of rows
    otherwise. *)
Inductive item : Type :=
  | Scalar (v : R)
  | Nested (rows : list (list R)).

(** [[item for item in range(lo, hi)]]. *)
Definition pyrange (lo hi : Z) : list Z :=
  (λ k, (lo + Z.of_nat k)%Z) <$> seq 0 (Z.to_nat (hi - lo)).

(** An end of a slice or an integer index brought into [0, n): negative
    values count from the end, anything outside [-n, n) raises. *)
Definition normalize_index (i : Z) (n : nat) : result Z :=
  if ((i <? 0) && (- Z.of_nat n <=? i))%Z then Ok (i + Z.of_nat n)%Z
  else if ((0 <=? i) && (i <? Z.of_nat n))%Z then Ok i
  else Raise IndexError.

(** [irange] (or [jrange]) for one index along an axis of length [n]:
    the stop of a slice is included. *)
Definition index_range (ix : index) (n : nat) : result (list Z) :=
  match ix with
  | Int i => i' ← normalize_index i n; Ok [i']
  | Slice start stop =>
      i1 ← match start with
           | None => Ok 0%Z
           | Some s => normalize_index s n
           end;
      i2 ← match stop with
           | None => Ok (-1 + Z.of_nat n)%Z
           | Some s => normalize_index s n
           end;
      Ok (pyrange i1 (i2 + 1))
  end.

(** The inner loop of [__getitem__] over [jrange]. *)
Fixpoint getitem_row (self : Tensor) (i : Z) (jrange : list Z)
    : result (list R) :=
  match jrange with
  | [] => Ok []
  | j :: rest =>
      v ← array_getitem (_tensor self) (i * Z.of_nat (_w self) + j)%Z;
      row ← getitem_row self i rest;
      Ok (v :: row)
  end.

(** The outer loop of [__getitem__] over [irange]. *)
Fixpoint getitem_rows (self : Tensor) (irange jrange : list Z)
    : result (list (list R)) :=
  match irange with
  | [] => Ok []
  | i :: rest =>
      row ← getitem_row self i jrange;
      out ← getitem_rows self rest jrange;
      Ok (row :: out)
  end.

(** [Tensor.__getitem__] for any subscript of integers and slices.  Two
    integers read the flat array at [i * _w + j] with the indices as
    given; otherwise the normalised ranges are walked. *)
Definition Tensor_getitem_val (self : Tensor) (val : subscript)
    : result item :=
  match val with
  | Single _ => Raise IndexError
  | Pair i j =>
      irange ← index_range i (_h self);
      jrange ← index_range j (_w self);
      match i, j with
      | Int i0, Int j0 =>
          v ← array_getitem (_tensor self)
                (i0 * Z.of_nat (_w self) + j0)%Z;
          Ok (Scalar v)
      | _, _ =>
          out ← getitem_rows self irange jrange;
          Ok (Nested out)
      end
  end.

(** ** String representations *)

(** The line break character. *)
Definition newline : Ascii.ascii :=
  Ascii.Ascii false true false true false false false false.

Section Repr.

(** [str] of a float (builtin). *)
Variable str : R → string.

(** The loop over [j] of [__repr__] and [__str__] for row [i]: an element
    is written, followed by a comma, when [j < _h - 1], written alone when
    [j == _h - 1], and not written otherwise. *)
Fixpoint repr_cols (self : Tensor) (i : nat) (js : list nat)
    (line : string) : result string :=
  match js with
  | [] => Ok line
  | j :: rest =>
      let at_ij := (Z.of_nat i * Z.of_nat (_w self) + Z.of_nat j)%Z in
      if (Z.of_nat j <? Z.of_nat (_h self) - 1)%Z then
        v ← array_getitem (_tensor self) at_ij;
        repr_cols self i rest (line +:+ str v +:+ ", ")
      else if (Z.of_nat j =? Z.of_nat (_h self) - 1)%Z then
        v ← array_getitem (_tensor self) at_ij;
        repr_cols self i rest (line +:+ str v)
      else repr_cols self i rest line
  end.

(** The loop over [i]: a row is closed by a bracket, a comma, a line
    break and the indentation when [i < _w - 1], by a bracket alone when
    [i == _w - 1], and not closed otherwise. *)
Fixpoint repr_rows (self : Tensor) (indent : string) (rows : list nat)
    (line : string) : result string :=
  match rows with
  | [] => Ok line
  | i :: rest =>
      line1 ← repr_cols self i (seq 0 (_w self)) (line +:+ "[");
      let line2 :=
        if (Z.of_nat i <? Z.of_nat (_w self) - 1)%Z
        then line1 +:+ "]," +:+ String newline indent
        else if (Z.of_nat i =? Z.of_nat (_w self) - 1)%Z
        then line1 +:+ "]"
        else line1 in
      repr_rows self indent rest line2
  end.

(** [Tensor.__repr__]; [name] is [type(self).__name__]. *)
Definition Tensor_repr (name : string) (self : Tensor) : result string :=
  line ← repr_rows self "        " (seq 0 (_h self)) (name +:+ "([");
  Ok (line +:+ "])").

(** [Tensor.__str__]. *)
Definition Tensor_str (self : Tensor) : result string :=
  line ← repr_rows self "  " (seq 0 (_h self)) "([";
  Ok (line +:+ "])").

End Repr.

(** ** The mutators of CameraTensor *)

Module CameraMutators.

Section Mutators.

(** [Camera.gen_frustum_hull] (external), as for the constructor. *)
Variable gen_frustum_hull : dict → dict → list Point.

(** What every mutator does after the [Camera] method has returned:
    [tensor_matrix = self._get_tensor_matrix(self.task_params)] and
    [Tensor.__init__(self, tensor_matrix)].  The camera is returned in
    the state it is left in, also when an exception leaves the rebuild
    half way: [_frustum_centre] is assigned inside [_get_tensor_matrix],
    the tensor by [Tensor.__init__]. *)
Definition rebuild (σ : store) (self : CameraTensor.t)
    : CameraTensor.t * result () :=
  match (d ← from_option Ok (Raise KeyError)
               (σ !! CameraTensor.task_params self);
         CameraTensor._get_tensor_matrix gen_frustum_hull
           (CameraTensor._params self) (CameraTensor.pose self) d) with
  | Raise e => (self, Raise e)
  | Ok (matrix, centre) =>
      let self1 :=
        CameraTensor.mk (CameraTensor.task_params self)
          (CameraTensor._params self) (CameraTensor.pose self) centre
          (CameraTensor.tensor self) in
      match Tensor_init matrix with
      | Raise e => (self1, Raise e)
      | Ok tensor =>
          (CameraTensor.mk (CameraTensor.task_params self1)
             (CameraTensor._params self1) (CameraTensor.pose self1)
             (CameraTensor._frustum_centre self1) tensor, Ok ())
      end
  end.

(** A method of [Camera] (external) that changes the camera, followed by
    the rebuild.  The method returns the camera as it leaves it, and may
    raise. *)
Definition mutate (camera_method : CameraTensor.t → CameraTensor.t * result ())
    (σ : store) (self : CameraTensor.t) : CameraTensor.t * result () :=
  match camera_method self with
  | (self', Raise e) => (self', Raise e)
  | (self', Ok _) => rebuild σ self'
  end.

(** [Camera.setparam], [Camera.set_absolute_pose],
    [Camera.set_relative_pose] and [Camera.set_mount] (external). *)
Variable Camera_setparam :
  string → pyval → CameraTensor.t → CameraTensor.t * result ().
Variable Camera_set_absolute_pose :
  Pose → CameraTensor.t → CameraTensor.t * result ().
Variable Camera_set_relative_pose :
  Pose → CameraTensor.t → CameraTensor.t * result ().
Variable mount_type : Type.
Variable Camera_set_mount :
  mount_type → CameraTensor.t → CameraTensor.t * result ().

(** [CameraTensor.setparam]. *)
Definition setparam (σ : store) (self : CameraTensor.t) (param : string)
    (value : pyval) : CameraTensor.t * result () :=
  mutate (Camera_setparam param value) σ self.

(** [CameraTensor.set_absolute_pose]. *)
Definition set_absolute_pose (σ : store) (self : CameraTensor.t)
    (value : Pose) : CameraTensor.t * result () :=
  mutate (Camera_set_absolute_pose value) σ self.

(** [CameraTensor.set_relative_pose]. *)
Definition set_relative_pose (σ : store) (self : CameraTensor.t)
    (value : Pose) : CameraTensor.t * result () :=
  mutate (Camera_set_relative_pose value) σ self.

(** [CameraTensor.set_mount]. *)
Definition set_mount (σ : store) (self : CameraTensor.t)
    (value : mount_type) : CameraTensor.t * result () :=
  mutate (Camera_set_mount value) σ self.

End Mutators.

End CameraMutators.

(** ** Primitives of the visualisation

    [frustum_primitives] and [toggle_tensor_vis] build dictionaries for
    the visualisation; both read [visual.materials], so they are modelled
    with the visualisation enabled. *)

(** What varies in a primitive: the points of a ['curve'], the position
    and the axis of an ['arrow'].  Type, colour, shaft width and material
    are the same constants in every primitive of a kind. *)
Inductive primitive : Type :=
  | Curve (pos : list Point)
  | Arrow (pos axis : Point).

(** [l[i:j]] for literal bounds [i <= j]: empty beyond the end of the
    list. *)
Definition pyslice {A : Type} (l : list A) (i j : nat) : list A :=
  take (j - i) (drop i l).

Module CameraVisual.

Section Frustum.

Variable gen_frustum_hull : dict → dict → list Point.

(** The comprehension [[{... 'pos': [hull[i], hull[i + 4]]} for i in
    range(4)]]. *)
Fixpoint edge_curves (hull : list Point) (indices : list nat)
    : result (list primitive) :=
  match indices with
  | [] => Ok []
  | i :: rest =>
      a ← list_getitem hull i;
      b ← list_getitem hull (i + 4);
      more ← edge_curves hull rest;
      Ok (Curve [a; b] :: more)
  end.

(** [CameraTensor.frustum_primitives]. *)
Definition frustum_primitives (self : CameraTensor.t) (task_params : dict)
    : result (list primitive) :=
  let hull := gen_frustum_hull task_params (CameraTensor._params self) in
  if bool_decide (hull = []) then Ok []
  else
    let faces :=
      (λ i, Curve (pyslice hull i (i + 4) ++ pyslice hull i (i + 1)))
        <$> [0; 4; 8; 12]%nat in
    edges ← edge_curves hull [0; 1; 2; 3]%nat;
    let primitives := faces ++ edges in
    centre_c ← avg_points hull;
    far ← avg_points (drop 4 hull);
    let first_axis := Point_sub far centre_c in
    h2 ← list_getitem hull 2;
    h3 ← list_getitem hull 3;
    h6 ← list_getitem hull 6;
    h7 ← list_getitem hull 7;
    side ← avg_points [h2; h3; h6; h7];
    let second_axis := Point_sub side centre_c in
    h0 ← list_getitem hull 0;
    h3' ← list_getitem hull 3;
    h4 ← list_getitem hull 4;
    h7' ← list_getitem hull 7;
    top ← avg_points [h0; h3'; h4; h7'];
    let third_axis := Point_sub top centre_c in
    Ok (primitives ++ [Arrow centre_c first_axis; Arrow centre_c second_axis;
                       Arrow centre_c third_axis]).

End Frustum.

End CameraVisual.

(** ** The guide and the mutators of TriangleTensor *)

Module TriangleVisual.

(** A triangle tensor with its [_guide_c] flag and, while the guide is
    shown, the primitives of the [guide] scene object. *)
Record t : Type := mk {
  triangle : TriangleTensor.t;
  _guide_c : bool;
  guide : option (list primitive)
}.

(** [TriangleTensor.__init__] with the flag it sets first. *)
Definition init (vertices : list Point) (tri_pose : Pose) : result t :=
  tri ← TriangleTensor.init vertices tri_pose;
  Ok (mk tri false None).

(** [toggle_tensor_vis]: the guide is deleted when shown; otherwise one
    arrow per basis vector is made, at the centroid of the vertices. *)
Definition toggle_tensor_vis (self : t) : t * result () :=
  if _guide_c self then (mk (triangle self) false None, Ok ())
  else
    let vertices := TriangleTensor.vertices (triangle self) in
    match (basis ← TriangleTensor._get_tensor_basis vertices;
           centre ← avg_points vertices;
           Ok ((λ axis, Arrow centre axis) <$> (basis : list Point)))
    with
    | Raise e => (self, Raise e)
    | Ok primitives => (mk (triangle self) true (Some primitives), Ok ())
    end.

(** [tensor_matrix = self._get_tensor_matrix(self.triangle.vertices)]
    followed by [Tensor.__init__(self, tensor_matrix)]. *)
Definition rebuild (tri : TriangleTensor.t)
    : TriangleTensor.t * result () :=
  match TriangleTensor._get_tensor_matrix (TriangleTensor.pose tri)
          (TriangleTensor.vertices tri) with
  | Raise e => (tri, Raise e)
  | Ok (matrix, centre) =>
      let tri1 :=
        TriangleTensor.mk (TriangleTensor.vertices tri)
          (TriangleTensor.pose tri) centre (TriangleTensor.tensor tri) in
      match Tensor_init matrix with
      | Raise e => (tri1, Raise e)
      | Ok tensor =>
          (TriangleTensor.mk (TriangleTensor.vertices tri1)
             (TriangleTensor.pose tri1) (TriangleTensor._centre tri1) tensor,
           Ok ())
      end
  end.

(** [if self._guide_c: self.toggle_tensor_vis();
    self.toggle_tensor_vis()]. *)
Definition refresh_guide (self : t) : t * result () :=
  if _guide_c self then
    match toggle_tensor_vis self with
    | (self', Raise e) => (self', Raise e)
    | (self', Ok _) => toggle_tensor_vis self'
    end
  else (self, Ok ()).

(** A method of [OcclusionTriangle] (external) that changes the triangle,
    followed by the rebuild and the refresh of the guide. *)
Definition mutate
    (triangle_method : TriangleTensor.t → TriangleTensor.t * result ())
    (self : t) : t * result () :=
  match triangle_method (triangle self) with
  | (tri', Raise e) => (mk tri' (_guide_c self) (guide self), Raise e)
  | (tri', Ok _) =>
      match rebuild tri' with
      | (tri'', Raise e) => (mk tri'' (_guide_c self) (guide self), Raise e)
      | (tri'', Ok _) => refresh_guide (mk tri'' (_guide_c self) (guide self))
      end
  end.

Section Mutators.

(** [OcclusionTriangle.set_absolute_pose], [set_relative_pose],
    [set_mount] and [_pose_changed_hook] (external). *)
Variable Triangle_set_absolute_pose :
  Pose → TriangleTensor.t → TriangleTensor.t * result ().
Variable Triangle_set_relative_pose :
  Pose → TriangleTensor.t → TriangleTensor.t * result ().
Variable mount_type : Type.
Variable Triangle_set_mount :
  mount_type → TriangleTensor.t → TriangleTensor.t * result ().
Variable Triangle_pose_changed_hook :
  TriangleTensor.t → TriangleTensor.t * result ().

(** [TriangleTensor.set_absolute_pose]. *)
Definition set_absolute_pose (self : t) (value : Pose) : t * result () :=
  mutate (Triangle_set_absolute_pose value) self.

(** [TriangleTensor.set_relative_pose]. *)
Definition set_relative_pose (self : t) (value : Pose) : t * result () :=
  mutate (Triangle_set_relative_pose value) self.

(** [TriangleTensor.set_mount]. *)
Definition set_mount (self : t) (value : mount_type) : t * result () :=
  mutate (Triangle_set_mount value) self.

(** [TriangleTensor._pose_changed_hook]. *)
Definition _pose_changed_hook (self : t) : t * result () :=
  mutate Triangle_pose_changed_hook self.

End Mutators.

End TriangleVisual.

(** * Specification vocabulary

    The notions the statements below are written in. *)

(** ** Tensors *)

(** The element in row [i], column [j] of the flat array. *)
Definition elem (t : Tensor) (i j : nat) : R :=
  nth (i * _w t + j) (_tensor t) 0.

(** The flat array has one element per position; [Tensor.__init__]
    establishes this. *)
Definition well_formed (t : Tensor) : Prop :=
  length (_tensor t) = (_h t * _w t)%nat.

(** Two elements no further apart than [1e-9]. *)
Definition close (a b : R) : bool := negb (Rgtb (Rabs (a - b)) 1e-9).

Definition close_row (t1 t2 : Tensor) (js : list nat) (i : nat) : bool :=
  forallb (λ j, close (elem t1 i j) (elem t2 i j)) js.

Definition close_rows (t1 t2 : Tensor) (rows js : list nat) : bool :=
  forallb (close_row t1 t2 js) rows.

(** The shape of every camera and triangle tensor. *)
Definition is_3x3 (t : Tensor) : Prop :=
  well_formed t ∧ size t = (3%nat, 3%nat).

(** The column [j] of a 3x3 tensor as a vector. *)
Definition col (t : Tensor) (j : nat) : Point :=
  mkPoint (elem t 0 j) (elem t 1 j) (elem t 2 j).

Definition nonzero_columns (t : Tensor) : Prop :=
  col t 0 ≠ origin ∧ col t 1 ≠ origin ∧ col t 2 ≠ origin.

(** ** Vectors *)

(** A vector divided by its magnitude. *)
Definition normalized (p : Point) : Point :=
  mkPoint (x p / Point_magnitude p) (y p / Point_magnitude p)
          (z p / Point_magnitude p).

Definition orthogonal (p q : Point) : Prop := Point_dot p q = 0.

Definition unit_vector (p : Point) : Prop := Point_magnitude p = 1.

Definition parallel (p q : Point) : Prop := Point_cross p q = origin.

(** The centroid of three points. *)
Definition centroid3 (v0 v1 v2 : Point) : Point :=
  mkPoint ((x v0 + x v1 + x v2) / 3) ((y v0 + y v1 + y v2) / 3)
          ((z v0 + z v1 + z v2) / 3).

(** ** Camera strength *)

(** The Schatten norm of a 3x3 tensor. *)
Definition schatten_norm (t : Tensor) : R :=
  sqrt (Point_magnitude (col t 0) ^ 2 + Point_magnitude (col t 1) ^ 2
        + Point_magnitude (col t 2) ^ 2).

(** The value of [CameraTensor.strength] on 3x3 tensors with non-zero
    axes. *)
Definition strength_value (cam : CameraTensor.t) (tri : TriangleTensor.t)
    : R :=
  sqrt (Rmax 0 (1 - Point_euclidean (CameraTensor.centre cam)
                       (TriangleTensor.centre tri)
                     / schatten_norm (CameraTensor.tensor cam) ^ 2)
        * Rmax 0 (1 - Point_euclidean
                       (normalized (col (CameraTensor.tensor cam) 0))
                       (Point_neg
                          (normalized (col (TriangleTensor.tensor tri) 0)))
                     / sqrt 2)).

(** The first basis vector in the camera's own frame, before the pose
    rotates it: from the centre of the hull to the centre of its far
    face. *)
Definition local_first_axis (hull : list Point) : result Point :=
  centre_c ← avg_points hull;
  far ← avg_points (drop 4 hull);
  Ok (Point_sub far centre_c).

(** ** Vision distance *)

(** The Frobenius distance between the unit-normalised basis of [t] and
    the negated unit-normalised basis of [o], column by column: the
    negation flips columns 0 and 1 and keeps column 2. *)
Definition unit_frobenius (t o : Tensor) : R :=
  let u j := normalized (col t j) in
  let v j := normalized (col o j) in
  sqrt (Point_euclidean (Point_neg (v 0%nat)) (u 0%nat) ^ 2
        + Point_euclidean (Point_neg (v 1%nat)) (u 1%nat) ^ 2
        + Point_euclidean (v 2%nat) (u 2%nat) ^ 2).

(** The tensor [Tensor.unit] returns for a 3x3 tensor. *)
Definition unit_tensor_of (t : Tensor) : Tensor :=
  let u j := normalized (col t j) in
  mkTensor 3 3 [x (u 0%nat); x (u 1%nat); x (u 2%nat);
                y (u 0%nat); y (u 1%nat); y (u 2%nat);
                z (u 0%nat); z (u 1%nat); z (u 2%nat)].

(** ** The basis of a triangle in its own frame *)

Definition tri_centre (v0 v1 v2 : Point) : Point := centroid3 v0 v1 v2.

(** The unit normal of the triangle's plane. *)
Definition tri_normal (v0 v1 v2 : Point) : Point :=
  normalized
    (Point_cross (normalized (Point_sub v0 (tri_centre v0 v1 v2)))
                 (normalized (Point_sub v1 (tri_centre v0 v1 v2)))).

(** The unit vector from the centroid towards the first vertex. *)
Definition tri_radial (v0 v1 v2 : Point) : Point :=
  normalized (Point_sub v0 (tri_centre v0 v1 v2)).

(** The unit vector orthogonal to both. *)
Definition tri_tangent (v0 v1 v2 : Point) : Point :=
  normalized (Point_cross (tri_radial v0 v1 v2) (tri_normal v0 v1 v2)).

(** The least of the three distances from the centroid to an edge. *)
Definition tri_radius (v0 v1 v2 : Point) : R :=
  Rmin (point_segment_dis v0 v1 (tri_centre v0 v1 v2))
       (Rmin (point_segment_dis v0 v2 (tri_centre v0 v1 v2))
             (point_segment_dis v1 v2 (tri_centre v0 v1 v2))).

(** The first two vertices differ from the centroid and the three
    vertices are not collinear. *)
Definition non_degenerate (v0 v1 v2 : Point) : Prop :=
  Point_sub v0 (tri_centre v0 v1 v2) ≠ origin ∧
  Point_sub v1 (tri_centre v0 v1 v2) ≠ origin ∧
  Point_cross (normalized (Point_sub v0 (tri_centre v0 v1 v2)))
              (normalized (Point_sub v1 (tri_centre v0 v1 v2))) ≠ origin.

(** The least of the three distances from a vertex to the opposite
    edge. *)
Definition vertex_edge_radius (v0 v1 v2 : Point) : R :=
  Rmin (point_segment_dis v1 v2 v0)
       (Rmin (point_segment_dis v0 v2 v1) (point_segment_dis v0 v1 v2)).

(** The basis with an edge direction and the vertex-to-edge radius: a unit
    surface normal, a unit vector along one of the edges and a unit vector
    orthogonal to both, each scaled by [vertex_edge_radius] and rotated by
    the pose. *)
Definition vertex_edge_basis (tri_pose : Pose) (v0 v1 v2 : Point) (t : Tensor)
    : Prop :=
  ∃ n e w : Point,
    unit_vector n ∧ orthogonal n (Point_sub v1 v0) ∧
    orthogonal n (Point_sub v2 v0) ∧
    unit_vector e ∧
    (parallel e (Point_sub v1 v0) ∨ parallel e (Point_sub v2 v0) ∨
     parallel e (Point_sub v2 v1)) ∧
    unit_vector w ∧ orthogonal w n ∧ orthogonal w e ∧
    let r := vertex_edge_radius v0 v1 v2 in
    col t 0 = rotate (pose_R tri_pose) (Point_mul n r) ∧
    col t 1 = rotate (pose_R tri_pose) (Point_mul e r) ∧
    col t 2 = rotate (pose_R tri_pose) (Point_mul w r).

(** ** Aggregation over views *)

(** [min(a, b)] as the loop computes it: [b] only when [b < a]. *)
Definition pyfloat_min (a b : pyfloat) : pyfloat :=
  if pyfloat_ltb b a then b else a.

(** [a <= b]. *)
Definition pyfloat_leb (a b : pyfloat) : bool :=
  match a, b with
  | Fin r, Fin s => Rleb r s
  | NInf, (Fin _ | PInf | NInf) | Fin _, PInf | PInf, PInf => true
  | _, _ => false
  end.

(** A float that is a real number or [+inf]. *)
Definition real_or_inf (a : pyfloat) : Prop :=
  match a with
  | Fin _ | PInf => True
  | NInf | NaN => False
  end.

(** A float in the interval [0, 1]. *)
Definition in_unit_interval (a : pyfloat) : Prop :=
  match a with
  | Fin r => 0 <= r <= 1
  | _ => False
  end.

Module Aggregation.

Section Spec.

(** The strength of each camera towards the triangle, and whether the
    triangle's centre is occluded from it. *)
Variable cam_strength : string → R.
Variable cam_occluded : string → bool.

(** A camera forces its view to 0 when its strength is 0 or the centre is
    occluded from it. *)
Definition blocks (camera : string) : bool :=
  Reqb (cam_strength camera) 0 || cam_occluded camera.

(** The minimum of the strengths over the cameras of a view, from the
    accumulator [m]. *)
Definition view_min (view : list string) (m : pyfloat) : pyfloat :=
  fold_left (λ m camera, pyfloat_min m (Fin (cam_strength camera))) view m.

(** The value of a view. *)
Definition view_value (view : list string) : pyfloat :=
  if existsb blocks view then Fin 0 else view_min view PInf.

(** The views that are evaluated: evaluation stops after the view at which
    the accumulated maximum equals 1.0. *)
Fixpoint evaluated (vs : list (list string)) (acc : pyfloat)
    : list (list string) :=
  match vs with
  | [] => []
  | view :: rest =>
      let acc' := pymax acc (view_value view) in
      view :: (if pyfloat_eqb acc' (Fin 1) then [] else evaluated rest acc')
  end.

(** The maximum over the evaluated views, from the accumulator 0.0. *)
Definition aggregate (vs : list (list string)) : pyfloat :=
  fold_left pymax (view_value <$> evaluated vs (Fin 0)) (Fin 0).

(** The queries a view causes: the strength of each camera up to the first
    that forces 0, and the occlusion test for those of them whose strength
    is not 0. *)
Fixpoint view_queries (view : list string) : list event :=
  match view with
  | [] => []
  | camera :: rest =>
      QueryStrength camera ::
      (if Reqb (cam_strength camera) 0 then []
       else QueryOccluded camera ::
            (if cam_occluded camera then [] else view_queries rest))
  end.

End Spec.

End Aggregation.

Section Outcomes.

Context {occluder : Type}.
Variable cameras : gmap string CameraTensor.t.
Variable occluded : Point → string → list occluder → bool.
Variable triangle : TriangleTensor.t.
Variable triangle_set : list occluder.
Variable cam_strength : string → R.

(** The outcome of [self[camera].strength(triangle)]. *)
Definition strength_outcome (camera : string) : result R :=
  cam ← from_option Ok (Raise KeyError) (cameras !! camera);
  CameraTensor.strength cam triangle.

(** Whether the triangle's centre is occluded from [camera]. *)
Definition occluded_from (camera : string) : bool :=
  occluded (TriangleTensor.centre triangle) camera triangle_set.

(** Every camera named in a view of [vs] has a strength towards the
    triangle, given by [cam_strength]. *)
Definition strengths_defined (vs : list (list string)) : Prop :=
  ∀ view camera, In view vs → In camera view →
    strength_outcome camera = Ok (cam_strength camera).

End Outcomes.

(** ** The coverage cache *)

(** The sum of the cached values, added in key order from 0.0. *)
Definition cache_sum (cache : PointCache) : pyfloat :=
  fold_left pyfloat_add cache.*2 (Fin 0).

(** The arithmetic mean of the cached values. *)
Definition cache_mean (cache : PointCache) : result pyfloat :=
  pyfloat_div (cache_sum cache) (Fin (INR (length cache))).

(** The sum of a list of reals. *)
Definition Rsum (rs : list R) : R := fold_right Rplus 0 rs.

(** ** Sequences of constructor calls *)

(** A sequence of [CameraTensor] constructor calls, each with its task
    parameters, camera parameters and pose; only the store is kept. *)
Definition init_many (gen_frustum_hull : dict → dict → list Point)
    (σ : store) (calls : list (dict * dict * Pose)) : store :=
  foldl (λ σ' '(task_params, params, cam_pose),
           (CameraTensor.init gen_frustum_hull σ' task_params params
              cam_pose).1) σ calls.

(** * Example scene *)

Definition identity_pose : Pose := mkPose (mkRotation (λ p, p)) (λ p, p).

(** A pose that turns the camera a quarter turn about the x axis. *)
Definition tilted_pose : Pose :=
  let quarter_turn := λ p, mkPoint (x p) (- z p) (y p) in
  mkPose (mkRotation quarter_turn) quarter_turn.

(** A triangle with its centroid at the origin. *)
Definition example_v0 : Point := mkPoint 10 0 0.
Definition example_v1 : Point := mkPoint (-5) 12 0.
Definition example_v2 : Point := mkPoint (-5) (-12) 0.

(** The triangle tensor the constructor builds from it. *)
Definition example_triangle : TriangleTensor.t :=
  TriangleTensor.mk [example_v0; example_v1; example_v2] identity_pose origin
    (mkTensor 3 3 [0; 5; 0;
                   0; 0; -5;
                   5; 0; 0]).

(** A frustum hull in the camera frame: the near face at depth 1, the far
    face at depth 3. *)
Definition example_hull : list Point :=
  [mkPoint (-1) (-1) 1; mkPoint 1 (-1) 1; mkPoint 1 1 1; mkPoint (-1) 1 1;
   mkPoint (-3) (-3) 3; mkPoint 3 (-3) 3; mkPoint 3 3 3; mkPoint (-3) 3 3].

(** The store when the class body has run. *)
Definition initial_store : store :=
  {[CameraTensor.defaults := CameraTensor.documented_defaults]}.

(** The camera the constructor builds from [example_hull] under
    [tilted_pose]. *)
Definition example_camera_tilted : CameraTensor.t :=
  CameraTensor.mk CameraTensor.defaults ∅ tilted_pose (mkPoint 0 (-2) 0)
    (mkTensor 3 3 [0; 0; -2;
                   -1; 0; 0;
                   0; 2; 0]).

(** A camera at the centre of the example triangle that looks against the
    triangle's normal. *)
Definition facing_camera : CameraTensor.t :=
  CameraTensor.mk CameraTensor.defaults ∅ identity_pose origin
    (mkTensor 3 3 [0; 1; 0;
                   0; 0; 1;
                   -1; 0; 0]).

(** The strengths towards the example triangle of the facing camera, named
    B, and of any other camera name, standing for the tilted camera. *)
Definition facing_strengths (camera : string) : R :=
  if bool_decide (camera = "B") then 1
  else strength_value example_camera_tilted example_triangle.

(** A cache of two points. *)
Definition example_cache : PointCache :=
  [(mkDirectionalPoint 0 0 0 0 0, Fin 1);
   (mkDirectionalPoint 1 0 0 0 0, Fin 0)].

(** * Vocabulary for the further properties *)

(** Every row of the matrix has length [w]. *)
Definition rectangular (w : nat) (matrix : list (list R)) : Prop :=
  Forall (λ row, length row = w) matrix.

(** [matrix[i][j]]. *)
Definition matrix_elem (matrix : list (list R)) (i j : nat) : R :=
  nth j (nth i matrix []) 0.

(** The row an integer index in [-n, n) stands for. *)
Definition wrap (i : Z) (n : nat) : nat :=
  Z.to_nat (if (i <? 0)%Z then (i + Z.of_nat n)%Z else i).

(** The elements of rows [rows] and columns [cols], as a list of rows. *)
Definition block (t : Tensor) (rows cols : list nat) : list (list R) :=
  (λ i, (λ j, elem t i j) <$> cols) <$> rows.

(** The sum of the squared differences of corresponding elements. *)
Definition frobenius_sq (t1 t2 : Tensor) : R :=
  Rsum ((λ i, Rsum ((λ j, (elem t2 i j - elem t1 i j) ^ 2)
                      <$> seq 0 (_w t1)))
          <$> seq 0 (_h t1)).

(** An index whose integer, or whose given slice ends, lie in [-n, n). *)
Definition index_valid (ix : index) (n : nat) : Prop :=
  let ok (i : Z) := (- Z.of_nat n <= i < Z.of_nat n)%Z in
  match ix with
  | Int i => ok i
  | Slice start stop =>
      from_option ok True start ∧ from_option ok True stop
  end.

(** The rows (or columns) an index selects along an axis of length [n]:
    one for an integer; for a slice those from its start up to AND
    INCLUDING its stop, the whole axis when both are omitted. *)
Definition selected (ix : index) (n : nat) : list nat :=
  match ix with
  | Int i => [wrap i n]
  | Slice start stop =>
      let first := from_option (λ s, wrap s n) 0%nat start in
      let last_excl := from_option (λ s, S (wrap s n)) n stop in
      seq first (last_excl - first)
  end.

Definition is_int (ix : index) : bool :=
  match ix with Int _ => true | Slice _ _ => false end.

(** The strings of a list with [sep] between neighbours. *)
Fixpoint join (sep : string) (l : list string) : string :=
  match l with
  | [] => ""
  | [s] => s
  | s :: rest => s +:+ sep +:+ join sep rest
  end.

Section Text.

Variable str : R → string.

(** A row written as ["[a, b, c]"]. *)
Definition row_text (t : Tensor) (i : nat) : string :=
  "[" +:+ join ", " ((λ j, str (elem t i j)) <$> seq 0 (_w t)) +:+ "]".

(** The rows, each after the first on a line of its own behind
    [indent]. *)
Definition matrix_text (indent : string) (t : Tensor) : string :=
  join ("," +:+ String newline indent) (row_text t <$> seq 0 (_h t)).

End Text.

(** Two tensors with the same elements in the columns before [n]. *)
Definition agree_before (n : nat) (t1 t2 : Tensor) : Prop :=
  ∀ i j, (i < _h t1)%nat → (j < n)%nat → elem t1 i j = elem t2 i j.

(** A camera whose basis is the three coordinate axes, and one with the
    third axis reversed. *)
Definition axes_tensor : Tensor := mkTensor 3 3 [1; 0; 0; 0; 1; 0; 0; 0; 1].

Definition axes_camera : CameraTensor.t :=
  CameraTensor.mk CameraTensor.defaults ∅ identity_pose origin axes_tensor.

Definition mirrored_camera : CameraTensor.t :=
  CameraTensor.mk CameraTensor.defaults ∅ identity_pose origin
    (mkTensor 3 3 [1; 0; 0; 0; 1; 0; 0; 0; -1]).

(** The directional point [coverage] maps a triangle to: its centre, with
    the angles of its axis. *)
Definition point_of (Point_angle : Point → Point → R) (atan2 : R → R → R)
    (triangle : TriangleTensor.t) : result DirectionalPoint :=
  a ← TriangleTensor.axis triangle;
  let p := TriangleTensor.centre triangle in
  Ok (mkDirectionalPoint (x p) (y p) (z p)
        (Point_angle a (mkPoint 0 0 1)) (atan2 (y a) (x a))).

(** Two enumerations with the same views, in any order and with any
    repetitions. *)
Definition same_views (vs1 vs2 : list (list string)) : Prop :=
  ∀ view, In view vs1 ↔ In view vs2.

(** The arrows of a triangle's guide: at the centroid of the vertices,
    along the three basis vectors in the triangle's own frame. *)
Definition guide_arrows (v0 v1 v2 : Point) : list primitive :=
  let c := tri_centre v0 v1 v2 in
  let r := tri_radius v0 v1 v2 in
  [Arrow c (Point_mul (tri_normal v0 v1 v2) r);
   Arrow c (Point_mul (tri_radial v0 v1 v2) r);
   Arrow c (Point_mul (tri_tangent v0 v1 v2) r)].

(** The example triangle with its guide hidden. *)
Definition example_triangle_state : TriangleVisual.t :=
  TriangleVisual.mk example_triangle false None.

(** * Proofs *)

Ltac step := cbn [mbind mret result_bind result_ret].

Tactic Notation "step" "in" hyp(H) :=
  cbn [mbind mret result_bind result_ret] in H.

Ltac bind_inv H :=
  match type of H with
  | context [?m ≫= _] =>
      lazymatch m with
      | _ ≫= _ => fail
      | _ => destruct m eqn:?; step in H; [|discriminate H]
      end
  end.

(** ** Comparisons and division on floats *)

Lemma Rltb_true a b : Rltb a b = true ↔ a < b.
Proof.
  unfold Rltb. destruct (Rlt_dec a b); split; intros; try lra; discriminate.
Qed.

Lemma Rltb_false a b : Rltb a b = false ↔ b <= a.
Proof.
  unfold Rltb. destruct (Rlt_dec a b); split; intros; try lra; discriminate.
Qed.

Lemma Rleb_true a b : Rleb a b = true ↔ a <= b.
Proof.
  unfold Rleb. destruct (Rle_dec a b); split; intros; try lra; discriminate.
Qed.

Lemma Reqb_true a b : Reqb a b = true ↔ a = b.
Proof.
  unfold Reqb. destruct (Req_dec_T a b); split; intros; try lra; discriminate.
Qed.

Lemma Reqb_false a b : Reqb a b = false ↔ a ≠ b.
Proof.
  unfold Reqb. destruct (Req_dec_T a b); split; intros H;
    [discriminate|contradiction|assumption|reflexivity].
Qed.

Lemma pydiv_ok a b : b ≠ 0 → pydiv a b = Ok (a / b).
Proof.
  intros Hb. unfold pydiv.
  destruct (Req_dec_T b 0); [contradiction|reflexivity].
Qed.

Lemma pydiv_zero a : pydiv a 0 = Raise ZeroDivisionError.
Proof. unfold pydiv. destruct (Req_dec_T 0 0); [reflexivity|contradiction]. Qed.

Lemma pydiv_inv a b q : pydiv a b = Ok q → b ≠ 0 ∧ q = a / b.
Proof.
  unfold pydiv. destruct (Req_dec_T b 0); [discriminate|].
  intros [= <-]. split; [assumption|reflexivity].
Qed.

Lemma div_nonneg a b : 0 <= a → 0 < b → 0 <= a / b.
Proof.
  intros Ha Hb. unfold Rdiv. apply Rmult_le_pos; [assumption|].
  left. apply Rinv_0_lt_compat. assumption.
Qed.

Lemma sqrt_2_pos : 0 < sqrt 2.
Proof. apply sqrt_lt_R0. lra. Qed.

Lemma sqrt_8_pos : 0 < sqrt 8.
Proof. apply sqrt_lt_R0. lra. Qed.

Lemma sqrt_unit_interval a b :
  0 <= a <= 1 → 0 <= b <= 1 → 0 <= sqrt (a * b) <= 1.
Proof.
  intros Ha Hb. split; [apply sqrt_pos|].
  rewrite <- sqrt_1. apply sqrt_le_1; nra.
Qed.

Lemma floor_at_zero_max r : (if Rltb r 0 then 0 else r) = Rmax 0 r.
Proof.
  unfold Rltb, Rmax. destruct (Rlt_dec r 0), (Rle_dec 0 r); lra.
Qed.

Lemma Rmax_floor_unit q : 0 <= q → 0 <= Rmax 0 (1 - q) <= 1.
Proof. intros. unfold Rmax. destruct (Rle_dec 0 (1 - q)); lra. Qed.

(** ** Vectors *)

Lemma Point_eq p q : x p = x q → y p = y q → z p = z q → p = q.
Proof. destruct p, q. simpl. intros -> -> ->. reflexivity. Qed.

Lemma sum_squares_nonneg a b c : 0 <= a * a + b * b + c * c.
Proof. nra. Qed.

Lemma Point_magnitude_nonneg p : 0 <= Point_magnitude p.
Proof. apply sqrt_pos. Qed.

Lemma Point_magnitude_sqr p :
  Point_magnitude p ^ 2 = x p * x p + y p * y p + z p * z p.
Proof.
  unfold Point_magnitude. simpl. rewrite Rmult_1_r.
  apply sqrt_sqrt, sum_squares_nonneg.
Qed.

Lemma Point_magnitude_nonzero p : p ≠ origin → Point_magnitude p ≠ 0.
Proof.
  intros Hp Hm. apply Hp. destruct p as [a b c]. unfold Point_magnitude in Hm.
  simpl in Hm. apply sqrt_eq_0 in Hm; [|apply sum_squares_nonneg].
  unfold origin. f_equal; nra.
Qed.

Lemma Point_magnitude_pos p : p ≠ origin → 0 < Point_magnitude p.
Proof.
  intros H. pose proof (Point_magnitude_nonzero p H).
  pose proof (Point_magnitude_nonneg p). lra.
Qed.

Lemma Point_magnitude_eq p m :
  0 <= m → x p * x p + y p * y p + z p * z p = m * m →
  Point_magnitude p = m.
Proof.
  intros Hm H. unfold Point_magnitude. rewrite H. apply sqrt_square, Hm.
Qed.

Lemma Point_magnitude_gt p m :
  0 <= m → m * m < x p * x p + y p * y p + z p * z p →
  m < Point_magnitude p.
Proof.
  intros Hm H. unfold Point_magnitude. rewrite <- (sqrt_square m Hm) at 1.
  apply sqrt_lt_1; [nra|apply sum_squares_nonneg|exact H].
Qed.

Lemma Point_euclidean_sqr p q :
  Point_euclidean p q ^ 2
  = (x p - x q) * (x p - x q) + (y p - y q) * (y p - y q)
    + (z p - z q) * (z p - z q).
Proof. unfold Point_euclidean. rewrite Point_magnitude_sqr. reflexivity. Qed.

Lemma Point_unit_ok p :
  Point_magnitude p ≠ 0 → Point_unit p = Ok (normalized p).
Proof.
  intros Hm. unfold Point_unit. rewrite !pydiv_ok by assumption. reflexivity.
Qed.

Lemma Point_unit_origin : Point_unit origin = Raise ZeroDivisionError.
Proof.
  unfold Point_unit, Point_magnitude, origin. simpl.
  replace (0 * 0 + 0 * 0 + 0 * 0) with 0 by ring. rewrite sqrt_0, pydiv_zero.
  reflexivity.
Qed.

Lemma Point_dot_self p : Point_dot p p = Point_magnitude p ^ 2.
Proof. rewrite Point_magnitude_sqr. reflexivity. Qed.

Lemma Point_dot_normalized_l p q :
  Point_dot (normalized p) q = Point_dot p q / Point_magnitude p.
Proof. unfold Point_dot, normalized. simpl. unfold Rdiv. ring. Qed.

Lemma Point_dot_comm p q : Point_dot p q = Point_dot q p.
Proof. unfold Point_dot. ring. Qed.

Lemma Point_dot_cross_l p q : Point_dot (Point_cross p q) p = 0.
Proof. unfold Point_dot, Point_cross. simpl. ring. Qed.

Lemma Point_dot_cross_r p q : Point_dot (Point_cross p q) q = 0.
Proof. unfold Point_dot, Point_cross. simpl. ring. Qed.

Lemma unit_vector_normalized p : p ≠ origin → unit_vector (normalized p).
Proof.
  intros H. unfold unit_vector.
  pose proof (Point_magnitude_pos p H) as Hpos.
  pose proof (Point_magnitude_sqr p) as Hsq.
  unfold Point_magnitude at 1. unfold normalized. cbn [x y z].
  set (m := Point_magnitude p) in *.
  replace (_ + _ + _) with ((x p * x p + y p * y p + z p * z p) / m ^ 2)
    by (field; lra).
  rewrite <- Hsq. replace (m ^ 2 / m ^ 2) with 1 by (field; lra). apply sqrt_1.
Qed.

Lemma unit_vector_nonzero p : unit_vector p → p ≠ origin.
Proof.
  unfold unit_vector. intros H ->. unfold Point_magnitude, origin in H.
  cbn [x y z] in H. replace (0 * 0 + 0 * 0 + 0 * 0) with 0 in H by ring.
  rewrite sqrt_0 in H. lra.
Qed.

Lemma unit_vector_dot_self p : unit_vector p → Point_dot p p = 1.
Proof. intros H. rewrite Point_dot_self, H. ring. Qed.

(** Lagrange's identity. *)
Lemma Point_cross_magnitude_sqr p q :
  Point_dot (Point_cross p q) (Point_cross p q)
  = Point_dot p p * Point_dot q q - Point_dot p q ^ 2.
Proof. unfold Point_dot, Point_cross. simpl. ring. Qed.

Lemma cross_of_orthogonal_units p q :
  unit_vector p → unit_vector q → orthogonal p q →
  Point_cross p q ≠ origin.
Proof.
  intros Hp Hq Ho Hz.
  pose proof (Point_cross_magnitude_sqr p q) as H.
  rewrite Hz, (unit_vector_dot_self p Hp), (unit_vector_dot_self q Hq), Ho in H.
  unfold Point_dot, origin in H. simpl in H. lra.
Qed.

Lemma orthogonal_normalized_l p q :
  orthogonal p q → orthogonal (normalized p) q.
Proof.
  unfold orthogonal. intros H. rewrite Point_dot_normalized_l, H.
  unfold Rdiv. ring.
Qed.

Lemma orthogonal_sym p q : orthogonal p q → orthogonal q p.
Proof. unfold orthogonal. rewrite Point_dot_comm. auto. Qed.

Lemma normalized_eq p m q :
  0 < m → x p * x p + y p * y p + z p * z p = m * m →
  x q * m = x p → y q * m = y p → z q * m = z p →
  normalized p = q.
Proof.
  intros Hm Hsq Hx Hy Hz. unfold normalized.
  rewrite (Point_magnitude_eq p m) by (lra || assumption).
  apply Point_eq; cbn [x y z]; [rewrite <- Hx|rewrite <- Hy|rewrite <- Hz];
    field; lra.
Qed.

Lemma Point_euclidean_neg_self u :
  unit_vector u → Point_euclidean (Point_neg u) u ^ 2 = 4.
Proof.
  intros Hu. apply unit_vector_dot_self in Hu. unfold Point_dot in Hu.
  rewrite Point_euclidean_sqr. cbn [Point_neg x y z]. lra.
Qed.

Lemma Point_euclidean_self u : Point_euclidean u u ^ 2 = 0.
Proof. rewrite Point_euclidean_sqr. ring. Qed.

Lemma avg_points_three v0 v1 v2 :
  avg_points [v0; v1; v2] = Ok (centroid3 v0 v1 v2).
Proof.
  unfold avg_points. cbn [foldr length INR].
  replace (1 + 1 + 1) with 3 by ring.
  rewrite !pydiv_ok by lra. step. unfold centroid3. f_equal.
  unfold Point_add, origin. cbn [x y z].
  apply Point_eq; cbn [x y z]; field.
Qed.

Lemma avg_points_eq ps c :
  ps ≠ [] →
  x (foldr Point_add origin ps) = x c * INR (length ps) →
  y (foldr Point_add origin ps) = y c * INR (length ps) →
  z (foldr Point_add origin ps) = z c * INR (length ps) →
  avg_points ps = Ok c.
Proof.
  intros Hne Hx Hy Hz. unfold avg_points.
  assert (Hn : INR (length ps) ≠ 0).
  { apply not_0_INR. destruct ps; [contradiction|discriminate]. }
  rewrite !pydiv_ok by exact Hn. step. f_equal.
  apply Point_eq; cbn [x y z]; [rewrite Hx|rewrite Hy|rewrite Hz]; field;
    exact Hn.
Qed.

Lemma pymin_three a b c : pymin a [b; c] = Rmin a (Rmin b c).
Proof.
  unfold pymin, Rmin, Rltb. cbn [fold_left].
  destruct (Rlt_dec b a), (Rle_dec b c), (Rle_dec a b);
    try destruct (Rlt_dec c b); try destruct (Rlt_dec c a);
    try destruct (Rle_dec a c); lra.
Qed.

Lemma point_segment_dis_inside s1 s2 p :
  let v := Point_sub s2 s1 in
  let w := Point_sub p s1 in
  0 < Point_dot w v → Point_dot w v < Point_dot v v →
  point_segment_dis s1 s2 p
  = Point_magnitude
      (Point_sub p
         (Point_add s1 (Point_mul v (Point_dot w v / Point_dot v v)))).
Proof.
  intros v w H1 H2. unfold point_segment_dis. fold v w. unfold Rleb.
  destruct (Rle_dec (Point_dot w v) 0); [lra|].
  destruct (Rle_dec (Point_dot v v) (Point_dot w v)); [lra|]. reflexivity.
Qed.

(** ** Tensor construction and indexing *)

Lemma init_rows_length w m v :
  init_rows w m = Ok v → length v = (length m * w)%nat.
Proof.
  revert v. induction m as [|row rest IH]; intros v; simpl.
  - intros [= <-]. reflexivity.
  - destruct (Nat.eqb_spec (length row) w) as [Hw|]; [|discriminate].
    destruct (init_rows w rest) as [v'|] eqn:E; simpl; [|discriminate].
    intros [= <-]. rewrite length_app, (IH v' eq_refl). lia.
Qed.

Lemma Tensor_init_well_formed m t : Tensor_init m = Ok t → well_formed t.
Proof.
  unfold Tensor_init, well_formed. destruct m as [|row0 rest].
  - intros [= <-]. reflexivity.
  - destruct (Nat.eqb (length row0) 0); [intros [= <-]; reflexivity|].
    destruct (init_rows _ _) as [v|] eqn:E; simpl; [|discriminate].
    intros [= <-]. simpl. apply init_rows_length in E. exact E.
Qed.

Lemma array_getitem_nat a (n : nat) :
  (n < length a)%nat → array_getitem a (Z.of_nat n) = Ok (nth n a 0).
Proof.
  intros Hn. unfold array_getitem.
  destruct (Z.ltb_spec (Z.of_nat n) 0); [lia|].
  destruct (Z.ltb_spec (Z.of_nat n) 0); [lia|].
  destruct (Z.leb_spec (Z.of_nat (length a)) (Z.of_nat n)); [lia|]. simpl.
  rewrite Nat2Z.id.
  destruct (nth_error a n) eqn:E.
  - f_equal. symmetry. apply nth_error_nth. exact E.
  - apply nth_error_None in E. lia.
Qed.

Lemma index_in_range_nat (i n : nat) :
  (i < n)%nat → index_in_range (Z.of_nat i) n = true.
Proof.
  intros. unfold index_in_range.
  destruct (Z.leb_spec 0 (Z.of_nat i)); [|lia].
  destruct (Z.ltb_spec (Z.of_nat i) (Z.of_nat n)); [|lia].
  apply orb_true_r.
Qed.

Lemma Tensor_getitem_nat t (i j : nat) :
  well_formed t → (i < _h t)%nat → (j < _w t)%nat →
  Tensor_getitem t (Z.of_nat i) (Z.of_nat j) = Ok (elem t i j).
Proof.
  intros Hwf Hi Hj. unfold Tensor_getitem.
  rewrite !index_in_range_nat by assumption. simpl.
  replace (Z.of_nat i * Z.of_nat (_w t) + Z.of_nat j)%Z
    with (Z.of_nat (i * _w t + j)) by lia.
  apply array_getitem_nat. rewrite Hwf. nia.
Qed.

(** Negative indices count from the end.  The flat array is read at
    [i * _w + j] with the indices as given, so a negative column index
    reads the end of the previous row, and of the last row from row 0. *)
Example getitem_negative_row :
  Tensor_getitem (mkTensor 2 2 [1; 2; 3; 4]) (-1) 0 = Ok 3.
Proof. reflexivity. Qed.

Example getitem_negative_column :
  Tensor_getitem (mkTensor 2 2 [1; 2; 3; 4]) 0 (-1) = Ok 4.
Proof. reflexivity. Qed.

Example getitem_out_of_range :
  Tensor_getitem (mkTensor 2 2 [1; 2; 3; 4]) 2 0 = Raise IndexError.
Proof. reflexivity. Qed.

Example init_ragged_rows : Tensor_init [[1; 2]; [3]] = Raise AssertionError.
Proof. reflexivity. Qed.

Example init_empty_rows : Tensor_init [[]; [1]] = Ok (mkTensor 0 0 []).
Proof. reflexivity. Qed.

Lemma Tensor_init_columns a1 a2 a3 :
  Tensor_init (columns_matrix a1 a2 a3)
  = Ok (mkTensor 3 3 [x a1; x a2; x a3; y a1; y a2; y a3; z a1; z a2; z a3]).
Proof. reflexivity. Qed.

Lemma columns_tensor_3x3 a1 a2 a3 :
  is_3x3 (mkTensor 3 3 [x a1; x a2; x a3; y a1; y a2; y a3; z a1; z a2; z a3]).
Proof. split; reflexivity. Qed.

Lemma columns_tensor_col a1 a2 a3 :
  let t := mkTensor 3 3
             [x a1; x a2; x a3; y a1; y a2; y a3; z a1; z a2; z a3] in
  col t 0 = a1 ∧ col t 1 = a2 ∧ col t 2 = a3.
Proof. cbn zeta. repeat split; apply Point_eq; reflexivity. Qed.

Lemma column_3x3 t (j : nat) :
  is_3x3 t → (j < 3)%nat → column t (Z.of_nat j) = Ok (col t j).
Proof.
  intros [Hwf Hs] Hj. unfold size in Hs. injection Hs as Hh Hw.
  unfold column.
  change 0%Z with (Z.of_nat 0). change 1%Z with (Z.of_nat 1).
  change 2%Z with (Z.of_nat 2).
  rewrite !Tensor_getitem_nat by (auto; lia). reflexivity.
Qed.

Lemma column_0 t : is_3x3 t → column t 0 = Ok (col t 0).
Proof. intros H. apply (column_3x3 t 0 H). lia. Qed.

Lemma column_1 t : is_3x3 t → column t 1 = Ok (col t 1).
Proof. intros H. apply (column_3x3 t 1 H). lia. Qed.

Lemma column_2 t : is_3x3 t → column t 2 = Ok (col t 2).
Proof. intros H. apply (column_3x3 t 2 H). lia. Qed.

Lemma Tensor_neg_3x3 a00 a01 a02 a10 a11 a12 a20 a21 a22 :
  Tensor_neg (mkTensor 3 3 [a00; a01; a02; a10; a11; a12; a20; a21; a22])
  = Ok (mkTensor 3 3 [- a00; - a01; a02; - a10; - a11; a12; - a20; - a21; a22]).
Proof. reflexivity. Qed.

Lemma frobenius_3x3 a00 a01 a02 a10 a11 a12 a20 a21 a22
    b00 b01 b02 b10 b11 b12 b20 b21 b22 :
  frobenius (mkTensor 3 3 [a00; a01; a02; a10; a11; a12; a20; a21; a22])
            (mkTensor 3 3 [b00; b01; b02; b10; b11; b12; b20; b21; b22])
  = Ok (sqrt (0 + (b00 - a00) ^ 2 + (b01 - a01) ^ 2 + (b02 - a02) ^ 2
              + (b10 - a10) ^ 2 + (b11 - a11) ^ 2 + (b12 - a12) ^ 2
              + (b20 - a20) ^ 2 + (b21 - a21) ^ 2 + (b22 - a22) ^ 2)).
Proof. reflexivity. Qed.

(** ** Tensor equality *)

Lemma richcmp_cols_spec t1 t2 i js eq :
  well_formed t1 → well_formed t2 → _w t1 = _w t2 →
  (i < _h t1)%nat → (i < _h t2)%nat →
  (∀ j, In j js → (j < _w t1)%nat) →
  richcmp_cols t1 t2 i js eq = Ok (eq && close_row t1 t2 js i).
Proof.
  intros W1 W2 Hw H1 H2. induction js as [|j js IH]; intros Hjs; simpl.
  - rewrite andb_true_r. reflexivity.
  - rewrite !Tensor_getitem_nat; auto using in_eq;
      [|rewrite <- Hw; auto using in_eq].
    simpl. unfold close at 1.
    destruct (Rgtb _ _); simpl.
    + rewrite andb_false_r. reflexivity.
    + apply IH. auto using in_cons.
Qed.

Lemma richcmp_rows_spec t1 t2 rows eq :
  well_formed t1 → well_formed t2 → _w t1 = _w t2 → _h t1 = _h t2 →
  (∀ i, In i rows → (i < _h t1)%nat) →
  richcmp_rows t1 t2 rows (_w t1) eq
  = Ok (eq && close_rows t1 t2 rows (seq 0 (_w t1))).
Proof.
  intros W1 W2 Hw Hh. revert eq.
  induction rows as [|i rows IH]; intros eq Hrows; simpl.
  - rewrite andb_true_r. reflexivity.
  - rewrite (richcmp_cols_spec t1 t2 i _ eq); auto using in_eq.
    + simpl. rewrite IH by auto using in_cons. rewrite andb_assoc. reflexivity.
    + rewrite <- Hh. auto using in_eq.
    + intros j Hj. apply in_seq in Hj. lia.
Qed.

Lemma close_rows_true t1 t2 :
  close_rows t1 t2 (seq 0 (_h t1)) (seq 0 (_w t1)) = true ↔
  ∀ i j, (i < _h t1)%nat → (j < _w t1)%nat →
    Rabs (elem t1 i j - elem t2 i j) <= 1e-9.
Proof.
  unfold close_rows, close_row, close, Rgtb. rewrite forallb_forall. split.
  - intros H i j Hi Hj.
    assert (Hin : In i (seq 0 (_h t1))) by (apply in_seq; lia).
    specialize (H i Hin). rewrite forallb_forall in H.
    assert (Hjn : In j (seq 0 (_w t1))) by (apply in_seq; lia).
    specialize (H j Hjn). destruct (Rgt_dec _ _); [discriminate|lra].
  - intros H i Hi. apply in_seq in Hi. rewrite forallb_forall.
    intros j Hj. apply in_seq in Hj.
    destruct (Rgt_dec _ _) as [Hgt|]; [|reflexivity].
    specialize (H i j ltac:(lia) ltac:(lia)). lra.
Qed.

Lemma close_sym a b : close a b = close b a.
Proof. unfold close. rewrite (Rabs_minus_sym a b). reflexivity. Qed.

Lemma close_refl a : close a a = true.
Proof.
  unfold close, Rgtb. replace (a - a) with 0 by ring. rewrite Rabs_R0.
  destruct (Rgt_dec _ _); [lra|reflexivity].
Qed.

Lemma close_rows_sym t1 t2 rows js :
  close_rows t1 t2 rows js = close_rows t2 t1 rows js.
Proof.
  assert (Hrow : ∀ i, close_row t1 t2 js i = close_row t2 t1 js i).
  { intros i. unfold close_row. induction js as [|j js IHj]; simpl.
    - reflexivity.
    - rewrite IHj, close_sym. reflexivity. }
  unfold close_rows. induction rows as [|i rows IH]; simpl.
  - reflexivity.
  - rewrite IH, Hrow. reflexivity.
Qed.

Lemma close_rows_refl t rows js : close_rows t t rows js = true.
Proof.
  unfold close_rows, close_row. apply forallb_forall. intros i _.
  apply forallb_forall. intros j _. apply close_refl.
Qed.

Lemma Tensor_richcmp_same_size t1 t2 o :
  well_formed t1 → well_formed t2 → size t1 = size t2 →
  Tensor_richcmp t1 t2 o =
    let eq := close_rows t1 t2 (seq 0 (_h t1)) (seq 0 (_w t1)) in
    if (o =? 2)%Z then Ok (Some eq)
    else if (o =? 3)%Z then Ok (Some (negb eq)) else Ok None.
Proof.
  intros W1 W2 Hs. unfold Tensor_richcmp, size in *.
  injection Hs as Hh Hw. rewrite <- Hh, <- Hw, !Nat.eqb_refl. simpl.
  rewrite richcmp_rows_spec; auto.
  intros i Hi. apply in_seq in Hi. lia.
Qed.

Lemma Tensor_richcmp_mismatch t1 t2 o :
  size t1 ≠ size t2 → Tensor_richcmp t1 t2 o = Raise AssertionError.
Proof.
  intros Hs. unfold Tensor_richcmp, size in *.
  destruct (Nat.eqb_spec (_h t1) (_h t2)) as [Hh|]; [|reflexivity].
  destruct (Nat.eqb_spec (_w t1) (_w t2)) as [Hw|]; [|reflexivity].
  congruence.
Qed.

(** The method [__richcmp__], called directly.  For two tensors of equal
    shape, [__richcmp__] with [o = 2] returns [True] exactly when every
    pair of corresponding elements differs by at most [1e-9], [o = 3]
    returns the negation, and the answer does not depend on the order of
    the two tensors; a tensor passes the test against itself.  For two
    tensors of different shapes the call raises the shape assertion. *)
Lemma Tensor_richcmp_tolerant_or_error (m1 m2 : list (list R))
    (t1 t2 : Tensor) :
  Tensor_init m1 = Ok t1 → Tensor_init m2 = Ok t2 →
  (size t1 = size t2 →
     ∃ b : bool,
       Tensor_richcmp t1 t2 2 = Ok (Some b) ∧
       Tensor_richcmp t1 t2 3 = Ok (Some (negb b)) ∧
       (b = true ↔
          ∀ i j, (i < _h t1)%nat → (j < _w t1)%nat →
            Rabs (elem t1 i j - elem t2 i j) <= 1e-9) ∧
       Tensor_richcmp t2 t1 2 = Ok (Some b))
  ∧ (size t1 ≠ size t2 →
       Tensor_richcmp t1 t2 2 = Raise AssertionError ∧
       Tensor_richcmp t1 t2 3 = Raise AssertionError)
  ∧ Tensor_richcmp t1 t1 2 = Ok (Some true).
Proof.
  intros H1 H2. apply Tensor_init_well_formed in H1, H2.
  split; [|split].
  - intros Hs. eexists. split; [|split; [|split]].
    + rewrite Tensor_richcmp_same_size by assumption. reflexivity.
    + rewrite Tensor_richcmp_same_size by assumption. reflexivity.
    + apply close_rows_true.
    + rewrite Tensor_richcmp_same_size by (auto; congruence). simpl.
      unfold size in Hs. injection Hs as Hh Hw. rewrite <- Hh, <- Hw.
      rewrite close_rows_sym. reflexivity.
  - intros Hs. split; apply Tensor_richcmp_mismatch; assumption.
  - rewrite Tensor_richcmp_same_size by auto. simpl.
    rewrite close_rows_refl. reflexivity.
Qed.

(** C6 at the failing input.  The comparison the claim describes is the
    body of [__richcmp__], which the operators never reach.  Two tensors
    constructed from the same matrix are two objects: the method, called
    directly, answers [True], and [==] answers [False] ([!=] answers
    [True]).  Between a 2x2 and a 1x2 tensor the method raises the shape
    assertion, and [==] answers [False] without an error.  In general
    [==] between two distinct tensor objects is [False], whatever they
    hold. *)
Lemma Tensor_eq_is_identity :
  let t := mkTensor 2 2 [1; 2; 3; 4] in
  let a : Tensor_object := (0%nat, t) in
  let b : Tensor_object := (1%nat, t) in
  let c : Tensor_object := (2%nat, mkTensor 1 2 [1; 2]) in
  Tensor_init [[1; 2]; [3; 4]] = Ok t ∧
  Tensor_init [[1; 2]] = Ok c.2 ∧
  Tensor_richcmp a.2 b.2 2 = Ok (Some true) ∧
  Tensor_eq a b = Ok false ∧
  Tensor_ne a b = Ok true ∧
  Tensor_richcmp a.2 c.2 2 = Raise AssertionError ∧
  Tensor_eq a c = Ok false ∧
  (∀ x y : Tensor_object,
     x.1 ≠ y.1 → Tensor_eq x y = Ok false ∧ Tensor_ne x y = Ok true) ∧
  (∀ x : Tensor_object, Tensor_eq x x = Ok true).
Proof.
  cbn zeta. split; [reflexivity|]. split; [reflexivity|]. split.
  { cbn [snd]. rewrite Tensor_richcmp_same_size by reflexivity. cbn zeta.
    rewrite close_rows_refl. reflexivity. }
  split; [reflexivity|]. split; [reflexivity|].
  split; [apply Tensor_richcmp_mismatch; discriminate|].
  split; [reflexivity|]. split.
  - intros x y Hne. unfold Tensor_eq, Tensor_ne.
    rewrite bool_decide_eq_false_2 by exact Hne. split; reflexivity.
  - intros x. unfold Tensor_eq. rewrite bool_decide_eq_true_2 by reflexivity.
    reflexivity.
Qed.

(** ** The basis of a triangle tensor *)

Section Basis.

Variables v0 v1 v2 : Point.

Local Abbreviation centre := (tri_centre v0 v1 v2).
Local Abbreviation normal := (tri_normal v0 v1 v2).
Local Abbreviation radial := (tri_radial v0 v1 v2).
Local Abbreviation tangent := (tri_tangent v0 v1 v2).
Local Abbreviation radius := (tri_radius v0 v1 v2).
Local Abbreviation proper := (non_degenerate v0 v1 v2).

Lemma tri_radial_unit : proper → unit_vector radial.
Proof. intros (H0 & _ & _). apply unit_vector_normalized. exact H0. Qed.

Lemma tri_normal_unit : proper → unit_vector normal.
Proof. intros (_ & _ & Hc). apply unit_vector_normalized. exact Hc. Qed.

Lemma tri_radial_normal_orthogonal : orthogonal radial normal.
Proof.
  apply orthogonal_sym. unfold tri_normal, tri_radial.
  apply orthogonal_normalized_l. apply Point_dot_cross_l.
Qed.

Lemma tri_tangent_cross_nonzero :
  proper → Point_cross radial normal ≠ origin.
Proof.
  intros H. apply cross_of_orthogonal_units.
  - apply tri_radial_unit, H.
  - apply tri_normal_unit, H.
  - apply tri_radial_normal_orthogonal.
Qed.

Lemma get_tensor_basis_three :
  proper →
  TriangleTensor._get_tensor_basis [v0; v1; v2]
  = Ok [Point_mul normal radius; Point_mul radial radius;
        Point_mul tangent radius].
Proof.
  intros Hnd. pose proof Hnd as (H0 & H1 & Hc).
  unfold TriangleTensor._get_tensor_basis.
  rewrite avg_points_three. step. cbn [list_getitem nth_error]. step.
  fold centre.
  rewrite !(Point_unit_ok (Point_sub v0 centre))
    by (apply Point_magnitude_nonzero; assumption). step.
  rewrite (Point_unit_ok (Point_sub v1 centre))
    by (apply Point_magnitude_nonzero; assumption). step.
  rewrite (Point_unit_ok (Point_cross _ _))
    by (apply Point_magnitude_nonzero; assumption). step.
  fold normal. fold radial.
  rewrite (Point_unit_ok (Point_cross radial normal))
    by (apply Point_magnitude_nonzero, tri_tangent_cross_nonzero, Hnd). step.
  rewrite pymin_three. reflexivity.
Qed.

Lemma get_tensor_matrix_three (tri_pose : Pose) :
  proper →
  TriangleTensor._get_tensor_matrix tri_pose [v0; v1; v2]
  = Ok (columns_matrix
          (rotate (pose_R tri_pose) (Point_mul normal radius))
          (rotate (pose_R tri_pose) (Point_mul radial radius))
          (rotate (pose_R tri_pose) (Point_mul tangent radius)),
        pose_map tri_pose centre).
Proof.
  intros Hnd. unfold TriangleTensor._get_tensor_matrix.
  rewrite avg_points_three. step. rewrite get_tensor_basis_three by exact Hnd.
  reflexivity.
Qed.

End Basis.

Lemma tri_normal_orthogonal_edge01 v0 v1 v2 :
  orthogonal (tri_normal v0 v1 v2) (Point_sub v1 v0).
Proof.
  unfold tri_normal. apply orthogonal_normalized_l.
  set (c := tri_centre v0 v1 v2).
  unfold orthogonal, Point_dot, Point_cross, normalized, Point_sub.
  cbn [x y z]. unfold Rdiv. ring.
Qed.

Lemma centroid3_balance v0 v1 v2 :
  Point_sub v2 v0
  = Point_add (Point_mul (Point_sub v0 (tri_centre v0 v1 v2)) (-2))
              (Point_mul (Point_sub v1 (tri_centre v0 v1 v2)) (-1)).
Proof.
  unfold tri_centre, centroid3, Point_sub, Point_add, Point_mul.
  apply Point_eq; cbn [x y z]; field.
Qed.

Lemma tri_normal_orthogonal_edge02 v0 v1 v2 :
  orthogonal (tri_normal v0 v1 v2) (Point_sub v2 v0).
Proof.
  rewrite (centroid3_balance v0 v1 v2). unfold tri_normal.
  apply orthogonal_normalized_l.
  set (c := tri_centre v0 v1 v2).
  unfold orthogonal, Point_dot, Point_cross, normalized, Point_sub, Point_add,
    Point_mul.
  cbn [x y z]. unfold Rdiv. ring.
Qed.

Lemma tri_tangent_unit v0 v1 v2 :
  non_degenerate v0 v1 v2 → unit_vector (tri_tangent v0 v1 v2).
Proof.
  intros H. apply unit_vector_normalized, tri_tangent_cross_nonzero, H.
Qed.

Lemma tri_tangent_orthogonal v0 v1 v2 :
  orthogonal (tri_tangent v0 v1 v2) (tri_normal v0 v1 v2) ∧
  orthogonal (tri_tangent v0 v1 v2) (tri_radial v0 v1 v2).
Proof.
  unfold tri_tangent. split; apply orthogonal_normalized_l.
  - apply Point_dot_cross_r.
  - apply Point_dot_cross_l.
Qed.

Lemma TriangleTensor_init_three (tri_pose : Pose) v0 v1 v2 :
  non_degenerate v0 v1 v2 →
  let column_of p :=
    rotate (pose_R tri_pose) (Point_mul p (tri_radius v0 v1 v2)) in
  TriangleTensor.init [v0; v1; v2] tri_pose
  = Ok (TriangleTensor.mk [v0; v1; v2] tri_pose
          (pose_map tri_pose (tri_centre v0 v1 v2))
          (let a1 := column_of (tri_normal v0 v1 v2) in
           let a2 := column_of (tri_radial v0 v1 v2) in
           let a3 := column_of (tri_tangent v0 v1 v2) in
           mkTensor 3 3 [x a1; x a2; x a3; y a1; y a2; y a3;
                         z a1; z a2; z a3])).
Proof.
  intros Hnd column_of. unfold TriangleTensor.init.
  rewrite get_tensor_matrix_three by exact Hnd. step.
  rewrite Tensor_init_columns. reflexivity.
Qed.

(** C3 (amended).  For a triangle built from three vertices that are not
    degenerate, the columns of the basis are the unit normal of the
    triangle's plane, the unit vector from the centroid towards the first
    vertex, and the unit in-plane vector orthogonal to both, each scaled
    by the least of the three distances from the centroid to an edge and
    then rotated by the rotation of the triangle's pose. *)
Theorem TriangleTensor_basis_columns (tri_pose : Pose) (v0 v1 v2 : Point) :
  non_degenerate v0 v1 v2 →
  let c := tri_centre v0 v1 v2 in
  let n := tri_normal v0 v1 v2 in
  let e := tri_radial v0 v1 v2 in
  let w := tri_tangent v0 v1 v2 in
  let r := tri_radius v0 v1 v2 in
  ∃ t : TriangleTensor.t,
    TriangleTensor.init [v0; v1; v2] tri_pose = Ok t ∧
    is_3x3 (TriangleTensor.tensor t) ∧
    col (TriangleTensor.tensor t) 0
      = rotate (pose_R tri_pose) (Point_mul n r) ∧
    col (TriangleTensor.tensor t) 1
      = rotate (pose_R tri_pose) (Point_mul e r) ∧
    col (TriangleTensor.tensor t) 2
      = rotate (pose_R tri_pose) (Point_mul w r) ∧
    TriangleTensor.centre t = pose_map tri_pose c ∧
    (unit_vector n ∧ orthogonal n (Point_sub v1 v0) ∧
     orthogonal n (Point_sub v2 v0)) ∧
    (unit_vector e ∧ e = normalized (Point_sub v0 (centroid3 v0 v1 v2)) ∧
     orthogonal e n) ∧
    (unit_vector w ∧ orthogonal w n ∧ orthogonal w e) ∧
    r = Rmin (point_segment_dis v0 v1 (centroid3 v0 v1 v2))
          (Rmin (point_segment_dis v0 v2 (centroid3 v0 v1 v2))
                (point_segment_dis v1 v2 (centroid3 v0 v1 v2))).
Proof.
  intros Hnd c n e w r. eexists.
  split; [apply TriangleTensor_init_three; exact Hnd|].
  cbn [TriangleTensor.tensor TriangleTensor.centre TriangleTensor._centre].
  split; [apply columns_tensor_3x3|].
  split; [apply columns_tensor_col|].
  split; [apply columns_tensor_col|].
  split; [apply columns_tensor_col|].
  split; [reflexivity|].
  split.
  { split; [apply tri_normal_unit, Hnd|].
    split; [apply tri_normal_orthogonal_edge01|].
    apply tri_normal_orthogonal_edge02. }
  split.
  { split; [apply tri_radial_unit, Hnd|]. split; [reflexivity|].
    apply tri_radial_normal_orthogonal. }
  split.
  { split; [apply tri_tangent_unit, Hnd|]. apply tri_tangent_orthogonal. }
  reflexivity.
Qed.

(** *** The example triangle *)

Ltac coords := unfold Point_dot, Point_sub, Point_add, Point_mul, Point_cross,
  example_v0, example_v1, example_v2, origin; cbn [x y z].

Lemma example_centre : tri_centre example_v0 example_v1 example_v2 = origin.
Proof.
  unfold tri_centre, centroid3. coords. apply Point_eq; cbn [x y z]; lra.
Qed.

Lemma example_radial :
  tri_radial example_v0 example_v1 example_v2 = mkPoint 1 0 0.
Proof.
  unfold tri_radial. rewrite example_centre.
  apply (normalized_eq _ 10); coords; lra.
Qed.

Lemma example_normal :
  tri_normal example_v0 example_v1 example_v2 = mkPoint 0 0 1.
Proof.
  unfold tri_normal. fold (tri_radial example_v0 example_v1 example_v2).
  rewrite example_radial, example_centre.
  rewrite (normalized_eq (Point_sub example_v1 origin) 13
             (mkPoint (-5 / 13) (12 / 13) 0)) by (coords; lra).
  apply (normalized_eq _ (12 / 13)); coords; lra.
Qed.

Lemma example_tangent :
  tri_tangent example_v0 example_v1 example_v2 = mkPoint 0 (-1) 0.
Proof.
  unfold tri_tangent. rewrite example_radial, example_normal.
  apply (normalized_eq _ 1); coords; lra.
Qed.

Lemma example_radius : tri_radius example_v0 example_v1 example_v2 = 5.
Proof.
  unfold tri_radius. rewrite example_centre.
  assert (H3 : point_segment_dis example_v1 example_v2 origin = 5).
  { rewrite point_segment_dis_inside by (coords; lra).
    apply Point_magnitude_eq; [lra|]. coords. lra. }
  assert (H1 : 5 < point_segment_dis example_v0 example_v1 origin).
  { rewrite point_segment_dis_inside by (coords; lra).
    apply Point_magnitude_gt; [lra|]. coords. lra. }
  assert (H2 : 5 < point_segment_dis example_v0 example_v2 origin).
  { rewrite point_segment_dis_inside by (coords; lra).
    apply Point_magnitude_gt; [lra|]. coords. lra. }
  rewrite H3. unfold Rmin.
  destruct (Rle_dec _ 5), (Rle_dec _ _); lra.
Qed.

Lemma example_non_degenerate :
  non_degenerate example_v0 example_v1 example_v2.
Proof.
  unfold non_degenerate. rewrite example_centre. repeat split.
  - coords. intros [=]. lra.
  - coords. intros [=]. lra.
  - rewrite (normalized_eq (Point_sub example_v0 origin) 10 (mkPoint 1 0 0))
      by (coords; lra).
    rewrite (normalized_eq (Point_sub example_v1 origin) 13
               (mkPoint (-5 / 13) (12 / 13) 0)) by (coords; lra).
    coords. intros [=]. lra.
Qed.

Lemma example_triangle_built :
  TriangleTensor.init [example_v0; example_v1; example_v2] identity_pose
  = Ok example_triangle.
Proof.
  unfold TriangleTensor.init.
  rewrite get_tensor_matrix_three by exact example_non_degenerate.
  rewrite example_normal, example_radial, example_tangent, example_radius,
    example_centre.
  step. rewrite Tensor_init_columns. step. unfold example_triangle.
  cbn [identity_pose rotate pose_R pose_map Point_mul x y z].
  replace (0 * 5) with 0 by lra. replace (1 * 5) with 5 by lra.
  replace (-1 * 5) with (-5) by lra. reflexivity.
Qed.

Lemma example_vertex_edge_radius :
  5 < vertex_edge_radius example_v0 example_v1 example_v2.
Proof.
  unfold vertex_edge_radius.
  assert (H1 : 5 < point_segment_dis example_v1 example_v2 example_v0).
  { rewrite point_segment_dis_inside by (coords; lra).
    apply Point_magnitude_gt; [lra|]. coords. lra. }
  assert (H2 : 5 < point_segment_dis example_v0 example_v2 example_v1).
  { rewrite point_segment_dis_inside by (coords; lra).
    apply Point_magnitude_gt; [lra|]. coords. lra. }
  assert (H3 : 5 < point_segment_dis example_v0 example_v1 example_v2).
  { rewrite point_segment_dis_inside by (coords; lra).
    apply Point_magnitude_gt; [lra|]. coords. lra. }
  unfold Rmin. destruct (Rle_dec _ _), (Rle_dec _ _); lra.
Qed.

Lemma example_triangle_3x3 : is_3x3 (TriangleTensor.tensor example_triangle).
Proof. split; reflexivity. Qed.

Lemma example_triangle_columns :
  nonzero_columns (TriangleTensor.tensor example_triangle).
Proof. repeat split; unfold col, elem; cbn; intros [=]; lra. Qed.

Lemma TriangleTensor_basis_columns_witness :
  ∃ t : TriangleTensor.t,
    TriangleTensor.init [example_v0; example_v1; example_v2] identity_pose
      = Ok t ∧
    col (TriangleTensor.tensor t) 1
      = Point_mul (tri_radial example_v0 example_v1 example_v2)
          (tri_radius example_v0 example_v1 example_v2).
Proof.
  destruct (TriangleTensor_basis_columns identity_pose example_v0 example_v1
              example_v2 example_non_degenerate)
    as (t & Hinit & _ & _ & Hcol & _).
  exists t. split; [exact Hinit|exact Hcol].
Defined.

(** C3, as stated, fails on the example triangle: the first column has
    length 5, the least centroid-to-edge distance, while every
    vertex-to-opposite-edge distance exceeds 5; and the second column
    points from the centroid to the first vertex, along none of the
    edges. *)
Lemma TriangleTensor_basis_not_vertex_edge_scaled :
  TriangleTensor.init [example_v0; example_v1; example_v2] identity_pose
    = Ok example_triangle ∧
  ¬ vertex_edge_basis identity_pose example_v0 example_v1 example_v2
      (TriangleTensor.tensor example_triangle) ∧
  col (TriangleTensor.tensor example_triangle) 0 = mkPoint 0 0 5 ∧
  5 < vertex_edge_radius example_v0 example_v1 example_v2 ∧
  col (TriangleTensor.tensor example_triangle) 1 = mkPoint 5 0 0 ∧
  ¬ parallel (mkPoint 5 0 0) (Point_sub example_v1 example_v0) ∧
  ¬ parallel (mkPoint 5 0 0) (Point_sub example_v2 example_v0) ∧
  ¬ parallel (mkPoint 5 0 0) (Point_sub example_v2 example_v1).
Proof.
  split; [exact example_triangle_built|]. split.
  { intros (n & e & w & Hn & _ & _ & _ & _ & _ & _ & _ & Hc0 & _ & _).
    pose proof example_vertex_edge_radius as Hr.
    set (r := vertex_edge_radius _ _ _) in *.
    apply unit_vector_dot_self in Hn.
    unfold col, elem in Hc0. cbn in Hc0.
    injection Hc0 as Hx Hy Hz. unfold Point_dot in Hn.
    assert (x n = 0) by nra. assert (y n = 0) by nra. nra. }
  split; [reflexivity|]. split; [exact example_vertex_edge_radius|].
  split; [reflexivity|].
  unfold parallel. repeat split; coords; intros [=]; lra.
Qed.

(** ** Camera construction and the shared defaults *)

Lemma update_fold_union (d task_params : dict) :
  map_fold (λ param value acc, <[param := value]> acc) d task_params
  = task_params ∪ d.
Proof.
  apply (map_fold_weak_ind (λ r m, r = m ∪ d)).
  - symmetry. apply (left_id_L ∅ (∪)).
  - intros i v m r _ ->. apply insert_union_l.
Qed.

Lemma init_store gen (σ : store) (d task_params params : dict) cam_pose :
  σ !! CameraTensor.defaults = Some d →
  (CameraTensor.init gen σ task_params params cam_pose).1
  = <[CameraTensor.defaults := task_params ∪ d]> σ.
Proof.
  intros Hd. unfold CameraTensor.init, CameraTensor.update_params.
  rewrite Hd, update_fold_union. reflexivity.
Qed.

Lemma init_task_params gen (σ : store) (task_params params : dict) cam_pose
    cam :
  (CameraTensor.init gen σ task_params params cam_pose).2 = Ok cam →
  CameraTensor.task_params cam = CameraTensor.defaults.
Proof.
  unfold CameraTensor.init.
  destruct (CameraTensor.update_params _ _ _) as [σ'|]; cbn [snd];
    [|discriminate].
  destruct (σ' !! CameraTensor.defaults) as [d|]; cbn; [|discriminate].
  destruct (CameraTensor._get_tensor_matrix _ _ _ _) as [[m c]|]; cbn;
    [|discriminate].
  destruct (Tensor_init m); cbn; [|discriminate].
  intros [= <-]. reflexivity.
Qed.

Lemma init_many_keeps gen (σ : store) (d : dict) calls key (v : pyval) :
  σ !! CameraTensor.defaults = Some d → d !! key = Some v →
  Forall (λ call, call.1.1 !! key = None) calls →
  ∃ d', init_many gen σ calls !! CameraTensor.defaults = Some d' ∧
        d' !! key = Some v.
Proof.
  revert σ d. induction calls as [|[[tp params] cam_pose] rest IH];
    intros σ d Hd Hk Hall.
  - exists d. auto.
  - inversion Hall as [|? ? Hcall Hrest]; subst. cbn in Hcall.
    cbn [init_many foldl]. fold (init_many gen).
    rewrite (init_store gen σ d) by exact Hd.
    apply (IH _ (tp ∪ d)).
    + apply lookup_insert_eq.
    + rewrite lookup_union_r by exact Hcall. exact Hk.
    + exact Hrest.
Qed.

(** C9.  The constructor does not copy the defaults.  It binds
    [task_params] to the class-level dictionary object and stores the
    caller's entries into that object.  After constructing a camera whose
    task parameters set [key] to [v], a camera constructed later without
    [key], with any number of constructions without [key] in between,
    refers to the same dictionary and reads [v] for [key], not the
    documented default. *)
Theorem CameraTensor_init_shares_defaults
    (gen_frustum_hull : dict → dict → list Point) (σ : store) (d : dict)
    (task_params1 params1 : dict) (pose1 : Pose)
    (between : list (dict * dict * Pose))
    (task_params2 params2 : dict) (pose2 : Pose)
    (key : string) (v : pyval) :
  σ !! CameraTensor.defaults = Some d →
  task_params1 !! key = Some v →
  Forall (λ call, call.1.1 !! key = None) between →
  task_params2 !! key = None →
  let first :=
    CameraTensor.init gen_frustum_hull σ task_params1 params1 pose1 in
  let later :=
    CameraTensor.init gen_frustum_hull
      (init_many gen_frustum_hull first.1 between)
      task_params2 params2 pose2 in
  first.1 !! CameraTensor.defaults = Some (task_params1 ∪ d) ∧
  (∀ cam1, first.2 = Ok cam1 →
     CameraTensor.task_params cam1 = CameraTensor.defaults) ∧
  (∀ cam2, later.2 = Ok cam2 →
     CameraTensor.task_params cam2 = CameraTensor.defaults ∧
     CameraTensor.read_task_param later.1 cam2 key = Some v ∧
     (∀ documented, d !! key = Some documented → documented ≠ v →
        CameraTensor.read_task_param later.1 cam2 key ≠ Some documented)).
Proof.
  intros Hd H1 Hbetween H2 first later.
  assert (Hfirst : first.1 = <[CameraTensor.defaults := task_params1 ∪ d]> σ)
    by (apply init_store; exact Hd).
  split; [rewrite Hfirst; apply lookup_insert_eq|].
  split; [intros cam1; apply init_task_params|].
  intros cam2 Hcam2.
  pose proof (init_task_params _ _ _ _ _ _ Hcam2) as Halias.
  destruct (init_many_keeps gen_frustum_hull first.1 (task_params1 ∪ d)
              between key v) as (d' & Hd' & Hk').
  { rewrite Hfirst. apply lookup_insert_eq. }
  { apply lookup_union_Some_l. exact H1. }
  { exact Hbetween. }
  assert (Hread : CameraTensor.read_task_param later.1 cam2 key = Some v).
  { unfold CameraTensor.read_task_param. rewrite Halias. subst later.
    rewrite (init_store _ _ d') by exact Hd'.
    rewrite lookup_insert_eq. cbn. rewrite lookup_union_r by exact H2.
    exact Hk'. }
  split; [exact Halias|]. split; [exact Hread|].
  intros documented _ Hne. rewrite Hread. congruence.
Qed.

(** Every camera tensor the constructor builds is 3x3. *)
Lemma CameraTensor_init_3x3 (gen_frustum_hull : dict → dict → list Point)
    (σ : store) (task_params params : dict) (cam_pose : Pose)
    (cam : CameraTensor.t) :
  (CameraTensor.init gen_frustum_hull σ task_params params cam_pose).2
    = Ok cam →
  is_3x3 (CameraTensor.tensor cam).
Proof.
  unfold CameraTensor.init.
  destruct (CameraTensor.update_params _ _ _) as [σ'|]; cbn [fst snd];
    [|discriminate].
  destruct (σ' !! CameraTensor.defaults) as [d|]; cbn [from_option];
    [|discriminate].
  step. unfold CameraTensor._get_tensor_matrix.
  destruct (bool_decide _); [discriminate|].
  intros H. repeat bind_inv H. injection H as <-.
  match goal with
  | E : Tensor_init _ = Ok _ |- _ =>
      rewrite Tensor_init_columns in E; injection E as <-
  end.
  apply columns_tensor_3x3.
Qed.

(** Every triangle tensor the constructor builds is 3x3. *)
Lemma TriangleTensor_init_3x3 (vertices : list Point) (tri_pose : Pose)
    (tri : TriangleTensor.t) :
  TriangleTensor.init vertices tri_pose = Ok tri →
  is_3x3 (TriangleTensor.tensor tri).
Proof.
  unfold TriangleTensor.init, TriangleTensor._get_tensor_matrix.
  intros H. repeat bind_inv H. injection H as <-.
  match goal with
  | E : Tensor_init _ = Ok _ |- _ =>
      rewrite Tensor_init_columns in E; injection E as <-
  end.
  apply columns_tensor_3x3.
Qed.

(** Every camera the constructor builds has as [axis] the first basis
    vector of its own frame rotated by its pose. *)
Lemma CameraTensor_axis_of_built
    (gen_frustum_hull : dict → dict → list Point) (σ : store)
    (task_params params : dict) (cam_pose : Pose)
    (cam : CameraTensor.t) :
  (CameraTensor.init gen_frustum_hull σ task_params params cam_pose).2
    = Ok cam →
  ∃ (d : dict) (first_axis : Point),
    (CameraTensor.init gen_frustum_hull σ task_params params cam_pose).1
      !! CameraTensor.defaults = Some d ∧
    local_first_axis (gen_frustum_hull d (CameraTensor.init_params params))
      = Ok first_axis ∧
    CameraTensor.axis cam = Ok (rotate (pose_R cam_pose) first_axis).
Proof.
  unfold CameraTensor.init.
  destruct (CameraTensor.update_params _ _ _) as [σ'|]; cbn [fst snd];
    [|discriminate].
  destruct (σ' !! CameraTensor.defaults) as [d|]; cbn [from_option];
    [|discriminate].
  step. unfold CameraTensor._get_tensor_matrix.
  destruct (bool_decide _); [discriminate|].
  intros H. repeat bind_inv H. injection H as <-.
  match goal with
  | E : Tensor_init _ = Ok _ |- _ =>
      rewrite Tensor_init_columns in E; injection E as <-
  end.
  eexists d, _. split; [reflexivity|].
  unfold local_first_axis.
  split; [repeat match goal with E : _ = Ok _ |- _ => rewrite E end;
          reflexivity|].
  unfold CameraTensor.axis. cbn [CameraTensor.tensor].
  rewrite column_0 by apply columns_tensor_3x3.
  f_equal. apply columns_tensor_col.
Qed.

(** *** The example camera *)

Ltac avg_points_concrete c :=
  match goal with
  | |- context [avg_points ?ps ≫= _] =>
      rewrite (avg_points_eq ps c)
        by (first [discriminate
                  | cbn [foldr length INR Point_add origin x y z]; lra])
  end.

Lemma example_local_first_axis :
  local_first_axis example_hull = Ok (mkPoint 0 0 1).
Proof.
  unfold local_first_axis, example_hull.
  avg_points_concrete (mkPoint 0 0 2). step. cbn [drop].
  avg_points_concrete (mkPoint 0 0 3). step.
  f_equal. apply Point_eq; cbn [Point_sub x y z]; lra.
Qed.

Lemma example_camera_tilted_built_in (σ : store) (d task_params : dict) :
  σ !! CameraTensor.defaults = Some d →
  CameraTensor.init (λ _ _, example_hull) σ task_params ∅ tilted_pose
  = (<[CameraTensor.defaults := task_params ∪ d]> σ,
     Ok example_camera_tilted).
Proof.
  intros Hd. unfold CameraTensor.init, CameraTensor.update_params.
  rewrite Hd, update_fold_union, lookup_insert_eq. f_equal.
  cbn [from_option]. step.
  unfold CameraTensor._get_tensor_matrix, example_hull.
  rewrite bool_decide_eq_false_2 by discriminate.
  avg_points_concrete (mkPoint 0 0 2). step. cbn [drop].
  avg_points_concrete (mkPoint 0 0 3). step.
  cbn [list_getitem nth_error]. step.
  avg_points_concrete (mkPoint 0 2 2). step.
  avg_points_concrete (mkPoint (-2) 0 2). step.
  rewrite Tensor_init_columns. step.
  unfold example_camera_tilted, CameraTensor.init_params.
  rewrite map_imap_empty.
  cbn [tilted_pose rotate pose_R pose_map Point_sub x y z].
  repeat f_equal; lra.
Qed.

Lemma example_camera_tilted_built :
  CameraTensor.init (λ _ _, example_hull) initial_store ∅ ∅ tilted_pose
  = (initial_store, Ok example_camera_tilted).
Proof.
  rewrite (example_camera_tilted_built_in _ CameraTensor.documented_defaults)
    by apply lookup_singleton_eq.
  unfold initial_store.
  rewrite (left_id_L ∅ (∪)), insert_singleton_eq. reflexivity.
Qed.

Lemma example_camera_3x3 :
  is_3x3 (CameraTensor.tensor example_camera_tilted).
Proof. split; reflexivity. Qed.

Lemma example_camera_columns :
  nonzero_columns (CameraTensor.tensor example_camera_tilted).
Proof. repeat split; unfold col, elem; cbn; intros [=]; lra. Qed.

Lemma CameraTensor_init_shares_defaults_witness :
  let first :=
    CameraTensor.init (λ _ _, example_hull) initial_store
      {["ocular" := VInt 2]} ∅ tilted_pose in
  let later :=
    CameraTensor.init (λ _ _, example_hull) first.1 ∅ ∅ tilted_pose in
  CameraTensor.documented_defaults !! "ocular" = Some (VInt 1) ∧
  later.2 = Ok example_camera_tilted ∧
  CameraTensor.read_task_param later.1 example_camera_tilted "ocular"
  = Some (VInt 2).
Proof.
  intros first later.
  split; [reflexivity|].
  assert (Hfirst : first.1 !! CameraTensor.defaults
                   = Some ({["ocular" := VInt 2]}
                           ∪ CameraTensor.documented_defaults)).
  { unfold first.
    rewrite (example_camera_tilted_built_in _ CameraTensor.documented_defaults)
      by apply lookup_singleton_eq.
    apply lookup_insert_eq. }
  assert (Hlater : later.2 = Ok example_camera_tilted).
  { unfold later. rewrite (example_camera_tilted_built_in _ _ _ Hfirst).
    reflexivity. }
  split; [exact Hlater|].
  apply (CameraTensor_init_shares_defaults (λ _ _, example_hull)
           initial_store CameraTensor.documented_defaults
           {["ocular" := VInt 2]} ∅ tilted_pose [] ∅ ∅ tilted_pose
           "ocular" (VInt 2)).
  - apply lookup_singleton_eq.
  - apply lookup_singleton_eq.
  - apply Forall_nil_2.
  - apply lookup_empty.
  - exact Hlater.
Defined.

(** C4 at the failing input.  The camera built from [example_hull] under
    [tilted_pose] has the first basis vector (0, 0, 1) in its own frame;
    its [axis] property returns (0, -1, 0), that vector rotated by the
    pose. *)
Lemma CameraTensor_axis_is_world_rotated :
  (CameraTensor.init (λ _ _, example_hull) initial_store ∅ ∅ tilted_pose).2
    = Ok example_camera_tilted ∧
  local_first_axis example_hull = Ok (mkPoint 0 0 1) ∧
  CameraTensor.axis example_camera_tilted = Ok (mkPoint 0 (-1) 0) ∧
  CameraTensor.axis example_camera_tilted
    = Ok (rotate (pose_R tilted_pose) (mkPoint 0 0 1)) ∧
  CameraTensor.axis example_camera_tilted ≠ local_first_axis example_hull.
Proof.
  split; [rewrite example_camera_tilted_built; reflexivity|].
  split; [exact example_local_first_axis|].
  assert (Haxis : CameraTensor.axis example_camera_tilted
                  = Ok (mkPoint 0 (-1) 0)) by reflexivity.
  split; [exact Haxis|]. split.
  - rewrite Haxis. f_equal; apply Point_eq; cbn; lra.
  - rewrite Haxis, example_local_first_axis. intros [=]. lra.
Qed.

(** ** Camera strength *)

Lemma schatten_3x3 t : is_3x3 t → schatten t = Ok (schatten_norm t).
Proof.
  intros H. unfold schatten. rewrite column_0, column_1, column_2 by assumption.
  reflexivity.
Qed.

Lemma schatten_norm_sqr t :
  schatten_norm t ^ 2 =
  Point_magnitude (col t 0) ^ 2 + Point_magnitude (col t 1) ^ 2
  + Point_magnitude (col t 2) ^ 2.
Proof.
  unfold schatten_norm. simpl. rewrite !Rmult_1_r. apply sqrt_sqrt.
  pose proof (Point_magnitude_nonneg (col t 0)).
  pose proof (Point_magnitude_nonneg (col t 1)).
  pose proof (Point_magnitude_nonneg (col t 2)). nra.
Qed.

Lemma schatten_norm_pos t : col t 0 ≠ origin → 0 < schatten_norm t ^ 2.
Proof.
  intros H0. rewrite schatten_norm_sqr.
  pose proof (Point_magnitude_nonzero _ H0).
  pose proof (Point_magnitude_nonneg (col t 0)).
  pose proof (Point_magnitude_nonneg (col t 1)).
  pose proof (Point_magnitude_nonneg (col t 2)). nra.
Qed.

Lemma schatten_norm_nonzero t : col t 0 ≠ origin → schatten_norm t ≠ 0.
Proof.
  intros H Hz. pose proof (schatten_norm_pos t H) as Hpos.
  rewrite Hz in Hpos. simpl in Hpos. lra.
Qed.

Lemma schatten_nonneg t s : schatten t = Ok s → 0 <= s.
Proof.
  unfold schatten. destruct (column t 0); [|discriminate].
  destruct (column t 1); [|discriminate].
  destruct (column t 2); [|discriminate]. step.
  intros [= <-]. apply sqrt_pos.
Qed.

Lemma CameraTensor_strength_ok cam tri :
  is_3x3 (CameraTensor.tensor cam) → is_3x3 (TriangleTensor.tensor tri) →
  col (CameraTensor.tensor cam) 0 ≠ origin →
  col (TriangleTensor.tensor tri) 0 ≠ origin →
  CameraTensor.strength cam tri = Ok (strength_value cam tri).
Proof.
  intros Hc Ht Hca Hta. unfold CameraTensor.strength, CameraTensor.axis,
    TriangleTensor.axis.
  rewrite !column_0 by assumption. step.
  rewrite !Point_unit_ok by (apply Point_magnitude_nonzero; assumption). step.
  rewrite schatten_3x3 by assumption. step.
  rewrite (pydiv_ok _ (schatten_norm _ ^ 2))
    by (pose proof (schatten_norm_pos _ Hca); intros ?; lra).
  step. rewrite (pydiv_ok _ (sqrt 2)) by (pose proof sqrt_2_pos; intros ?; lra).
  step.
  rewrite !floor_at_zero_max. reflexivity.
Qed.

Lemma strength_value_range cam tri :
  col (CameraTensor.tensor cam) 0 ≠ origin →
  0 <= strength_value cam tri <= 1.
Proof.
  intros Hca. unfold strength_value. apply sqrt_unit_interval.
  - apply Rmax_floor_unit. apply div_nonneg; [apply Point_magnitude_nonneg|].
    apply schatten_norm_pos. assumption.
  - apply Rmax_floor_unit. apply div_nonneg; [apply Point_magnitude_nonneg|].
    apply sqrt_2_pos.
Qed.

(** C2.  For a camera tensor with non-zero Schatten norm and non-zero first
    column and a triangle tensor with non-zero first column,
    [CameraTensor.strength] returns
    [sqrt (max(0, re) * max(0, rr))] with
    [re = 1 - euclidean(centre, triangle.centre) / schatten()^2] and
    [rr = 1 - euclidean(axis.unit(), -triangle.axis.unit()) / sqrt 2];
    the value lies in [0, 1] and is 0 when either floored factor is 0. *)
Theorem CameraTensor_strength_formula_and_range
    (cam : CameraTensor.t) (tri : TriangleTensor.t) :
  is_3x3 (CameraTensor.tensor cam) → is_3x3 (TriangleTensor.tensor tri) →
  schatten_norm (CameraTensor.tensor cam) ≠ 0 →
  col (CameraTensor.tensor cam) 0 ≠ origin →
  col (TriangleTensor.tensor tri) 0 ≠ origin →
  let re := 1 - Point_euclidean (CameraTensor.centre cam)
                  (TriangleTensor.centre tri)
                / schatten_norm (CameraTensor.tensor cam) ^ 2 in
  let rr := 1 - Point_euclidean
                  (normalized (col (CameraTensor.tensor cam) 0))
                  (Point_neg (normalized (col (TriangleTensor.tensor tri) 0)))
                / sqrt 2 in
  ∃ s : R,
    CameraTensor.strength cam tri = Ok s ∧
    s = sqrt (Rmax 0 re * Rmax 0 rr) ∧
    0 <= s <= 1 ∧
    (Rmax 0 re = 0 ∨ Rmax 0 rr = 0 → s = 0).
Proof.
  intros Hc Ht _ Hca Hta re rr. exists (strength_value cam tri).
  split; [apply CameraTensor_strength_ok; assumption|].
  split; [reflexivity|].
  split; [apply strength_value_range; assumption|].
  unfold strength_value. fold re rr. intros [-> | ->].
  - rewrite Rmult_0_l. apply sqrt_0.
  - rewrite Rmult_0_r. apply sqrt_0.
Qed.

Lemma CameraTensor_strength_formula_and_range_witness :
  ∃ s : R,
    CameraTensor.strength example_camera_tilted example_triangle = Ok s ∧
    0 <= s <= 1.
Proof.
  destruct (CameraTensor_strength_formula_and_range example_camera_tilted
              example_triangle example_camera_3x3 example_triangle_3x3
              (schatten_norm_nonzero _ (proj1 example_camera_columns))
              (proj1 example_camera_columns)
              (proj1 example_triangle_columns))
    as (s & Hs & _ & Hrange & _).
  exists s. split; [exact Hs|exact Hrange].
Defined.

(** Whenever [CameraTensor.strength] returns, the value is in [0, 1]. *)
Lemma CameraTensor_strength_range cam tri s :
  CameraTensor.strength cam tri = Ok s → 0 <= s <= 1.
Proof.
  unfold CameraTensor.strength. intros H.
  do 5 bind_inv H. bind_inv H. bind_inv H.
  injection H as <-.
  match goal with E : schatten _ = Ok _ |- _ => apply schatten_nonneg in E end.
  repeat match goal with E : pydiv _ _ = Ok _ |- _ =>
    apply pydiv_inv in E; destruct E as [? ->] end.
  rewrite !floor_at_zero_max. apply sqrt_unit_interval.
  - apply Rmax_floor_unit, div_nonneg; [apply Point_magnitude_nonneg|nra].
  - apply Rmax_floor_unit, div_nonneg; [apply Point_magnitude_nonneg|].
    apply sqrt_2_pos.
Qed.

(** ** Vision distance *)

Lemma Tensor_unit_3x3 t :
  is_3x3 t → nonzero_columns t → Tensor_unit t = Ok (unit_tensor_of t).
Proof.
  intros H3 (H0 & H1 & H2). unfold Tensor_unit.
  rewrite column_0, column_1, column_2 by assumption. step.
  rewrite !Point_unit_ok by (apply Point_magnitude_nonzero; assumption). step.
  apply Tensor_init_columns.
Qed.

Lemma frobenius_of_units t o :
  (nv ← Tensor_neg (unit_tensor_of o); frobenius (unit_tensor_of t) nv)
  = Ok (unit_frobenius t o).
Proof.
  unfold unit_tensor_of. rewrite Tensor_neg_3x3. step. rewrite frobenius_3x3.
  unfold unit_frobenius. rewrite !Point_euclidean_sqr. cbn [Point_neg x y z].
  do 2 f_equal. ring.
Qed.

Lemma vision_distance_3x3 `{TensorLike A} (self : CameraTensor.t) (other : A) :
  is_3x3 (CameraTensor.tensor self) → is_3x3 (tensor_of other) →
  nonzero_columns (CameraTensor.tensor self) →
  nonzero_columns (tensor_of other) →
  CameraTensor.vision_distance self other
  = match pydiv 1 (1 - unit_frobenius (CameraTensor.tensor self)
                         (tensor_of other) / sqrt 8) with
    | Ok r =>
        Ok (r * (Point_euclidean (CameraTensor.centre self) (centre_of other)
                 + 1e-4))
    | Raise _ => Ok (-1)
    end.
Proof.
  intros Hs Ho Hsn Hon. unfold CameraTensor.vision_distance.
  rewrite !Tensor_unit_3x3 by assumption. step.
  pose proof (frobenius_of_units (CameraTensor.tensor self) (tensor_of other))
    as Hf.
  destruct (Tensor_neg _) as [nv|]; [|discriminate Hf]. step. step in Hf.
  rewrite Hf. step.
  rewrite (pydiv_ok _ (sqrt 8)) by (pose proof sqrt_8_pos; intros ?; lra).
  step. unfold pydiv at 1 2. destruct (Req_dec_T _ 0); reflexivity.
Qed.

(** C5.  For 3x3 tensors with non-zero columns, [vision_distance] returns
    [(1 / (1 - frob / sqrt 8)) * (euc + 1e-4)], with [euc] the Euclidean
    distance between the two centres and [frob] the Frobenius distance
    between this tensor's unit-normalised basis and the negation of the
    other's; when the denominator [1 - frob / sqrt 8] is zero it returns
    -1 instead of raising. *)
Theorem CameraTensor_vision_distance_formula `{TensorLike A}
    (self : CameraTensor.t) (other : A) :
  is_3x3 (CameraTensor.tensor self) → is_3x3 (tensor_of other) →
  nonzero_columns (CameraTensor.tensor self) →
  nonzero_columns (tensor_of other) →
  let euc := Point_euclidean (CameraTensor.centre self) (centre_of other) in
  let frob := unit_frobenius (CameraTensor.tensor self) (tensor_of other) in
  (1 - frob / sqrt 8 ≠ 0 →
     CameraTensor.vision_distance self other
     = Ok (1 / (1 - frob / sqrt 8) * (euc + 1e-4))) ∧
  (1 - frob / sqrt 8 = 0 →
     CameraTensor.vision_distance self other = Ok (-1)).
Proof.
  intros Hs Ho Hsn Hon euc frob.
  rewrite vision_distance_3x3 by assumption. fold frob euc. split; intros Hd.
  - rewrite pydiv_ok by exact Hd. reflexivity.
  - rewrite Hd, pydiv_zero. reflexivity.
Qed.

Lemma unit_frobenius_self t : nonzero_columns t → unit_frobenius t t = sqrt 8.
Proof.
  intros (H0 & H1 & H2). unfold unit_frobenius.
  rewrite !Point_euclidean_neg_self
    by (apply unit_vector_normalized; assumption).
  rewrite Point_euclidean_self. f_equal. lra.
Qed.

Lemma CameraTensor_vision_distance_formula_witness :
  CameraTensor.vision_distance example_camera_tilted example_camera_tilted
  = Ok (-1).
Proof.
  apply (@CameraTensor_vision_distance_formula CameraTensor.t
           CameraTensor.tensor_like example_camera_tilted
           example_camera_tilted example_camera_3x3 example_camera_3x3
           example_camera_columns example_camera_columns).
  cbn [tensor_of CameraTensor.tensor_like].
  rewrite (unit_frobenius_self _ example_camera_columns).
  pose proof sqrt_8_pos. field. lra.
Defined.

(** ** Aggregation of strengths over views *)

Section AggregationFacts.

Import Aggregation.

Variable cam_strength : string → R.
Variable cam_occluded : string → bool.

Lemma view_min_from_real view r :
  ∃ r', view_min cam_strength view (Fin r) = Fin r' ∧ r' <= r ∧
        (∀ camera, In camera view → r' <= cam_strength camera) ∧
        (r' = r ∨ ∃ camera, In camera view ∧ r' = cam_strength camera).
Proof.
  revert r. induction view as [|c rest IH]; intros r.
  - exists r. simpl. repeat split; [lra| |auto]. intros ? [].
  - cbn [view_min fold_left]. unfold pyfloat_min. cbn [pyfloat_ltb].
    destruct (Rltb (cam_strength c) r) eqn:E.
    + apply Rltb_true in E.
      destruct (IH (cam_strength c)) as (r' & Hv & Hle & Hall & Hex).
      exists r'. split; [exact Hv|]. split; [lra|]. split.
      * intros camera [<- | Hin]; [lra|auto].
      * right. destruct Hex as [-> | (c' & Hin & ->)].
        -- exists c. split; [apply in_eq|reflexivity].
        -- exists c'. split; [apply in_cons; assumption|reflexivity].
    + apply Rltb_false in E. destruct (IH r) as (r' & Hv & Hle & Hall & Hex).
      exists r'. split; [exact Hv|]. split; [lra|]. split.
      * intros camera [<- | Hin]; [lra|auto].
      * destruct Hex as [-> | (c' & Hin & ->)]; [left; reflexivity|].
        right. exists c'. split; [apply in_cons; assumption|reflexivity].
Qed.

(** Without a camera that forces 0, the value of a non-empty view is the
    least of its cameras' strengths, and that of the empty view is
    [+inf]. *)
Lemma view_min_is_minimum view :
  match view with
  | [] => view_min cam_strength view PInf = PInf
  | _ :: _ =>
      ∃ camera, In camera view ∧
        view_min cam_strength view PInf = Fin (cam_strength camera) ∧
        ∀ camera', In camera' view →
          cam_strength camera <= cam_strength camera'
  end.
Proof.
  destruct view as [|c rest]; [reflexivity|].
  cbn [view_min fold_left]. unfold pyfloat_min. cbn [pyfloat_ltb].
  destruct (view_min_from_real rest (cam_strength c))
    as (r' & Hv & Hle & Hall & Hex).
  destruct Hex as [-> | (c' & Hin & ->)].
  - exists c. split; [apply in_eq|]. split; [exact Hv|].
    intros camera' [<- | Hin]; [lra|auto].
  - exists c'. split; [apply in_cons; assumption|]. split; [exact Hv|].
    intros camera' [<- | Hin']; [lra|auto].
Qed.

Lemma view_value_real_or_inf view :
  real_or_inf (view_value cam_strength cam_occluded view).
Proof.
  unfold view_value. destruct (existsb _ _); [exact I|].
  pose proof (view_min_is_minimum view) as H. destruct view.
  - rewrite H. exact I.
  - destruct H as (c & _ & -> & _). exact I.
Qed.

Lemma pymax_real_or_inf a b :
  real_or_inf a → real_or_inf b → real_or_inf (pymax a b).
Proof. unfold pymax. destruct (pyfloat_ltb a b); auto. Qed.

Lemma pymax_upper a b :
  real_or_inf a → real_or_inf b →
  pyfloat_leb a (pymax a b) = true ∧ pyfloat_leb b (pymax a b) = true.
Proof.
  unfold pymax.
  destruct a as [r| | |], b as [s| | |]; try contradiction; intros _ _;
    cbn [pyfloat_ltb pyfloat_leb]; try (split; reflexivity).
  destruct (Rltb r s) eqn:E; cbn [pyfloat_leb]; rewrite !Rleb_true.
  - apply Rltb_true in E. lra.
  - apply Rltb_false in E. lra.
Qed.

Lemma pyfloat_leb_trans a b c :
  pyfloat_leb a b = true → pyfloat_leb b c = true → pyfloat_leb a c = true.
Proof.
  destruct a as [r| | |], b as [s| | |], c as [u| | |]; cbn [pyfloat_leb];
    try discriminate; try reflexivity.
  rewrite !Rleb_true. lra.
Qed.

(** The accumulated maximum bounds the accumulator and every value from
    above and is one of them. *)
Lemma fold_pymax_is_maximum (values : list pyfloat) (acc : pyfloat) :
  real_or_inf acc → Forall real_or_inf values →
  let m := fold_left pymax values acc in
  real_or_inf m ∧
  pyfloat_leb acc m = true ∧
  (∀ v, In v values → pyfloat_leb v m = true) ∧
  (m = acc ∨ In m values).
Proof.
  revert acc. induction values as [|v rest IH]; intros acc Hacc Hall; cbn zeta.
  - simpl. split; [assumption|].
    split; [|split; [intros ? []|left; reflexivity]].
    destruct acc; try contradiction; cbn; [apply Rleb_true; lra|reflexivity].
  - inversion Hall as [|? ? Hv Hrest]; subst. cbn [fold_left].
    destruct (pymax_upper acc v Hacc Hv) as [Ha Hb].
    destruct (IH (pymax acc v) (pymax_real_or_inf _ _ Hacc Hv) Hrest)
      as (Hm & Hle & Hin & Hex).
    split; [exact Hm|]. split; [eapply pyfloat_leb_trans; eassumption|]. split.
    + intros u [<- | Hu]; [eapply pyfloat_leb_trans; eassumption|auto].
    + destruct Hex as [-> | Hex]; [|right; apply in_cons; assumption].
      unfold pymax.
      destruct (pyfloat_ltb acc v); [right; apply in_eq|left; reflexivity].
Qed.

Lemma view_queries_occluded_nonzero view camera :
  In (QueryOccluded camera) (view_queries cam_strength cam_occluded view) →
  cam_strength camera ≠ 0.
Proof.
  induction view as [|c rest IH]; cbn [view_queries]; [intros []|].
  intros [Hq | Hin]; [discriminate|].
  destruct (Reqb (cam_strength c) 0) eqn:E; [destruct Hin|].
  destruct Hin as [[= ->] | Hin]; [apply Reqb_false; exact E|].
  destruct (cam_occluded c); [destruct Hin|auto].
Qed.

(** The evaluated views are a prefix of the enumeration. *)
Lemma evaluated_prefix vs acc :
  ∃ skipped, vs = evaluated cam_strength cam_occluded vs acc ++ skipped.
Proof.
  revert acc. induction vs as [|view rest IH]; intros acc.
  - exists []. reflexivity.
  - cbn [evaluated]. destruct (pyfloat_eqb _ _).
    + exists rest. reflexivity.
    + destruct (IH (pymax acc (view_value cam_strength cam_occluded view)))
        as [skipped Hs].
      exists skipped. cbn. f_equal. exact Hs.
Qed.

(** Once the accumulated maximum equals 1.0 at the end of a view, the
    views after it are not evaluated, whatever they are. *)
Lemma evaluated_stops_at_one before view after acc :
  fold_left pymax
    (view_value cam_strength cam_occluded <$> (before ++ [view])) acc
    = Fin 1 →
  evaluated cam_strength cam_occluded (before ++ view :: after) acc
  = evaluated cam_strength cam_occluded (before ++ [view]) acc.
Proof.
  revert acc. induction before as [|v rest IH]; intros acc Hone.
  - cbn in Hone. cbn [app evaluated]. rewrite Hone.
    replace (pyfloat_eqb (Fin 1) (Fin 1)) with true; [reflexivity|].
    symmetry. apply Reqb_true. reflexivity.
  - cbn [app evaluated]. destruct (pyfloat_eqb _ _); [reflexivity|].
    f_equal. apply IH. exact Hone.
Qed.

End AggregationFacts.

Section StrengthLoops.

Import Aggregation.

Context {occluder : Type}.
Variable cameras : gmap string CameraTensor.t.
Variable occluded : Point → string → list occluder → bool.
Variable triangle : TriangleTensor.t.
Variable triangle_set : list occluder.
Variable cam_strength : string → R.

Local Abbreviation occ := (occluded_from occluded triangle triangle_set).
Local Abbreviation outcome := (strength_outcome cameras triangle).

Lemma view_loop_spec view m tr :
  (∀ camera, In camera view → outcome camera = Ok (cam_strength camera)) →
  TensorModel.view_loop occluder cameras occluded triangle triangle_set
    view m tr
  = (Ok (if existsb (blocks cam_strength occ) view then Fin 0
         else view_min cam_strength view m),
     tr ++ view_queries cam_strength occ view).
Proof.
  revert m tr. induction view as [|camera rest IH]; intros m tr Hdef.
  - simpl. rewrite app_nil_r. reflexivity.
  - cbn [TensorModel.view_loop]. unfold mbind, traced_bind.
    unfold TensorModel.camera_strength, query.
    fold (outcome camera). rewrite (Hdef camera) by apply in_eq.
    cbn [existsb view_queries]. unfold blocks at 1.
    destruct (Reqb (cam_strength camera) 0) eqn:Ez.
    + reflexivity.
    + unfold TensorModel.camera_occluded, query. fold (occ camera).
      cbn [orb]. destruct (occ camera) eqn:Eo.
      * cbn. rewrite <- app_assoc. reflexivity.
      * cbn [orb view_min fold_left]. unfold pyfloat_min at 2.
        destruct (pyfloat_ltb (Fin (cam_strength camera)) m);
          rewrite IH by (intros; apply Hdef; apply in_cons; assumption);
          rewrite <- !app_assoc; reflexivity.
Qed.

Lemma views_loop_spec vs acc tr :
  strengths_defined cameras triangle cam_strength vs →
  TensorModel.views_loop occluder cameras occluded triangle triangle_set
    vs acc tr
  = (Ok (fold_left pymax
           (view_value cam_strength occ
              <$> evaluated cam_strength occ vs acc) acc),
     tr ++ concat (view_queries cam_strength occ
                     <$> evaluated cam_strength occ vs acc)).
Proof.
  revert acc tr. induction vs as [|view rest IH]; intros acc tr Hdef.
  - simpl. rewrite app_nil_r. reflexivity.
  - cbn [TensorModel.views_loop]. unfold mbind at 1, traced_bind at 1.
    rewrite view_loop_spec
      by (intros; eapply Hdef; [apply in_eq|assumption]).
    fold (view_value cam_strength occ view).
    cbn [evaluated].
    destruct (pyfloat_eqb _ _) eqn:E1.
    + cbn. rewrite app_nil_r. reflexivity.
    + rewrite IH
        by (intros v c Hv Hc; eapply Hdef; [apply in_cons, Hv|exact Hc]).
      cbn. rewrite <- app_assoc. reflexivity.
Qed.

End StrengthLoops.

Import Aggregation.

Lemma fold_evaluated_one (cam_strength : string → R)
    (cam_occluded : string → bool) vs acc :
  fold_left pymax (view_value cam_strength cam_occluded <$> vs) acc = Fin 1 →
  fold_left pymax
    (view_value cam_strength cam_occluded
       <$> evaluated cam_strength cam_occluded vs acc) acc = Fin 1.
Proof.
  revert acc. induction vs as [|view rest IH]; intros acc Hone; [exact Hone|].
  cbn [evaluated]. destruct (pyfloat_eqb _ _) eqn:E.
  - cbn. destruct (pymax acc _) as [r| | |]; cbn in E; try discriminate.
    apply Reqb_true in E. subst. reflexivity.
  - cbn. apply IH. exact Hone.
Qed.

Lemma evaluated_values_real_or_inf (cam_strength : string → R)
    (cam_occluded : string → bool) vs acc :
  Forall real_or_inf
    (view_value cam_strength cam_occluded
       <$> evaluated cam_strength cam_occluded vs acc).
Proof.
  apply List.Forall_forall. intros v Hv. apply in_map_iff in Hv.
  destruct Hv as (view & <- & _). apply view_value_real_or_inf.
Qed.

Lemma TensorModel_strength_run {occluder : Type}
    (cameras : gmap string CameraTensor.t)
    (views : option (gset string) → list (list string))
    (occluded : Point → string → list occluder → bool)
    (triangle : TriangleTensor.t) (triangle_set : list occluder)
    (subset : option (gset string)) (cam_strength : string → R) :
  strengths_defined cameras triangle cam_strength (views subset) →
  let occ := occluded_from occluded triangle triangle_set in
  let done := evaluated cam_strength occ (views subset) (Fin 0) in
  TensorModel.strength occluder cameras views occluded
    triangle triangle_set subset []
  = (Ok (fold_left pymax (view_value cam_strength occ <$> done) (Fin 0)),
     concat (view_queries cam_strength occ <$> done)).
Proof.
  intros Hdef occ done. unfold TensorModel.strength.
  rewrite (views_loop_spec _ _ _ _ cam_strength) by exact Hdef. reflexivity.
Qed.

Lemma CameraTensor_strength_range_of_outcome cameras triangle camera s :
  strength_outcome cameras triangle camera = Ok s → 0 <= s <= 1.
Proof.
  unfold strength_outcome. destruct (cameras !! camera) as [cam|]; cbn.
  - apply CameraTensor_strength_range.
  - discriminate.
Qed.

(** *** The maximum over all views *)

Section AllViews.

Import Aggregation.

Variable cam_strength : string → R.
Variable cam_occluded : string → bool.

Local Abbreviation value_of := (view_value cam_strength cam_occluded).

Lemma view_value_unit view :
  view ≠ [] → (∀ camera, In camera view → 0 <= cam_strength camera <= 1) →
  in_unit_interval (value_of view).
Proof.
  intros Hne Hrange. unfold view_value.
  destruct (existsb _ view); [cbn; lra|].
  pose proof (view_min_is_minimum cam_strength view) as Hmin.
  destruct view as [|c rest]; [contradiction|].
  destruct Hmin as (camera & Hc & -> & _). cbn. apply Hrange. exact Hc.
Qed.

Lemma pymax_unit a b :
  in_unit_interval a → in_unit_interval b → in_unit_interval (pymax a b).
Proof. unfold pymax. destruct (pyfloat_ltb a b); auto. Qed.

Lemma fold_pymax_from_one (values : list pyfloat) :
  Forall in_unit_interval values → fold_left pymax values (Fin 1) = Fin 1.
Proof.
  induction 1 as [|v rest Hv _ IH]; [reflexivity|].
  cbn [fold_left]. destruct v as [r| | |]; try contradiction.
  unfold pymax. cbn [pyfloat_ltb]. cbn in Hv.
  rewrite (proj2 (Rltb_false 1 r)) by lra. exact IH.
Qed.

Lemma fold_evaluated_all vs acc :
  Forall (λ view, in_unit_interval (value_of view)) vs →
  in_unit_interval acc →
  fold_left pymax (value_of <$> evaluated cam_strength cam_occluded vs acc)
    acc
  = fold_left pymax (value_of <$> vs) acc.
Proof.
  intros Hall. revert acc.
  induction Hall as [|view rest Hview Hrest IH]; intros acc Hacc;
    [reflexivity|].
  cbn [evaluated]. rewrite !fmap_cons. cbn [fold_left].
  pose proof (pymax_unit _ _ Hacc Hview) as Hacc'.
  destruct (pyfloat_eqb (pymax acc (value_of view)) (Fin 1)) eqn:E.
  - rewrite fmap_nil. cbn [fold_left].
    destruct (pymax acc (value_of view)) as [r| | |]; try contradiction.
    cbn [pyfloat_eqb] in E. apply Reqb_true in E. subst r.
    symmetry. apply fold_pymax_from_one.
    apply List.Forall_forall. intros v Hv.
    apply (proj1 (in_map_iff _ _ _)) in Hv as (view' & <- & Hin).
    exact (proj1 (List.Forall_forall _ _) Hrest view' Hin).
  - apply IH. exact Hacc'.
Qed.

Lemma pyfloat_leb_antisym a b :
  in_unit_interval a → in_unit_interval b →
  pyfloat_leb a b = true → pyfloat_leb b a = true → a = b.
Proof.
  destruct a as [r| | |], b as [s| | |]; try contradiction. intros _ _.
  cbn [pyfloat_leb]. rewrite !Rleb_true. intros. f_equal. lra.
Qed.

Lemma in_unit_real_or_inf a : in_unit_interval a → real_or_inf a.
Proof. destruct a; cbn; tauto. Qed.

Lemma fold_pymax_same_views vs1 vs2 :
  Forall (λ view, in_unit_interval (value_of view)) vs1 →
  same_views vs1 vs2 →
  fold_left pymax (value_of <$> vs1) (Fin 0)
  = fold_left pymax (value_of <$> vs2) (Fin 0).
Proof.
  intros Hall1 Hsame.
  assert (Hall2 : Forall (λ view, in_unit_interval (value_of view)) vs2).
  { apply List.Forall_forall. intros view Hin. apply Hsame in Hin.
    exact (proj1 (List.Forall_forall _ _) Hall1 view Hin). }
  assert (Hvalues : ∀ vs, Forall (λ view, in_unit_interval (value_of view)) vs →
            Forall in_unit_interval (value_of <$> vs)).
  { intros vs Hall. apply List.Forall_forall. intros v Hv.
    apply (proj1 (in_map_iff _ _ _)) in Hv as (view & <- & Hin).
    exact (proj1 (List.Forall_forall _ _) Hall view Hin). }
  assert (Hzero : in_unit_interval (Fin 0)) by (cbn; lra).
  assert (Hmax : ∀ vs, Forall (λ view, in_unit_interval (value_of view)) vs →
            let m := fold_left pymax (value_of <$> vs) (Fin 0) in
            in_unit_interval m ∧ pyfloat_leb (Fin 0) m = true
            ∧ (∀ view, In view vs → pyfloat_leb (value_of view) m = true)
            ∧ (m = Fin 0 ∨ ∃ view, In view vs ∧ m = value_of view)).
  { intros vs Hall m.
    destruct (fold_pymax_is_maximum (value_of <$> vs) (Fin 0) I)
      as (_ & Hle & Hupper & Hatt).
    { eapply Forall_impl; [apply Hvalues, Hall|].
      intros a. apply in_unit_real_or_inf. }
    fold m in Hle, Hupper, Hatt. split; [|split; [exact Hle|split]].
    - destruct Hatt as [-> | Hin]; [exact Hzero|].
      exact (proj1 (List.Forall_forall _ _) (Hvalues vs Hall) m Hin).
    - intros view Hin. apply Hupper, in_map. exact Hin.
    - destruct Hatt as [-> | Hin]; [left; reflexivity|right].
      apply (proj1 (in_map_iff _ _ _)) in Hin as (view & Hv & Hin). eauto. }
  destruct (Hmax vs1 Hall1) as (Hu1 & Hz1 & Hup1 & Hatt1).
  destruct (Hmax vs2 Hall2) as (Hu2 & Hz2 & Hup2 & Hatt2).
  apply pyfloat_leb_antisym; [exact Hu1|exact Hu2| |].
  - destruct Hatt1 as [-> | (view & Hin & ->)]; [exact Hz2|].
    apply Hup2, Hsame, Hin.
  - destruct Hatt2 as [-> | (view & Hin & ->)]; [exact Hz1|].
    apply Hup1, Hsame, Hin.
Qed.

End AllViews.

Lemma views_in_unit_interval {occluder : Type}
    (cameras : gmap string CameraTensor.t)
    (occluded : Point → string → list occluder → bool)
    (triangle : TriangleTensor.t) (triangle_set : list occluder)
    (cam_strength : string → R) (vs : list (list string)) :
  strengths_defined cameras triangle cam_strength vs →
  (∀ view, In view vs → view ≠ []) →
  Forall (λ view,
            in_unit_interval
              (Aggregation.view_value cam_strength
                 (occluded_from occluded triangle triangle_set) view)) vs.
Proof.
  intros Hdef Hne. apply List.Forall_forall. intros view Hview.
  apply view_value_unit; [apply Hne, Hview|].
  intros camera Hc.
  apply (CameraTensor_strength_range_of_outcome cameras triangle camera).
  apply (Hdef _ _ Hview Hc).
Qed.

Lemma strength_over_all_views {occluder : Type}
    (cameras : gmap string CameraTensor.t)
    (views : option (gset string) → list (list string))
    (occluded : Point → string → list occluder → bool)
    (triangle : TriangleTensor.t) (triangle_set : list occluder)
    (subset : option (gset string)) (cam_strength : string → R) :
  strengths_defined cameras triangle cam_strength (views subset) →
  (∀ view, In view (views subset) → view ≠ []) →
  (TensorModel.strength occluder cameras views occluded
     triangle triangle_set subset []).1
  = Ok (fold_left pymax
          (Aggregation.view_value cam_strength
             (occluded_from occluded triangle triangle_set)
             <$> views subset) (Fin 0)).
Proof.
  intros Hdef Hne.
  rewrite (TensorModel_strength_run _ _ _ _ _ _ cam_strength Hdef).
  cbn [fst]. f_equal. apply fold_evaluated_all; [|cbn; lra].
  eapply views_in_unit_interval; eassumption.
Qed.

Lemma strength_in_unit_interval {occluder : Type}
    (cameras : gmap string CameraTensor.t)
    (views : option (gset string) → list (list string))
    (occluded : Point → string → list occluder → bool)
    (triangle : TriangleTensor.t) (triangle_set : list occluder)
    (subset : option (gset string)) (cam_strength : string → R) (v : pyfloat) :
  strengths_defined cameras triangle cam_strength (views subset) →
  (∀ view, In view (views subset) → view ≠ []) →
  (TensorModel.strength occluder cameras views occluded
     triangle triangle_set subset []).1 = Ok v →
  in_unit_interval v.
Proof.
  intros Hdef Hne.
  rewrite (strength_over_all_views _ _ _ _ _ _ cam_strength Hdef Hne).
  intros [= <-].
  pose proof (views_in_unit_interval cameras occluded triangle triangle_set
                cam_strength (views subset) Hdef Hne) as Hall.
  set (occ := occluded_from occluded triangle triangle_set) in *.
  destruct (fold_pymax_is_maximum
              (Aggregation.view_value cam_strength occ <$> views subset)
              (Fin 0) I) as (_ & _ & _ & Hatt).
  { apply List.Forall_forall. intros a Ha.
    apply (proj1 (in_map_iff _ _ _)) in Ha as (view & <- & _).
    apply view_value_real_or_inf. }
  destruct Hatt as [-> | Hin]; [cbn; lra|].
  apply (proj1 (in_map_iff _ _ _)) in Hin as (view & <- & Hin).
  exact (proj1 (List.Forall_forall _ _) Hall view Hin).
Qed.

Lemma pymax_zero_one : pymax (Fin 0) (Fin 1) = Fin 1.
Proof.
  unfold pymax. cbn [pyfloat_ltb].
  rewrite (proj2 (Rltb_true 0 1)) by lra. reflexivity.
Qed.

(** The value of a view of one camera that is neither of strength 0 nor
    occluded is the strength of that camera. *)
Lemma view_value_single (cam_strength : string → R) camera :
  cam_strength camera ≠ 0 →
  view_value cam_strength
    (occluded_from (λ _ _ _, false) example_triangle (@nil unit)) [camera]
  = Fin (cam_strength camera).
Proof.
  intros Hnz. unfold view_value, blocks, occluded_from. cbn [existsb].
  rewrite (proj2 (Reqb_false _ _) Hnz). reflexivity.
Qed.

Lemma facing_first_view_one :
  fold_left pymax
    (view_value facing_strengths
       (occluded_from (λ _ _ _, false) example_triangle (@nil unit))
       <$> ([] ++ [["B"]])) (Fin 0) = Fin 1.
Proof.
  cbn [app]. rewrite fmap_cons, fmap_nil. cbn [fold_left].
  rewrite view_value_single.
  - unfold facing_strengths. rewrite bool_decide_eq_true_2 by reflexivity.
    apply pymax_zero_one.
  - unfold facing_strengths. rewrite bool_decide_eq_true_2 by reflexivity.
    lra.
Qed.

(** C1 (amended).  When every enumerated view names at least one camera
    and every camera named in a view has a strength towards the triangle,
    [TensorModel.strength] computes the specified aggregation: the value
    returned is the maximum, from 0.0, over all the enumerated views of
    the value of the view.  A view's value is 0 as soon as one of its
    cameras has strength 0 or is reported occluded, and the minimum of its
    cameras' strengths otherwise.  The queries made are exactly
    [view_queries] of the evaluated views, so the rest of a view is
    skipped after such a camera and the occlusion test is never asked for
    a camera of strength 0.  An empty enumeration gives 0.0, and no view
    is evaluated after the one at which the accumulated maximum equals
    1.0. *)
Theorem TensorModel_strength_aggregation {occluder : Type}
    (cameras : gmap string CameraTensor.t)
    (views : option (gset string) → list (list string))
    (occluded : Point → string → list occluder → bool)
    (triangle : TriangleTensor.t) (triangle_set : list occluder)
    (subset : option (gset string)) (cam_strength : string → R) :
  strengths_defined cameras triangle cam_strength (views subset) →
  (∀ view, In view (views subset) → view ≠ []) →
  let occ := occluded_from occluded triangle triangle_set in
  let value_of := view_value cam_strength occ in
  let done := evaluated cam_strength occ (views subset) (Fin 0) in
  ∃ (value : pyfloat) (queries : list event),
    TensorModel.strength occluder cameras views occluded
      triangle triangle_set subset [] = (Ok value, queries) ∧
    value = fold_left pymax (value_of <$> views subset) (Fin 0) ∧
    value = aggregate cam_strength occ (views subset) ∧
    queries = concat (view_queries cam_strength occ <$> done) ∧
    (views subset = [] → value = Fin 0) ∧
    (∀ camera, cam_strength camera = 0 →
       ¬ In (QueryOccluded camera) queries) ∧
    (∀ view, In view (views subset) →
       (existsb (blocks cam_strength occ) view = true →
          value_of view = Fin 0) ∧
       (existsb (blocks cam_strength occ) view = false →
          ∃ camera, In camera view ∧
            value_of view = Fin (cam_strength camera) ∧
            ∀ camera', In camera' view →
              cam_strength camera <= cam_strength camera')) ∧
    (∀ view, In view (views subset) →
       pyfloat_leb (value_of view) value = true) ∧
    (value = Fin 0 ∨
     ∃ view, In view (views subset) ∧ value = value_of view) ∧
    (∃ skipped, views subset = done ++ skipped) ∧
    (∀ before view after, views subset = before ++ view :: after →
       fold_left pymax (value_of <$> (before ++ [view])) (Fin 0) = Fin 1 →
       value = Fin 1 ∧
       done = evaluated cam_strength occ (before ++ [view]) (Fin 0)).
Proof.
  intros Hdef Hne occ value_of done.
  exists (fold_left pymax (value_of <$> views subset) (Fin 0)),
         (concat (view_queries cam_strength occ <$> done)).
  assert (Hall : fold_left pymax (value_of <$> done) (Fin 0)
                 = fold_left pymax (value_of <$> views subset) (Fin 0)).
  { apply fold_evaluated_all; [|cbn; lra].
    eapply views_in_unit_interval; eassumption. }
  destruct (fold_pymax_is_maximum (value_of <$> views subset) (Fin 0) I)
    as (_ & _ & Hupper & Hattained).
  { apply List.Forall_forall. intros a Ha.
    apply (proj1 (in_map_iff _ _ _)) in Ha as (view & <- & _).
    apply view_value_real_or_inf. }
  split.
  { rewrite <- Hall. apply TensorModel_strength_run. exact Hdef. }
  split; [reflexivity|]. split; [symmetry; exact Hall|].
  split; [reflexivity|].
  split. { intros ->. reflexivity. }
  split.
  { intros camera Hzero Hin. apply in_concat in Hin.
    destruct Hin as (qs & Hqs & Hin). apply in_map_iff in Hqs.
    destruct Hqs as (view & <- & _).
    apply view_queries_occluded_nonzero in Hin. contradiction. }
  split.
  { intros view Hview. unfold value_of, view_value.
    split; intros ->; [reflexivity|].
    pose proof (view_min_is_minimum cam_strength view) as Hmin.
    specialize (Hne view Hview). destruct view; [contradiction|].
    exact Hmin. }
  split. { intros view Hview. apply Hupper. apply in_map. exact Hview. }
  split.
  { destruct Hattained as [-> | Hin]; [left; reflexivity|right].
    apply in_map_iff in Hin. destruct Hin as (view & Hv & Hin). eauto. }
  split. { apply evaluated_prefix. }
  intros before view after Hvs Hone. split.
  - rewrite <- Hall. subst done.
    rewrite Hvs, evaluated_stops_at_one by exact Hone.
    apply fold_evaluated_one. exact Hone.
  - subst done. rewrite Hvs. apply evaluated_stops_at_one. exact Hone.
Qed.

Lemma example_strengths_defined :
  strengths_defined {["cam" := example_camera_tilted]} example_triangle
    (λ _, strength_value example_camera_tilted example_triangle) [["cam"]].
Proof.
  intros view camera [<- | []] [<- | []]. unfold strength_outcome.
  rewrite lookup_singleton_eq. cbn [from_option]. step.
  apply CameraTensor_strength_ok.
  - exact example_camera_3x3.
  - exact example_triangle_3x3.
  - exact (proj1 example_camera_columns).
  - exact (proj1 example_triangle_columns).
Qed.

(** The facing camera has strength exactly 1.0 towards the example
    triangle: the centres coincide and the axes point against each
    other. *)
Lemma facing_camera_strength :
  CameraTensor.strength facing_camera example_triangle = Ok 1.
Proof.
  rewrite CameraTensor_strength_ok.
  - f_equal. unfold strength_value.
    assert (Hz : ∀ p, x p = 0 → y p = 0 → z p = 0 → Point_magnitude p = 0).
    { intros p Hx Hy Hz. apply Point_magnitude_eq; [lra|].
      rewrite Hx, Hy, Hz. ring. }
    assert (Heuc : Point_euclidean (CameraTensor.centre facing_camera)
                     (TriangleTensor.centre example_triangle) = 0)
      by (apply Hz; cbn; lra).
    rewrite (normalized_eq (col (CameraTensor.tensor facing_camera) 0) 1
               (mkPoint 0 0 (-1))) by (unfold col, elem; cbn; lra).
    rewrite (normalized_eq (col (TriangleTensor.tensor example_triangle) 0) 5
               (mkPoint 0 0 1)) by (unfold col, elem; cbn; lra).
    assert (Hrot : Point_euclidean (mkPoint 0 0 (-1))
                     (Point_neg (mkPoint 0 0 1)) = 0)
      by (apply Hz; cbn; lra).
    rewrite Heuc, Hrot. unfold Rdiv. rewrite !Rmult_0_l, !Rminus_0_r.
    rewrite Rmax_right by lra. rewrite Rmult_1_r. apply sqrt_1.
  - split; reflexivity.
  - exact example_triangle_3x3.
  - intros H. apply (f_equal z) in H. cbn in H. lra.
  - exact (proj1 example_triangle_columns).
Qed.

Lemma facing_strengths_defined :
  strengths_defined
    {["B" := facing_camera; "cam" := example_camera_tilted]}
    example_triangle facing_strengths [["B"]; ["cam"]].
Proof.
  intros view camera Hview Hcamera. unfold strength_outcome, facing_strengths.
  destruct Hview as [<- | [<- | []]]; destruct Hcamera as [<- | []].
  - rewrite lookup_insert_eq. cbn [from_option]. step.
    rewrite bool_decide_eq_true_2 by reflexivity.
    exact facing_camera_strength.
  - rewrite lookup_insert_ne by discriminate.
    rewrite lookup_singleton_eq. cbn [from_option]. step.
    rewrite bool_decide_eq_false_2 by discriminate.
    apply CameraTensor_strength_ok.
    + exact example_camera_3x3.
    + exact example_triangle_3x3.
    + exact (proj1 example_camera_columns).
    + exact (proj1 example_triangle_columns).
Qed.

Lemma TensorModel_strength_aggregation_witness :
  ∃ (value : pyfloat) (queries : list event),
    TensorModel.strength unit
      {["B" := facing_camera; "cam" := example_camera_tilted]}
      (λ _, [["B"]; ["cam"]]) (λ _ _ _, false) example_triangle [] None []
    = (Ok value, queries)
    ∧ value = Fin 1.
Proof.
  destruct (TensorModel_strength_aggregation
              {["B" := facing_camera; "cam" := example_camera_tilted]}
              (λ _, [["B"]; ["cam"]])
              (λ _ _ _, false) example_triangle (@nil unit) None
              facing_strengths facing_strengths_defined)
    as (value & queries & Hrun & _ & _ & _ & _ & _ & _ & _ & _ & _ & Hstop).
  - intros view [<- | [<- | []]]; discriminate.
  - exists value, queries. split; [exact Hrun|].
    apply (Hstop [] ["B"] [["cam"]] eq_refl). exact facing_first_view_one.
Defined.

(** C1, as stated, fails when a view without cameras follows a view of
    value 1.0: the values of the two views are 1.0 and [+inf], their
    maximum is [+inf], and the call stops after the first view and
    returns 1.0. *)
Lemma TensorModel_strength_stops_before_empty_view :
  let occ := occluded_from (λ _ _ _, false) example_triangle (@nil unit) in
  strengths_defined {["B" := facing_camera]} example_triangle (λ _, 1)
    [["B"]; []] ∧
  view_value (λ _, 1) occ ["B"] = Fin 1 ∧
  view_value (λ _, 1) occ [] = PInf ∧
  fold_left pymax (view_value (λ _, 1) occ <$> [["B"]; []]) (Fin 0) = PInf ∧
  (TensorModel.strength unit {["B" := facing_camera]} (λ _, [["B"]; []])
     (λ _ _ _, false) example_triangle [] None []).1 = Ok (Fin 1).
Proof.
  cbn zeta.
  assert (Hdef : strengths_defined {["B" := facing_camera]} example_triangle
                   (λ _, 1) [["B"]; []]).
  { intros view camera [<- | [<- | []]] Hc; [|destruct Hc].
    destruct Hc as [<- | []]. unfold strength_outcome.
    rewrite lookup_singleton_eq. cbn [from_option]. step.
    exact facing_camera_strength. }
  assert (Hone : view_value (λ _, 1)
                   (occluded_from (λ _ _ _, false) example_triangle
                      (@nil unit)) ["B"] = Fin 1).
  { apply view_value_single. intros ?; lra. }
  split; [exact Hdef|]. split; [exact Hone|]. split; [reflexivity|].
  split.
  { rewrite !fmap_cons, Hone. cbn [fold_left]. rewrite pymax_zero_one.
    reflexivity. }
  rewrite (TensorModel_strength_run _ _ _ _ _ _ (λ _, 1) Hdef). cbn [fst].
  cbn [evaluated]. rewrite Hone, pymax_zero_one.
  cbn [pyfloat_eqb]. rewrite (proj2 (Reqb_true 1 1) eq_refl).
  rewrite fmap_cons, fmap_nil, Hone. cbn [fold_left].
  rewrite pymax_zero_one. reflexivity.
Qed.

(** C7 (amended).  When every enumerated view contains at least one camera
    and every camera named in a view has a strength towards the triangle,
    [TensorModel.strength] returns a float in [0, 1]. *)
Theorem TensorModel_strength_range_nonempty_views {occluder : Type}
    (cameras : gmap string CameraTensor.t)
    (views : option (gset string) → list (list string))
    (occluded : Point → string → list occluder → bool)
    (triangle : TriangleTensor.t) (triangle_set : list occluder)
    (subset : option (gset string)) (cam_strength : string → R) :
  strengths_defined cameras triangle cam_strength (views subset) →
  (∀ view, In view (views subset) → view ≠ []) →
  ∃ r : R,
    (TensorModel.strength occluder cameras views occluded
       triangle triangle_set subset []).1 = Ok (Fin r) ∧
    0 <= r <= 1.
Proof.
  intros Hdef Hne.
  rewrite (TensorModel_strength_run _ _ _ _ _ _ cam_strength Hdef).
  cbn [fst].
  set (occ := occluded_from occluded triangle triangle_set).
  set (done := evaluated cam_strength occ (views subset) (Fin 0)).
  set (value := fold_left pymax _ _).
  destruct (fold_pymax_is_maximum (view_value cam_strength occ <$> done) (Fin 0)
              I (evaluated_values_real_or_inf _ _ _ _))
    as (_ & _ & _ & Hatt).
  fold value in Hatt.
  assert (Hunit : in_unit_interval value).
  { destruct Hatt as [-> | Hin]; [cbn; lra|].
    apply in_map_iff in Hin. destruct Hin as (view & <- & Hin).
    destruct (evaluated_prefix cam_strength occ (views subset) (Fin 0))
      as [skipped Hpre].
    assert (Hv : In view (views subset))
      by (rewrite Hpre; apply in_or_app; left; exact Hin).
    unfold view_value. destruct (existsb _ view); [cbn; lra|].
    pose proof (view_min_is_minimum cam_strength view) as Hmin.
    specialize (Hne view Hv). destruct view as [|c rest]; [contradiction|].
    destruct Hmin as (camera & Hc & -> & _). cbn.
    apply (CameraTensor_strength_range_of_outcome cameras triangle camera).
    apply (Hdef _ _ Hv Hc). }
  destruct value as [r| | |]; try contradiction. exists r. auto.
Qed.

Lemma TensorModel_strength_range_nonempty_views_witness :
  ∃ r : R,
    (TensorModel.strength unit {["cam" := example_camera_tilted]}
       (λ _, [["cam"]]) (λ _ _ _, false) example_triangle [] None []).1
    = Ok (Fin r) ∧
    0 <= r <= 1.
Proof.
  apply (TensorModel_strength_range_nonempty_views
           {["cam" := example_camera_tilted]} (λ _, [["cam"]])
           (λ _ _ _, false) example_triangle (@nil unit) None
           (λ _, strength_value example_camera_tilted example_triangle)
           example_strengths_defined).
  intros view [<- | []]. discriminate.
Defined.

(** C7, as stated, fails on a view without cameras: the minimum stays at
    [float('inf')] and becomes the maximum, so the call returns [+inf]. *)
Lemma TensorModel_strength_empty_view_infinite :
  (TensorModel.strength unit ∅ (λ _, [[]]) (λ _ _ _, false)
     example_triangle [] None []).1 = Ok PInf ∧
  ¬ in_unit_interval PInf.
Proof. split; [reflexivity|]. intros []. Qed.

(** ** Coverage cache and performance *)

Lemma cache_getitem_in (cache : PointCache) k v :
  NoDup (cache_keys cache) → In (k, v) cache → cache_getitem cache k = Ok v.
Proof.
  induction cache as [|[k' v'] rest IH]; intros Hnd Hin; [destruct Hin|].
  unfold cache_keys in *. cbn in Hnd. apply NoDup_cons in Hnd as [Hnotin Hnd].
  cbn [cache_getitem]. destruct Hin as [[= -> ->] | Hin].
  - rewrite decide_True by reflexivity. reflexivity.
  - destruct (decide (k' = k)) as [->|Hne].
    + exfalso. apply Hnotin. apply list_elem_of_fmap. exists (k, v).
      split; [reflexivity|]. apply list_elem_of_In. exact Hin.
    + apply IH; assumption.
Qed.

Lemma cache_setitem_keys (cache : PointCache) point value :
  cache_keys (cache_setitem cache point value)
  = if decide (point ∈ cache_keys cache) then cache_keys cache
    else cache_keys cache ++ [point].
Proof.
  unfold cache_keys. induction cache as [|[k v] rest IH]; cbn.
  - rewrite decide_False by apply not_elem_of_nil. reflexivity.
  - destruct (decide (k = point)) as [->|Hne].
    + rewrite decide_True by apply list_elem_of_here. reflexivity.
    + cbn. rewrite IH. destruct (decide (point ∈ rest.*1)) as [Hin|Hnin].
      * rewrite decide_True by (apply list_elem_of_further; exact Hin).
        reflexivity.
      * rewrite decide_False; [reflexivity|].
        intros Hin. apply elem_of_cons in Hin as [->|Hin]; contradiction.
Qed.

Lemma cache_setitem_NoDup (cache : PointCache) point value :
  NoDup (cache_keys cache) →
  NoDup (cache_keys (cache_setitem cache point value)).
Proof.
  intros Hnd. rewrite cache_setitem_keys.
  destruct (decide _) as [|Hnin]; [exact Hnd|].
  apply NoDup_app. split; [exact Hnd|]. split.
  - intros k Hk Hin. apply list_elem_of_singleton in Hin as ->. contradiction.
  - apply NoDup_singleton.
Qed.

Lemma coverage_loop_NoDup {occluder : Type} cameras views
    (occluded : Point → string → list occluder → bool)
    scene_triangles Point_angle atan2 triangles subset
    (acc cache : PointCache) :
  NoDup (cache_keys acc) →
  TensorModel.coverage_loop occluder cameras views occluded scene_triangles
    Point_angle atan2 triangles subset acc = Ok cache →
  NoDup (cache_keys cache).
Proof.
  revert acc. induction triangles as [|triangle rest IH]; intros acc Hnd.
  - cbn. intros [= <-]. exact Hnd.
  - cbn [TensorModel.coverage_loop].
    destruct (TriangleTensor.axis triangle); [|discriminate]. step.
    destruct (TensorModel.strength _ _ _ _ _ _ _ _).1; [|discriminate]. step.
    apply IH. apply cache_setitem_NoDup. exact Hnd.
Qed.

Lemma performance_loop_spec (cache entries : PointCache) (Fn : pyfloat)
    (n : nat) :
  (∀ k v, In (k, v) entries → cache_getitem cache k = Ok v) →
  TensorModel.performance_loop cache (cache_keys entries) Fn (Fin (INR n))
  = Ok (fold_left pyfloat_add entries.*2 Fn,
        Fin (INR (n + length entries))).
Proof.
  revert Fn n. induction entries as [|[k v] rest IH]; intros Fn n Hget.
  - cbn. rewrite Nat.add_0_r. reflexivity.
  - unfold cache_keys. cbn [fmap list_fmap fst TensorModel.performance_loop].
    rewrite (Hget k v) by apply in_eq. step.
    cbn [pyfloat_add]. rewrite <- S_INR.
    fold (cache_keys rest).
    rewrite IH by (intros; apply Hget, in_cons; assumption).
    replace (n + length ((k, v) :: rest))%nat with (S n + length rest)%nat
      by (cbn [length]; lia).
    reflexivity.
Qed.

Lemma performance_given {occluder : Type} cameras views
    (occluded : Point → string → list occluder → bool)
    scene_triangles Point_angle atan2 object_triangles subset
    (cache : PointCache) :
  cache ≠ [] → NoDup (cache_keys cache) →
  TensorModel.performance occluder cameras views occluded scene_triangles
    Point_angle atan2 object_triangles subset (Some cache)
  = cache_mean cache.
Proof.
  intros Hne Hnd. unfold TensorModel.performance.
  destruct cache as [|entry more]; [contradiction|]. step.
  rewrite (performance_loop_spec _ _ (Fin 0) 0)
    by (intros; apply cache_getitem_in; assumption).
  reflexivity.
Qed.

Lemma performance_computed {occluder : Type} cameras views
    (occluded : Point → string → list occluder → bool)
    scene_triangles Point_angle atan2 object_triangles subset
    (coverage_arg : option PointCache) (cache : PointCache) :
  coverage_arg = None ∨ coverage_arg = Some [] →
  TensorModel.coverage occluder cameras views occluded scene_triangles
    Point_angle atan2 object_triangles subset = Ok cache →
  NoDup (cache_keys cache) →
  TensorModel.performance occluder cameras views occluded scene_triangles
    Point_angle atan2 object_triangles subset coverage_arg
  = cache_mean cache.
Proof.
  intros Harg Hcov Hnd. unfold TensorModel.performance.
  replace (match coverage_arg with
           | Some (entry :: more) => Ok (entry :: more)
           | _ => _ end) with (Ok (A := PointCache) cache)
    by (destruct Harg as [-> | ->]; symmetry; exact Hcov).
  step.
  rewrite (performance_loop_spec _ _ (Fin 0) 0)
    by (intros; apply cache_getitem_in; assumption).
  reflexivity.
Qed.

Lemma cache_sum_finite (rs : list R) (acc : R) :
  fold_left pyfloat_add (Fin <$> rs) (Fin acc) = Fin (acc + Rsum rs).
Proof.
  revert acc. induction rs as [|r rest IH]; intros acc.
  - cbn. f_equal. lra.
  - rewrite fmap_cons. cbn [fold_left pyfloat_add]. rewrite IH. f_equal.
    unfold Rsum. cbn [fold_right]. lra.
Qed.

Lemma cache_mean_nonempty (cache : PointCache) :
  cache ≠ [] →
  ∃ m, cache_mean cache = Ok m ∧
       ∀ rs, cache.*2 = Fin <$> rs →
             m = Fin (Rsum rs / INR (length cache)).
Proof.
  intros Hne. unfold cache_mean, pyfloat_div.
  assert (Hn : INR (length cache) ≠ 0).
  { apply not_0_INR. destruct cache; [contradiction|discriminate]. }
  rewrite (proj2 (Reqb_false _ _) Hn). eexists. split; [reflexivity|].
  intros rs Hrs. unfold cache_sum. rewrite Hrs, cache_sum_finite.
  f_equal. lra.
Qed.

Lemma cache_mean_empty : cache_mean [] = Raise ZeroDivisionError.
Proof.
  unfold cache_mean, cache_sum, pyfloat_div. cbn.
  rewrite (proj2 (Reqb_true 0 0) eq_refl). reflexivity.
Qed.

(** C8.  [TensorModel.performance] returns the arithmetic mean of the
    cached values: for a non-empty cache, the sum of the cached strengths
    divided by the number of cached points; the cache is the one
    [coverage] computes when none (or an empty one) is given. *)
Theorem TensorModel_performance_is_mean {occluder : Type}
    (cameras : gmap string CameraTensor.t)
    (views : option (gset string) → list (list string))
    (occluded : Point → string → list occluder → bool)
    (scene_triangles : list occluder)
    (Point_angle : Point → Point → R) (atan2 : R → R → R)
    (object_triangles : list TriangleTensor.t)
    (subset : option (gset string)) (cache : PointCache) :
  cache ≠ [] → NoDup (cache_keys cache) →
  let performance :=
    TensorModel.performance occluder cameras views occluded scene_triangles
      Point_angle atan2 object_triangles subset in
  ∃ m : pyfloat,
    performance (Some cache) = Ok m ∧
    pyfloat_div (cache_sum cache) (Fin (INR (length cache))) = Ok m ∧
    (∀ rs : list R, cache.*2 = Fin <$> rs →
       m = Fin (Rsum rs / INR (length cache))) ∧
    (TensorModel.coverage occluder cameras views occluded scene_triangles
       Point_angle atan2 object_triangles subset = Ok cache →
     performance None = Ok m ∧ performance (Some []) = Ok m).
Proof.
  intros Hne Hnd performance.
  destruct (cache_mean_nonempty cache Hne) as (m & Hmean & Hfinite).
  exists m. split; [|split; [exact Hmean|split; [exact Hfinite|]]].
  - unfold performance. rewrite performance_given by assumption. exact Hmean.
  - intros Hcov. unfold performance.
    rewrite !(performance_computed _ _ _ _ _ _ _ _ _ cache) by auto.
    auto.
Qed.

Lemma example_cache_NoDup : NoDup (cache_keys example_cache).
Proof.
  unfold cache_keys, example_cache. cbn. apply NoDup_cons. split.
  - intros Hin. apply list_elem_of_singleton in Hin. injection Hin. lra.
  - apply NoDup_singleton.
Qed.

Lemma TensorModel_performance_is_mean_witness :
  TensorModel.performance unit ∅ (λ _, []) (λ _ _ _, false) []
    (λ _ _, 0) (λ _ _, 0) [] None (Some example_cache)
  = Ok (Fin 0.5).
Proof.
  destruct (TensorModel_performance_is_mean (occluder := unit) ∅ (λ _, [])
              (λ _ _ _, false) [] (λ _ _, 0) (λ _ _, 0) [] None
              example_cache ltac:(discriminate) example_cache_NoDup)
    as (m & Hrun & _ & Hfinite & _).
  rewrite Hrun, (Hfinite [1; 0] eq_refl). do 2 f_equal.
  unfold Rsum. cbn. lra.
Defined.

(** C10.  When the cache that [performance] averages over is empty, the
    final division is [0.0 / 0.0] and the call raises
    [ZeroDivisionError]; it returns no value. *)
Theorem TensorModel_performance_empty_cache_raises {occluder : Type}
    (cameras : gmap string CameraTensor.t)
    (views : option (gset string) → list (list string))
    (occluded : Point → string → list occluder → bool)
    (scene_triangles : list occluder)
    (Point_angle : Point → Point → R) (atan2 : R → R → R)
    (object_triangles : list TriangleTensor.t)
    (subset : option (gset string)) (coverage_arg : option PointCache) :
  coverage_arg = None ∨ coverage_arg = Some [] →
  TensorModel.coverage occluder cameras views occluded scene_triangles
    Point_angle atan2 object_triangles subset = Ok [] →
  let outcome :=
    TensorModel.performance occluder cameras views occluded scene_triangles
      Point_angle atan2 object_triangles subset coverage_arg in
  pyfloat_div (Fin 0) (Fin 0) = Raise ZeroDivisionError ∧
  outcome = Raise ZeroDivisionError ∧
  ∀ v : pyfloat, outcome ≠ Ok v.
Proof.
  intros Harg Hcov outcome.
  assert (Hout : outcome = Raise ZeroDivisionError).
  { unfold outcome.
    rewrite (performance_computed _ _ _ _ _ _ _ _ _ [])
      by (auto; apply NoDup_nil_2).
    apply cache_mean_empty. }
  split; [exact cache_mean_empty|]. split; [exact Hout|].
  intros v. rewrite Hout. discriminate.
Qed.

Lemma TensorModel_performance_empty_cache_raises_witness :
  TensorModel.performance unit ∅ (λ _, []) (λ _ _ _, false) []
    (λ _ _, 0) (λ _ _, 0) [] None None
  = Raise ZeroDivisionError.
Proof.
  apply (TensorModel_performance_empty_cache_raises (occluder := unit) ∅
           (λ _, []) (λ _ _ _, false) [] (λ _ _, 0) (λ _ _, 0) [] None
           None).
  - left. reflexivity.
  - reflexivity.
Defined.

(** * Further properties of the code *)

(** ** Construction and subscripts *)

Lemma init_rows_rectangular w matrix :
  rectangular w matrix → init_rows w matrix = Ok (concat matrix).
Proof.
  induction 1 as [|row rest Hrow _ IH]; [reflexivity|].
  cbn [init_rows]. rewrite Hrow, Nat.eqb_refl, IH. reflexivity.
Qed.

Lemma init_rows_ragged w matrix :
  ¬ rectangular w matrix → init_rows w matrix = Raise AssertionError.
Proof.
  induction matrix as [|row rest IH]; intros Hnot.
  - exfalso. apply Hnot. constructor.
  - cbn [init_rows]. destruct (Nat.eqb_spec (length row) w) as [Hw|];
      [|reflexivity].
    rewrite IH; [reflexivity|]. intros Hrest. apply Hnot.
    constructor; assumption.
Qed.

Lemma rectangular_dec w matrix : rectangular w matrix ∨ ¬ rectangular w matrix.
Proof.
  induction matrix as [|row rest [IH|IH]].
  - left. constructor.
  - destruct (Nat.eq_dec (length row) w) as [Hw|Hw].
    + left. constructor; assumption.
    + right. intros H. inversion H. contradiction.
  - right. intros H. inversion H. contradiction.
Qed.

Lemma concat_rectangular_length w matrix :
  rectangular w matrix → length (concat matrix) = (length matrix * w)%nat.
Proof.
  induction 1 as [|row rest Hrow _ IH]; [reflexivity|].
  cbn [concat length]. rewrite length_app, IH, Hrow. lia.
Qed.

Lemma concat_rectangular_nth w matrix i j :
  rectangular w matrix → (j < w)%nat →
  nth (i * w + j) (concat matrix) 0 = matrix_elem matrix i j.
Proof.
  intros Hrect Hj. revert i. unfold matrix_elem.
  induction Hrect as [|row rest Hrow _ IH]; intros i.
  - cbn [concat]. destruct (i * w + j)%nat, i, j; reflexivity.
  - destruct i as [|i]; cbn [concat nth].
    + cbn [Nat.mul Nat.add]. apply app_nth1. lia.
    + replace (S i * w + j)%nat with (length row + (i * w + j))%nat by lia.
      rewrite app_nth2_plus. apply IH.
Qed.

(** X1.  Constructor and subscript round trip.  A matrix with a non-empty
    first row and rows of one length is stored as it is given: the
    constructor returns a tensor of size (number of rows, length of the
    first row), and [t[i, j]] with non-negative indices in range returns
    [matrix[i][j]]. *)
Theorem Tensor_init_getitem_roundtrip (row0 : list R)
    (rest : list (list R)) :
  row0 ≠ [] → rectangular (length row0) (row0 :: rest) →
  ∃ t : Tensor,
    Tensor_init (row0 :: rest) = Ok t ∧
    size t = (S (length rest), length row0) ∧
    well_formed t ∧
    ∀ i j : nat, (i < S (length rest))%nat → (j < length row0)%nat →
      Tensor_getitem t (Z.of_nat i) (Z.of_nat j)
      = Ok (matrix_elem (row0 :: rest) i j).
Proof.
  intros Hne Hrect. unfold Tensor_init.
  destruct (Nat.eqb_spec (length row0) 0) as [H0|H0].
  { destruct row0; [contradiction|discriminate]. }
  rewrite init_rows_rectangular by exact Hrect. step. eexists.
  split; [reflexivity|]. split; [reflexivity|].
  assert (Hwf : well_formed
            (mkTensor (length (row0 :: rest)) (length row0)
               (concat (row0 :: rest)))).
  { unfold well_formed. cbn [_tensor _h _w].
    apply concat_rectangular_length. exact Hrect. }
  split; [exact Hwf|]. intros i j Hi Hj.
  rewrite Tensor_getitem_nat by (assumption || (cbn [_h _w length]; lia)).
  f_equal. unfold elem. cbn [_w _tensor].
  apply concat_rectangular_nth; assumption.
Qed.

Lemma Tensor_init_getitem_roundtrip_witness :
  ∃ t : Tensor,
    Tensor_init [[1; 2]; [3; 4]] = Ok t ∧
    Tensor_getitem t 1 0 = Ok 3.
Proof.
  destruct (Tensor_init_getitem_roundtrip [1; 2] [[3; 4]])
    as (t & Hinit & _ & _ & Hget).
  - discriminate.
  - repeat constructor.
  - exists t. split; [exact Hinit|].
    apply (Hget 1%nat 0%nat); cbn; lia.
Defined.

(** X2.  The outcomes of the constructor.  An empty list and a list whose
    first row is empty both give the empty 0x0 tensor, whatever the other
    rows are; otherwise the rows are stored when they all have the length
    of the first row, and the constructor raises [AssertionError] when one
    of them does not. *)
Theorem Tensor_init_outcome (matrix : list (list R)) :
  match matrix with
  | [] => Tensor_init matrix = Ok (mkTensor 0 0 [])
  | [] :: _ => Tensor_init matrix = Ok (mkTensor 0 0 [])
  | (_ :: _) as row0 :: _ =>
      (rectangular (length row0) matrix →
         Tensor_init matrix
         = Ok (mkTensor (length matrix) (length row0) (concat matrix))) ∧
      (¬ rectangular (length row0) matrix →
         Tensor_init matrix = Raise AssertionError)
  end.
Proof.
  destruct matrix as [|[|v row0] rest]; [reflexivity..|].
  unfold Tensor_init. cbn [length Nat.eqb]. split; intros H.
  - rewrite init_rows_rectangular by exact H. reflexivity.
  - rewrite init_rows_ragged by exact H. reflexivity.
Qed.

Lemma array_getitem_neg a (n : nat) :
  (n < length a)%nat →
  array_getitem a (Z.of_nat n - Z.of_nat (length a)) = Ok (nth n a 0).
Proof.
  intros Hn. unfold array_getitem.
  destruct (Z.ltb_spec (Z.of_nat n - Z.of_nat (length a)) 0); [|lia].
  replace (Z.of_nat n - Z.of_nat (length a) + Z.of_nat (length a))%Z
    with (Z.of_nat n) by lia.
  destruct (Z.ltb_spec (Z.of_nat n) 0); [lia|].
  destruct (Z.leb_spec (Z.of_nat (length a)) (Z.of_nat n)); [lia|].
  cbn [orb]. rewrite Nat2Z.id.
  destruct (nth_error a n) eqn:E.
  - f_equal. symmetry. apply nth_error_nth. exact E.
  - apply nth_error_None in E. lia.
Qed.

Lemma array_getitem_outside a (k : Z) :
  (k < - Z.of_nat (length a) ∨ Z.of_nat (length a) <= k)%Z →
  array_getitem a k = Raise IndexError.
Proof.
  intros Hk. unfold array_getitem.
  destruct (Z.ltb_spec k 0).
  - destruct (Z.ltb_spec (k + Z.of_nat (length a)) 0); [reflexivity|lia].
  - destruct (Z.ltb_spec k 0); [lia|].
    destruct (Z.leb_spec (Z.of_nat (length a)) k); [reflexivity|lia].
Qed.

(** The flat array of a well-formed tensor read at the position of row
    [r], column [c], counted from the start or from the end. *)
Lemma array_getitem_flat t (r c : nat) (k : Z) :
  well_formed t → (r < _h t)%nat → (c < _w t)%nat →
  (k = Z.of_nat (r * _w t + c)
   ∨ k = Z.of_nat (r * _w t + c) - Z.of_nat (_h t * _w t))%Z →
  array_getitem (_tensor t) k = Ok (elem t r c).
Proof.
  intros Hwf Hr Hc [-> | ->]; unfold elem.
  - apply array_getitem_nat. rewrite Hwf. nia.
  - rewrite <- Hwf. apply array_getitem_neg. rewrite Hwf. nia.
Qed.

Lemma index_in_range_spec (i : Z) (n : nat) :
  index_in_range i n = true ↔ (- Z.of_nat n <= i < Z.of_nat n)%Z.
Proof.
  unfold index_in_range.
  destruct (Z.ltb_spec i 0), (Z.leb_spec (- Z.of_nat n) i),
    (Z.leb_spec 0 i), (Z.ltb_spec i (Z.of_nat n)); cbn; split;
    (lia || discriminate || reflexivity).
Qed.

Lemma index_in_range_false (i : Z) (n : nat) :
  index_in_range i n = false ↔ (i < - Z.of_nat n ∨ Z.of_nat n <= i)%Z.
Proof.
  destruct (index_in_range i n) eqn:E.
  - apply index_in_range_spec in E. split; [discriminate|lia].
  - split; [|reflexivity]. intros _.
    destruct (Z.lt_ge_cases i (- Z.of_nat n)); [lia|].
    destruct (Z.lt_ge_cases i (Z.of_nat n)); [|lia].
    assert (index_in_range i n = true) by (apply index_in_range_spec; lia).
    congruence.
Qed.

Lemma wrap_lt (i : Z) (n : nat) :
  (- Z.of_nat n <= i < Z.of_nat n)%Z → (wrap i n < n)%nat.
Proof. unfold wrap. destruct (Z.ltb_spec i 0); lia. Qed.

(** X3.  Bounds of [t[i, j]].  A row index outside [-h, h) or a column index
    outside [-w, w) raises [IndexError]; a row index in range, negative
    ones counting from the last row, with a non-negative column index in
    range returns the element of that row and column. *)
Theorem Tensor_getitem_bounds (t : Tensor) (i j : Z) :
  well_formed t →
  ((i < - Z.of_nat (_h t) ∨ Z.of_nat (_h t) <= i
    ∨ j < - Z.of_nat (_w t) ∨ Z.of_nat (_w t) <= j)%Z →
     Tensor_getitem t i j = Raise IndexError)
  ∧ ((- Z.of_nat (_h t) <= i < Z.of_nat (_h t))%Z →
     (0 <= j < Z.of_nat (_w t))%Z →
     Tensor_getitem t i j = Ok (elem t (wrap i (_h t)) (Z.to_nat j))).
Proof.
  intros Hwf. unfold Tensor_getitem. split.
  - intros Hout.
    destruct (index_in_range i (_h t)) eqn:Ei; [|reflexivity].
    destruct (index_in_range j (_w t)) eqn:Ej; [|reflexivity].
    apply index_in_range_spec in Ei, Ej. lia.
  - intros Hi Hj.
    assert (Ei : index_in_range i (_h t) = true)
      by (apply index_in_range_spec; lia).
    assert (Ej : index_in_range j (_w t) = true)
      by (apply index_in_range_spec; lia).
    rewrite Ei, Ej. cbn [negb].
    apply array_getitem_flat;
      [exact Hwf | apply wrap_lt; exact Hi | lia |].
    unfold wrap. destruct (Z.ltb_spec i 0); [right|left]; nia.
Qed.

Lemma Tensor_getitem_bounds_witness :
  Tensor_getitem (mkTensor 2 2 [1; 2; 3; 4]) (-1) 1 = Ok 4
  ∧ Tensor_getitem (mkTensor 2 2 [1; 2; 3; 4]) 0 2 = Raise IndexError.
Proof.
  destruct (Tensor_getitem_bounds (mkTensor 2 2 [1; 2; 3; 4]) (-1) 1
              eq_refl) as [_ Hin].
  destruct (Tensor_getitem_bounds (mkTensor 2 2 [1; 2; 3; 4]) 0 2
              eq_refl) as [Hout _].
  split.
  - apply Hin; cbn; lia.
  - apply Hout; cbn; lia.
Defined.

(** X4.  A negative column index does not count from the end of the row.
    The flat array is read at [i * w + j] with the indices as written, so
    for [-w <= j < 0] the element returned is in column [j + w] of the row
    above the addressed one; from row [0] it is in the last row, and
    with [i = -h] the read leaves the array and raises [IndexError]. *)
Theorem Tensor_getitem_negative_column (t : Tensor) (i j : Z) :
  well_formed t →
  (- Z.of_nat (_h t) <= i < Z.of_nat (_h t))%Z →
  (- Z.of_nat (_w t) <= j < 0)%Z →
  let c := Z.to_nat (j + Z.of_nat (_w t)) in
  ((1 <= wrap i (_h t))%nat →
     Tensor_getitem t i j = Ok (elem t (wrap i (_h t) - 1) c))
  ∧ (i = 0%Z → Tensor_getitem t i j = Ok (elem t (_h t - 1) c))
  ∧ (i = (- Z.of_nat (_h t))%Z → Tensor_getitem t i j = Raise IndexError).
Proof.
  intros Hwf Hi Hj c. unfold Tensor_getitem.
  assert (Ei : index_in_range i (_h t) = true)
    by (apply index_in_range_spec; lia).
  assert (Ej : index_in_range j (_w t) = true)
    by (apply index_in_range_spec; lia).
  rewrite Ei, Ej. cbn [negb]. pose proof (wrap_lt i (_h t) Hi) as Hr.
  split; [|split].
  - intros Hrow. apply array_getitem_flat; [exact Hwf | lia | lia |].
    unfold wrap in *. destruct (Z.ltb_spec i 0); [right|left]; nia.
  - intros ->. apply array_getitem_flat; [exact Hwf | lia | lia |].
    right. nia.
  - intros ->. apply array_getitem_outside. left. rewrite Hwf. nia.
Qed.

Lemma Tensor_getitem_negative_column_witness :
  Tensor_getitem (mkTensor 2 2 [1; 2; 3; 4]) 1 (-1) = Ok 2
  ∧ Tensor_getitem (mkTensor 2 2 [1; 2; 3; 4]) 0 (-1) = Ok 4
  ∧ Tensor_getitem (mkTensor 2 2 [1; 2; 3; 4]) (-2) (-1) = Raise IndexError.
Proof.
  assert (Hw : (- Z.of_nat 2 <= -1 < 0)%Z) by lia.
  destruct (Tensor_getitem_negative_column (mkTensor 2 2 [1; 2; 3; 4])
              1 (-1) eq_refl ltac:(cbn; lia) Hw) as (H1 & _ & _).
  destruct (Tensor_getitem_negative_column (mkTensor 2 2 [1; 2; 3; 4])
              0 (-1) eq_refl ltac:(cbn; lia) Hw) as (_ & H2 & _).
  destruct (Tensor_getitem_negative_column (mkTensor 2 2 [1; 2; 3; 4])
              (-2) (-1) eq_refl ltac:(cbn; lia) Hw) as (_ & _ & H3).
  split; [|split].
  - apply H1. unfold wrap. simpl. lia.
  - apply H2. reflexivity.
  - apply H3. reflexivity.
Defined.

(** ** Slices *)

Lemma normalize_index_ok (i : Z) (n : nat) :
  (- Z.of_nat n <= i < Z.of_nat n)%Z →
  normalize_index i n = Ok (Z.of_nat (wrap i n)).
Proof.
  intros Hi. unfold normalize_index, wrap.
  destruct (Z.ltb_spec i 0).
  - destruct (Z.leb_spec (- Z.of_nat n) i); [|lia]. cbn [andb].
    f_equal. lia.
  - cbn [andb]. destruct (Z.leb_spec 0 i); [|lia].
    destruct (Z.ltb_spec i (Z.of_nat n)); [|lia]. cbn [andb].
    f_equal. lia.
Qed.

Lemma normalize_index_out (i : Z) (n : nat) :
  (i < - Z.of_nat n ∨ Z.of_nat n <= i)%Z →
  normalize_index i n = Raise IndexError.
Proof.
  intros Hi. unfold normalize_index.
  destruct (Z.ltb_spec i 0), (Z.leb_spec (- Z.of_nat n) i),
    (Z.leb_spec 0 i), (Z.ltb_spec i (Z.of_nat n)); cbn [andb];
    (reflexivity || lia).
Qed.

Lemma seq_of_nat (a n : nat) :
  (λ k, (Z.of_nat a + Z.of_nat k)%Z) <$> seq 0 n = Z.of_nat <$> seq a n.
Proof.
  revert a. induction n as [|n IH]; intros a; [reflexivity|].
  cbn [seq]. rewrite !fmap_cons. f_equal; [lia|].
  rewrite <- (seq_shift n 0).
  change (map S (seq 0 n)) with (S <$> seq 0 n).
  rewrite <- list_fmap_compose, <- (IH (S a)).
  apply list_fmap_ext. intros _ k _. cbn. lia.
Qed.

Lemma pyrange_nat (a e : nat) :
  pyrange (Z.of_nat a) (Z.of_nat e) = Z.of_nat <$> seq a (e - a).
Proof.
  unfold pyrange.
  replace (Z.to_nat (Z.of_nat e - Z.of_nat a)) with (e - a)%nat by lia.
  apply seq_of_nat.
Qed.

Lemma index_range_selected (ix : index) (n : nat) :
  index_valid ix n → index_range ix n = Ok (Z.of_nat <$> selected ix n).
Proof.
  destruct ix as [i|start stop]; cbn [index_valid index_range selected].
  - intros Hi. rewrite normalize_index_ok by exact Hi. reflexivity.
  - intros [Hs He].
    destruct start as [s|], stop as [e|]; cbn [from_option] in *;
      rewrite ?normalize_index_ok by assumption; step;
      rewrite <- pyrange_nat; do 2 f_equal; lia.
Qed.

Lemma index_range_invalid (ix : index) (n : nat) :
  ¬ index_valid ix n → index_range ix n = Raise IndexError.
Proof.
  destruct ix as [i|start stop]; cbn [index_valid index_range].
  - intros Hi. rewrite normalize_index_out by lia. reflexivity.
  - intros Hbad.
    destruct start as [s|]; cbn [from_option] in *.
    + destruct (Z.lt_ge_cases s (- Z.of_nat n));
        [rewrite normalize_index_out by lia; reflexivity|].
      destruct (Z.lt_ge_cases s (Z.of_nat n));
        [|rewrite normalize_index_out by lia; reflexivity].
      rewrite normalize_index_ok by lia. step.
      destruct stop as [e|]; cbn [from_option] in *; [|exfalso; lia].
      rewrite normalize_index_out by lia. reflexivity.
    + step. destruct stop as [e|]; cbn [from_option] in *;
        [|exfalso; apply Hbad; split; exact I].
      rewrite normalize_index_out by lia. reflexivity.
Qed.

Lemma index_valid_dec (ix : index) (n : nat) :
  index_valid ix n ∨ ¬ index_valid ix n.
Proof.
  destruct ix as [i|[s|] [e|]]; cbn [index_valid from_option]; lia.
Qed.

Lemma getitem_row_spec t (r : nat) (cols : list nat) :
  well_formed t → (r < _h t)%nat → Forall (λ c, (c < _w t)%nat) cols →
  getitem_row t (Z.of_nat r) (Z.of_nat <$> cols)
  = Ok ((λ j, elem t r j) <$> cols).
Proof.
  intros Hwf Hr. induction 1 as [|c cols Hc _ IH]; [reflexivity|].
  rewrite !fmap_cons. cbn [getitem_row].
  rewrite (array_getitem_flat t r c) by (auto; left; lia). step.
  rewrite IH. reflexivity.
Qed.

Lemma getitem_rows_spec t (rows cols : list nat) :
  well_formed t → Forall (λ r, (r < _h t)%nat) rows →
  Forall (λ c, (c < _w t)%nat) cols →
  getitem_rows t (Z.of_nat <$> rows) (Z.of_nat <$> cols)
  = Ok (block t rows cols).
Proof.
  intros Hwf Hrows Hcols. induction Hrows as [|r rows Hr _ IH];
    [reflexivity|].
  unfold block. rewrite !fmap_cons. cbn [getitem_rows].
  rewrite (getitem_row_spec t r cols Hwf Hr Hcols). step.
  rewrite IH. reflexivity.
Qed.

Lemma selected_lt (ix : index) (n : nat) :
  index_valid ix n → Forall (λ k, (k < n)%nat) (selected ix n).
Proof.
  destruct ix as [i|start stop]; cbn [index_valid selected].
  - intros Hi. repeat constructor. apply wrap_lt. exact Hi.
  - intros [Hs He]. apply List.Forall_forall. intros k Hk.
    apply in_seq in Hk.
    destruct stop as [e|]; cbn [from_option] in *; [|lia].
    pose proof (wrap_lt e n He). lia.
Qed.

(** X5.  Subscripts with slices.  A single index raises [IndexError].  For
    a pair, an integer or a given end of a slice outside [-n, n) raises
    [IndexError]; otherwise, unless both are integers, the result is the
    list of rows with the selected rows and columns, where a slice selects
    from its start up to and including its stop (unlike a Python slice),
    and the whole axis when both ends are omitted.  With two integers the
    result is that of [Tensor_getitem]. *)
Theorem Tensor_getitem_val_semantics (t : Tensor) (i j : index) :
  well_formed t →
  (∀ ix, Tensor_getitem_val t (Single ix) = Raise IndexError)
  ∧ (¬ index_valid i (_h t) ∨ ¬ index_valid j (_w t) →
       Tensor_getitem_val t (Pair i j) = Raise IndexError)
  ∧ (index_valid i (_h t) → index_valid j (_w t) →
       is_int i && is_int j = false →
       Tensor_getitem_val t (Pair i j)
       = Ok (Nested (block t (selected i (_h t)) (selected j (_w t)))))
  ∧ (∀ i0 j0, i = Int i0 → j = Int j0 →
       Tensor_getitem_val t (Pair i j)
       = (v ← Tensor_getitem t i0 j0; Ok (Scalar v))).
Proof.
  intros Hwf. split; [reflexivity|]. split; [|split].
  - intros Hbad. cbn [Tensor_getitem_val].
    destruct (index_valid_dec i (_h t)) as [Hi|Hi].
    + rewrite (index_range_selected i) by exact Hi. step.
      rewrite (index_range_invalid j) by tauto. reflexivity.
    + rewrite (index_range_invalid i) by exact Hi. reflexivity.
  - intros Hi Hj Hslice. cbn [Tensor_getitem_val].
    rewrite (index_range_selected i), (index_range_selected j)
      by assumption. step.
    pose proof (getitem_rows_spec t _ _ Hwf (selected_lt i _ Hi)
                  (selected_lt j _ Hj)) as Hrows.
    destruct i, j; try discriminate; rewrite Hrows; reflexivity.
  - intros i0 j0 -> ->. cbn [Tensor_getitem_val index_range].
    unfold Tensor_getitem.
    destruct (index_in_range i0 (_h t)) eqn:Ei.
    + apply index_in_range_spec in Ei.
      rewrite (normalize_index_ok i0) by exact Ei. step.
      destruct (index_in_range j0 (_w t)) eqn:Ej.
      * apply index_in_range_spec in Ej.
        rewrite (normalize_index_ok j0) by exact Ej. reflexivity.
      * apply index_in_range_false in Ej.
        rewrite (normalize_index_out j0) by exact Ej. reflexivity.
    + apply index_in_range_false in Ei.
      rewrite (normalize_index_out i0) by exact Ei. reflexivity.
Qed.

Lemma Tensor_getitem_val_semantics_witness :
  Tensor_getitem_val (mkTensor 2 2 [1; 2; 3; 4])
    (Pair (Slice (Some 0%Z) (Some 0%Z)) (Slice None None))
  = Ok (Nested [[1; 2]])
  ∧ Tensor_getitem_val (mkTensor 2 2 [1; 2; 3; 4])
      (Pair (Slice (Some 0%Z) (Some 2%Z)) (Slice None None))
    = Raise IndexError.
Proof.
  destruct (Tensor_getitem_val_semantics (mkTensor 2 2 [1; 2; 3; 4])
              (Slice (Some 0%Z) (Some 0%Z)) (Slice None None) eq_refl)
    as (_ & _ & Hin & _).
  destruct (Tensor_getitem_val_semantics (mkTensor 2 2 [1; 2; 3; 4])
              (Slice (Some 0%Z) (Some 2%Z)) (Slice None None) eq_refl)
    as (_ & Hout & _ & _).
  split.
  - apply Hin; cbn; try lia; reflexivity.
  - apply Hout. left. cbn. lia.
Defined.

Lemma map_nth_seq (l : list R) :
  (λ j, nth j l 0) <$> seq 0 (length l) = l.
Proof.
  induction l as [|v l IH]; [reflexivity|].
  cbn [length seq]. rewrite fmap_cons. cbn [nth]. f_equal.
  rewrite <- seq_shift.
  change (map S (seq 0 (length l))) with (S <$> seq 0 (length l)).
  rewrite <- list_fmap_compose. exact IH.
Qed.

Lemma block_of_matrix w (matrix : list (list R)) :
  rectangular w matrix →
  (λ i, (λ j, matrix_elem matrix i j) <$> seq 0 w)
    <$> seq 0 (length matrix) = matrix.
Proof.
  induction 1 as [|row rest Hrow _ IH]; [reflexivity|].
  cbn [length seq]. rewrite fmap_cons. f_equal.
  - unfold matrix_elem. cbn [nth]. rewrite <- Hrow. apply map_nth_seq.
  - rewrite <- seq_shift.
    change (map S (seq 0 (length rest))) with (S <$> seq 0 (length rest)).
    rewrite <- list_fmap_compose. exact IH.
Qed.

(** X6.  [t[:, :]] returns the matrix the tensor was constructed from. *)
Theorem Tensor_full_slice_roundtrip (row0 : list R) (rest : list (list R))
    (t : Tensor) :
  row0 ≠ [] → Tensor_init (row0 :: rest) = Ok t →
  Tensor_getitem_val t (Pair (Slice None None) (Slice None None))
  = Ok (Nested (row0 :: rest)).
Proof.
  intros Hne Hinit.
  destruct (rectangular_dec (length row0) (row0 :: rest)) as [Hrect|Hrag].
  2:{ unfold Tensor_init in Hinit.
      destruct (Nat.eqb_spec (length row0) 0) as [H0|_];
        [destruct row0; [contradiction|discriminate]|].
      rewrite init_rows_ragged in Hinit by exact Hrag. discriminate. }
  pose proof (Tensor_init_well_formed _ _ Hinit) as Hwf.
  unfold Tensor_init in Hinit.
  destruct (Nat.eqb_spec (length row0) 0) as [H0|_];
    [destruct row0; [contradiction|discriminate]|].
  rewrite init_rows_rectangular in Hinit by exact Hrect.
  injection Hinit as <-.
  cbn [Tensor_getitem_val index_range _h _w]. step.
  assert (Hz : ∀ n : nat, (-1 + Z.of_nat n + 1)%Z = Z.of_nat n)
    by (intros; lia).
  rewrite !Hz. change 0%Z with (Z.of_nat 0).
  rewrite !pyrange_nat, !Nat.sub_0_r.
  rewrite getitem_rows_spec.
  - step. do 2 f_equal. unfold block. cbn [_h _w].
    etransitivity; [|exact (block_of_matrix _ _ Hrect)].
    apply list_fmap_ext. intros ? i Hi. apply list_fmap_ext. intros ? j Hj.
    apply lookup_seq in Hj as [-> Hj]. unfold elem. cbn [_w _tensor].
    apply (concat_rectangular_nth (length row0) (row0 :: rest));
      [exact Hrect|lia].
  - exact Hwf.
  - apply List.Forall_forall. intros k Hk. apply in_seq in Hk.
    cbn [_h] in *. lia.
  - apply List.Forall_forall. intros k Hk. apply in_seq in Hk.
    cbn [_w] in *. lia.
Qed.

Lemma Tensor_full_slice_roundtrip_witness :
  Tensor_getitem_val (mkTensor 2 2 [1; 2; 3; 4])
    (Pair (Slice None None) (Slice None None))
  = Ok (Nested [[1; 2]; [3; 4]]).
Proof.
  apply (Tensor_full_slice_roundtrip [1; 2] [[3; 4]]
           (mkTensor 2 2 [1; 2; 3; 4])).
  - discriminate.
  - reflexivity.
Defined.

(** ** The Frobenius distance *)

Lemma frobenius_cols_spec t1 t2 i js d :
  well_formed t1 → well_formed t2 → _w t1 = _w t2 →
  (i < _h t1)%nat → (i < _h t2)%nat →
  (∀ j, In j js → (j < _w t1)%nat) →
  frobenius_cols t1 t2 i js d
  = Ok (d + Rsum ((λ j, (elem t2 i j - elem t1 i j) ^ 2) <$> js)).
Proof.
  intros W1 W2 Hw H1 H2. revert d.
  induction js as [|j js IH]; intros d Hjs.
  - cbn [frobenius_cols]. rewrite fmap_nil. cbn [Rsum fold_right].
    f_equal. lra.
  - cbn [frobenius_cols]. rewrite fmap_cons.
    rewrite !Tensor_getitem_nat; auto using in_eq;
      [|rewrite <- Hw; auto using in_eq].
    step. rewrite IH by auto using in_cons.
    unfold Rsum. cbn [fold_right]. f_equal. lra.
Qed.

Lemma frobenius_rows_spec t1 t2 rows d :
  well_formed t1 → well_formed t2 → _w t1 = _w t2 → _h t1 = _h t2 →
  (∀ i, In i rows → (i < _h t1)%nat) →
  frobenius_rows t1 t2 rows (_w t1) d
  = Ok (d + Rsum ((λ i, Rsum ((λ j, (elem t2 i j - elem t1 i j) ^ 2)
                                <$> seq 0 (_w t1))) <$> rows)).
Proof.
  intros W1 W2 Hw Hh. revert d.
  induction rows as [|i rows IH]; intros d Hrows.
  - cbn [frobenius_rows]. rewrite fmap_nil. cbn [Rsum fold_right].
    f_equal. lra.
  - cbn [frobenius_rows]. rewrite fmap_cons.
    rewrite (frobenius_cols_spec t1 t2 i _ d); auto using in_eq.
    + step. rewrite IH by auto using in_cons.
      unfold Rsum. cbn [fold_right]. f_equal. lra.
    + rewrite <- Hh. auto using in_eq.
    + intros j Hj. apply in_seq in Hj. lia.
Qed.

Lemma frobenius_same_size t1 t2 :
  well_formed t1 → well_formed t2 → size t1 = size t2 →
  frobenius t1 t2 = Ok (sqrt (frobenius_sq t1 t2)).
Proof.
  intros W1 W2 Hs. unfold frobenius, size in *.
  injection Hs as Hh Hw. rewrite <- Hh, <- Hw, !Nat.eqb_refl.
  cbn [andb negb]. rewrite frobenius_rows_spec; auto.
  - step. unfold frobenius_sq. do 2 f_equal. lra.
  - intros i Hi. apply in_seq in Hi. lia.
Qed.

Lemma Rsum_nonneg (rs : list R) : Forall (λ r, 0 <= r) rs → 0 <= Rsum rs.
Proof.
  induction 1 as [|r rs Hr _ IH]; cbn [Rsum fold_right]; [lra|].
  unfold Rsum in IH. lra.
Qed.

Lemma Rsum_member_le (rs : list R) (r : R) :
  Forall (λ r, 0 <= r) rs → In r rs → r <= Rsum rs.
Proof.
  induction 1 as [|r' rs Hr Hrs IH]; [intros []|].
  pose proof (Rsum_nonneg rs Hrs) as Hsum. unfold Rsum in *.
  cbn [fold_right]. intros [->|Hin]; [lra|]. specialize (IH Hin). lra.
Qed.

Lemma Rsum_zero (rs : list R) :
  Forall (λ r, r = 0) rs → Rsum rs = 0.
Proof.
  induction 1 as [|r rs Hr _ IH]; [reflexivity|].
  unfold Rsum in *. cbn [fold_right]. lra.
Qed.

Lemma row_sq_nonneg t1 t2 i js :
  Forall (λ r, 0 <= r) ((λ j, (elem t2 i j - elem t1 i j) ^ 2) <$> js).
Proof.
  apply List.Forall_forall. intros r Hr.
  apply (proj1 (in_map_iff _ _ _)) in Hr as (j & <- & _).
  apply pow2_ge_0.
Qed.

Lemma rows_sq_nonneg t1 t2 rows js :
  Forall (λ r, 0 <= r)
    ((λ i, Rsum ((λ j, (elem t2 i j - elem t1 i j) ^ 2) <$> js)) <$> rows).
Proof.
  apply List.Forall_forall. intros r Hr.
  apply (proj1 (in_map_iff _ _ _)) in Hr as (i & <- & _).
  apply Rsum_nonneg, row_sq_nonneg.
Qed.

Lemma frobenius_sq_nonneg t1 t2 : 0 <= frobenius_sq t1 t2.
Proof. apply Rsum_nonneg, rows_sq_nonneg. Qed.

Lemma frobenius_sq_member t1 t2 i j :
  (i < _h t1)%nat → (j < _w t1)%nat →
  (elem t2 i j - elem t1 i j) ^ 2 <= frobenius_sq t1 t2.
Proof.
  intros Hi Hj. unfold frobenius_sq.
  transitivity (Rsum ((λ j, (elem t2 i j - elem t1 i j) ^ 2)
                        <$> seq 0 (_w t1)));
    [|apply Rsum_member_le; [apply rows_sq_nonneg|]].
  - apply Rsum_member_le; [apply row_sq_nonneg|].
    apply in_map_iff. exists j. split; [reflexivity|].
    apply in_seq. lia.
  - apply in_map_iff. exists i. split; [reflexivity|]. apply in_seq. lia.
Qed.

Lemma frobenius_sq_sym t1 t2 :
  size t1 = size t2 → frobenius_sq t1 t2 = frobenius_sq t2 t1.
Proof.
  unfold size. intros [= Hh Hw]. unfold frobenius_sq.
  rewrite <- Hh, <- Hw. f_equal.
  apply list_fmap_ext. intros ? i _. f_equal.
  apply list_fmap_ext. intros ? j _. ring.
Qed.

Lemma frobenius_sq_zero t1 t2 :
  frobenius_sq t1 t2 = 0 ↔
  ∀ i j, (i < _h t1)%nat → (j < _w t1)%nat → elem t1 i j = elem t2 i j.
Proof.
  split.
  - intros H0 i j Hi Hj.
    pose proof (frobenius_sq_member t1 t2 i j Hi Hj) as Hle.
    rewrite H0 in Hle.
    pose proof (pow2_ge_0 (elem t2 i j - elem t1 i j)). nra.
  - intros Heq. unfold frobenius_sq. apply Rsum_zero.
    apply List.Forall_forall. intros r Hr.
    apply (proj1 (in_map_iff _ _ _)) in Hr as (i & <- & Hi).
    apply in_seq in Hi. apply Rsum_zero.
    apply List.Forall_forall. intros r Hr.
    apply (proj1 (in_map_iff _ _ _)) in Hr as (j & <- & Hj).
    apply in_seq in Hj. rewrite Heq by lia. ring.
Qed.

(** X7.  [frobenius] is a distance between tensors of one shape: the square
    root of the sum of the squared differences of corresponding elements,
    symmetric, and 0 exactly when all elements are equal; the distance
    from a tensor to itself is 0.  Between tensors of different shapes it
    raises [AssertionError]. *)
Theorem frobenius_is_a_distance (t1 t2 : Tensor) :
  well_formed t1 → well_formed t2 →
  (size t1 = size t2 →
     frobenius t1 t2 = Ok (sqrt (frobenius_sq t1 t2))
     ∧ frobenius t2 t1 = frobenius t1 t2
     ∧ (frobenius t1 t2 = Ok 0 ↔
          ∀ i j, (i < _h t1)%nat → (j < _w t1)%nat →
            elem t1 i j = elem t2 i j))
  ∧ (size t1 ≠ size t2 → frobenius t1 t2 = Raise AssertionError)
  ∧ frobenius t1 t1 = Ok 0.
Proof.
  intros W1 W2. split; [|split].
  - intros Hs. rewrite !frobenius_same_size by (auto; congruence).
    split; [reflexivity|]. split.
    + rewrite (frobenius_sq_sym t2 t1) by congruence. reflexivity.
    + rewrite <- frobenius_sq_zero. split.
      * intros [= H0]. apply sqrt_eq_0; [apply frobenius_sq_nonneg|exact H0].
      * intros ->. rewrite sqrt_0. reflexivity.
  - intros Hs. unfold frobenius, size in *.
    destruct (Nat.eqb_spec (_h t1) (_h t2)) as [Hh|]; [|reflexivity].
    destruct (Nat.eqb_spec (_w t1) (_w t2)) as [Hw|]; [|reflexivity].
    congruence.
  - rewrite frobenius_same_size by auto.
    rewrite (proj2 (frobenius_sq_zero t1 t1)) by reflexivity.
    rewrite sqrt_0. reflexivity.
Qed.

Lemma frobenius_is_a_distance_witness :
  frobenius (mkTensor 1 2 [1; 2]) (mkTensor 1 2 [1; 2]) = Ok 0
  ∧ frobenius (mkTensor 1 2 [1; 2]) (mkTensor 2 1 [1; 2])
    = Raise AssertionError.
Proof.
  destruct (frobenius_is_a_distance (mkTensor 1 2 [1; 2])
              (mkTensor 2 1 [1; 2]) eq_refl eq_refl) as (_ & Hbad & Hself).
  split; [exact Hself|]. apply Hbad. discriminate.
Defined.

(** ** Negation, normalisation and the Schatten norm *)

Lemma is_3x3_eta t :
  is_3x3 t →
  t = mkTensor 3 3 [elem t 0 0; elem t 0 1; elem t 0 2;
                    elem t 1 0; elem t 1 1; elem t 1 2;
                    elem t 2 0; elem t 2 1; elem t 2 2].
Proof.
  intros [Hwf Hs]. destruct t as [h w a]. unfold size, well_formed in *.
  cbn [_h _w _tensor] in *. injection Hs as -> ->.
  do 9 (destruct a as [|? a]; [discriminate|]).
  destruct a; [reflexivity|discriminate].
Qed.

Lemma Tensor_neg_wide t :
  well_formed t → (3 <= _h t)%nat → (3 <= _w t)%nat →
  Tensor_neg t
  = Ok (mkTensor 3 3 [- elem t 0 0; - elem t 0 1; elem t 0 2;
                      - elem t 1 0; - elem t 1 1; elem t 1 2;
                      - elem t 2 0; - elem t 2 1; elem t 2 2]).
Proof.
  intros Hwf Hh Hw. unfold Tensor_neg.
  change 0%Z with (Z.of_nat 0). change 1%Z with (Z.of_nat 1).
  change 2%Z with (Z.of_nat 2).
  rewrite !Tensor_getitem_nat by (auto; lia). reflexivity.
Qed.

Lemma Tensor_getitem_raises t i j e :
  Tensor_getitem t i j = Raise e → e = IndexError.
Proof.
  unfold Tensor_getitem, array_getitem.
  repeat match goal with
         | |- context [if ?b then _ else _] => destruct b
         | |- context [match ?o with Some _ => _ | None => _ end] =>
             destruct o
         end; congruence.
Qed.

Lemma Tensor_getitem_ok_range t i j v :
  Tensor_getitem t i j = Ok v →
  (- Z.of_nat (_h t) <= i < Z.of_nat (_h t))%Z
  ∧ (- Z.of_nat (_w t) <= j < Z.of_nat (_w t))%Z.
Proof.
  unfold Tensor_getitem.
  destruct (index_in_range i (_h t)) eqn:Ei; [|discriminate].
  destruct (index_in_range j (_w t)) eqn:Ej; [|discriminate].
  intros _. split; apply index_in_range_spec; assumption.
Qed.

Lemma column_raises t j e : column t j = Raise e → e = IndexError.
Proof.
  unfold column. intros H.
  destruct (Tensor_getitem t 0 j) eqn:E0; step in H;
    [|injection H as <-; eapply Tensor_getitem_raises; exact E0].
  destruct (Tensor_getitem t 1 j) eqn:E1; step in H;
    [|injection H as <-; eapply Tensor_getitem_raises; exact E1].
  destruct (Tensor_getitem t 2 j) eqn:E2; step in H;
    [|injection H as <-; eapply Tensor_getitem_raises; exact E2].
  discriminate.
Qed.

Lemma column_ok_range t j p :
  column t j = Ok p →
  (3 <= _h t)%nat ∧ (- Z.of_nat (_w t) <= j < Z.of_nat (_w t))%Z.
Proof.
  unfold column. intros H.
  destruct (Tensor_getitem t 0 j) eqn:E0; step in H; [|discriminate].
  destruct (Tensor_getitem t 1 j) eqn:E1; step in H; [|discriminate].
  destruct (Tensor_getitem t 2 j) eqn:E2; step in H; [|discriminate].
  apply Tensor_getitem_ok_range in E2 as [Hh Hw]. split; [lia|exact Hw].
Qed.

Lemma column_small t :
  (_h t < 3)%nat ∨ (_w t < 3)%nat →
  column t 0 = Raise IndexError ∨ column t 1 = Raise IndexError
  ∨ column t 2 = Raise IndexError.
Proof.
  intros Hsmall. destruct (column t 2) as [p|e] eqn:E2.
  - apply column_ok_range in E2. lia.
  - right. right. f_equal. eapply column_raises. exact E2.
Qed.

Lemma Point_magnitude_neg p : Point_magnitude (Point_neg p) = Point_magnitude p.
Proof.
  unfold Point_magnitude, Point_neg. cbn [x y z]. f_equal. ring.
Qed.

Lemma normalized_unit p : unit_vector p → normalized p = p.
Proof.
  unfold unit_vector, normalized. intros ->.
  apply Point_eq; cbn [x y z]; field.
Qed.

(** X9.  [__neg__] on a tensor with at least three rows and columns returns
    a 3x3 tensor: the first two columns of the top left block with their
    sign changed, the third kept.  The Schatten norm is unchanged.  On a
    3x3 tensor, negating twice gives the tensor back. *)
Theorem Tensor_neg_flips_two_columns (t : Tensor) :
  well_formed t → (3 <= _h t)%nat → (3 <= _w t)%nat →
  ∃ t' : Tensor,
    Tensor_neg t = Ok t' ∧ is_3x3 t'
    ∧ col t' 0 = Point_neg (col t 0)
    ∧ col t' 1 = Point_neg (col t 1)
    ∧ col t' 2 = col t 2
    ∧ schatten t' = Ok (schatten_norm t)
    ∧ (size t = (3%nat, 3%nat) → Tensor_neg t' = Ok t).
Proof.
  intros Hwf Hh Hw. eexists. split; [apply Tensor_neg_wide; assumption|].
  split; [split; reflexivity|].
  split; [reflexivity|]. split; [reflexivity|]. split; [reflexivity|].
  split.
  - rewrite schatten_3x3 by (split; reflexivity). f_equal.
    unfold schatten_norm.
    change (col (mkTensor 3 3 _) 0) with (Point_neg (col t 0)).
    change (col (mkTensor 3 3 _) 1) with (Point_neg (col t 1)).
    change (col (mkTensor 3 3 _) 2) with (col t 2).
    rewrite !Point_magnitude_neg. reflexivity.
  - intros Hs. rewrite Tensor_neg_3x3.
    rewrite (is_3x3_eta t) at 10 by (split; assumption).
    rewrite !Ropp_involutive. reflexivity.
Qed.

Lemma Tensor_neg_flips_two_columns_witness :
  ∃ t' : Tensor,
    Tensor_neg (mkTensor 3 3 [1; 2; 3; 4; 5; 6; 7; 8; 9]) = Ok t'
    ∧ col t' 2 = mkPoint 3 6 9.
Proof.
  destruct (Tensor_neg_flips_two_columns
              (mkTensor 3 3 [1; 2; 3; 4; 5; 6; 7; 8; 9]))
    as (t' & Hneg & _ & _ & _ & H2 & _).
  - reflexivity.
  - cbn. lia.
  - cbn. lia.
  - exists t'. split; [exact Hneg|exact H2].
Defined.

(** X10.  The operations meant for 3x3 tensors do not return on a smaller
    one: [__neg__] and [schatten] raise [IndexError]; [unit] raises
    [IndexError], or [ZeroDivisionError] when a column read before is
    zero. *)
Theorem small_tensors_raise_IndexError (t : Tensor) :
  (_h t < 3)%nat ∨ (_w t < 3)%nat →
  Tensor_neg t = Raise IndexError
  ∧ schatten t = Raise IndexError
  ∧ ∃ e, Tensor_unit t = Raise e
         ∧ (e = IndexError ∨ e = ZeroDivisionError).
Proof.
  intros Hsmall. split; [|split].
  - unfold Tensor_neg.
    repeat match goal with
           | |- context [Tensor_getitem t ?i ?j ≫= _] =>
               let E := fresh "E" in
               destruct (Tensor_getitem t i j) eqn:E; step;
                 [|f_equal; eapply Tensor_getitem_raises; exact E]
           end.
    apply Tensor_getitem_ok_range in E7. lia.
  - unfold schatten.
    repeat match goal with
           | |- context [column t ?j ≫= _] =>
               let E := fresh "E" in
               destruct (column t j) eqn:E; step;
                 [|f_equal; eapply column_raises; exact E]
           end.
    apply column_ok_range in E1. lia.
  - unfold Tensor_unit.
    assert (Hunit : ∀ p e, Point_unit p = Raise e → e = ZeroDivisionError).
    { intros p e. unfold Point_unit, pydiv.
      destruct (Req_dec_T _ _); cbn; congruence. }
    repeat match goal with
           | |- context [column t ?j ≫= _] =>
               let E := fresh "E" in
               destruct (column t j) eqn:E; step;
                 [|eexists; split;
                   [reflexivity|left; eapply column_raises; exact E]]
           | |- context [Point_unit ?p ≫= _] =>
               let E := fresh "E" in
               destruct (Point_unit p) eqn:E; step;
                 [|eexists; split;
                   [reflexivity|right; eapply Hunit; exact E]]
           end.
    apply column_ok_range in E3. lia.
Qed.

Lemma small_tensors_raise_IndexError_witness :
  Tensor_neg (mkTensor 2 2 [1; 2; 3; 4]) = Raise IndexError
  ∧ schatten (mkTensor 2 2 [1; 2; 3; 4]) = Raise IndexError.
Proof.
  destruct (small_tensors_raise_IndexError (mkTensor 2 2 [1; 2; 3; 4]))
    as (Hneg & Hs & _).
  - left. cbn. lia.
  - split; assumption.
Defined.

Lemma unit_tensor_of_idem t :
  nonzero_columns t → unit_tensor_of (unit_tensor_of t) = unit_tensor_of t.
Proof.
  intros (H0 & H1 & H2). unfold unit_tensor_of at 1. cbn zeta.
  change (col (unit_tensor_of t) 0) with (normalized (col t 0)).
  change (col (unit_tensor_of t) 1) with (normalized (col t 1)).
  change (col (unit_tensor_of t) 2) with (normalized (col t 2)).
  rewrite (normalized_unit (normalized (col t 0))),
    (normalized_unit (normalized (col t 1))),
    (normalized_unit (normalized (col t 2)))
    by (apply unit_vector_normalized; assumption).
  reflexivity.
Qed.

(** X11.  [unit] on a 3x3 tensor with non-zero columns returns the 3x3 tensor
    of the normalised columns: each column has magnitude 1, normalising
    again changes nothing, and the Schatten norm of the result is
    [sqrt 3].  With a zero column it raises [ZeroDivisionError]. *)
Theorem Tensor_unit_normalises_columns (t : Tensor) :
  is_3x3 t →
  (nonzero_columns t →
     ∃ u : Tensor,
       Tensor_unit t = Ok u ∧ is_3x3 u
       ∧ (∀ j, (j < 3)%nat →
            col u j = normalized (col t j) ∧ unit_vector (col u j))
       ∧ Tensor_unit u = Ok u
       ∧ schatten u = Ok (sqrt 3))
  ∧ (¬ nonzero_columns t → Tensor_unit t = Raise ZeroDivisionError).
Proof.
  intros H3. split.
  - intros Hnz. pose proof Hnz as (H0 & H1 & H2).
    exists (unit_tensor_of t).
    assert (Hcols : ∀ j, (j < 3)%nat →
              col (unit_tensor_of t) j = normalized (col t j)
              ∧ unit_vector (col (unit_tensor_of t) j)).
    { intros j Hj. destruct j as [|[|[|j]]]; [| | |lia];
        (split; [reflexivity|]);
        change (col (unit_tensor_of t) _) with (normalized (col t 0))
        || change (col (unit_tensor_of t) _) with (normalized (col t 1))
        || change (col (unit_tensor_of t) _) with (normalized (col t 2));
        apply unit_vector_normalized; assumption. }
    assert (Hnz' : nonzero_columns (unit_tensor_of t)).
    { repeat split; apply unit_vector_nonzero, Hcols; lia. }
    split; [apply Tensor_unit_3x3; assumption|].
    split; [split; reflexivity|]. split; [exact Hcols|]. split.
    + rewrite Tensor_unit_3x3; [|split; reflexivity|exact Hnz'].
      rewrite unit_tensor_of_idem by exact Hnz. reflexivity.
    + rewrite schatten_3x3 by (split; reflexivity). f_equal.
      unfold schatten_norm.
      rewrite (proj2 (Hcols 0%nat ltac:(lia))),
        (proj2 (Hcols 1%nat ltac:(lia))), (proj2 (Hcols 2%nat ltac:(lia))).
      f_equal. lra.
  - intros Hz. unfold Tensor_unit.
    rewrite column_0, column_1, column_2 by assumption. step.
    assert (Hraise : ∀ p, Point_magnitude p = 0 →
              Point_unit p = Raise ZeroDivisionError).
    { intros p Hp. unfold Point_unit. rewrite Hp, (pydiv_zero (x p)).
      reflexivity. }
    assert (Hmag : ∀ p, Point_magnitude p ≠ 0 → p ≠ origin).
    { intros p Hp ->. apply Hp. unfold Point_magnitude, origin.
      cbn [x y z]. replace (0 * 0 + 0 * 0 + 0 * 0) with 0 by ring.
      apply sqrt_0. }
    destruct (Req_dec_T (Point_magnitude (col t 0)) 0) as [E0|E0];
      [rewrite (Hraise _ E0); reflexivity|].
    rewrite (Point_unit_ok (col t 0)) by exact E0. step.
    destruct (Req_dec_T (Point_magnitude (col t 1)) 0) as [E1|E1];
      [rewrite (Hraise _ E1); reflexivity|].
    rewrite (Point_unit_ok (col t 1)) by exact E1. step.
    destruct (Req_dec_T (Point_magnitude (col t 2)) 0) as [E2|E2];
      [rewrite (Hraise _ E2); reflexivity|].
    exfalso. apply Hz. repeat split; apply Hmag; assumption.
Qed.

Lemma Tensor_unit_normalises_columns_witness :
  ∃ u : Tensor,
    Tensor_unit (mkTensor 3 3 [2; 0; 0; 0; 3; 0; 0; 0; 4]) = Ok u
    ∧ schatten u = Ok (sqrt 3).
Proof.
  destruct (Tensor_unit_normalises_columns
              (mkTensor 3 3 [2; 0; 0; 0; 3; 0; 0; 0; 4]))
    as [Hunit _]; [split; reflexivity|].
  destruct Hunit as (u & Hu & _ & _ & _ & Hs).
  - split; [|split]; intros H.
    + apply (f_equal x) in H. cbn in H. lra.
    + apply (f_equal y) in H. cbn in H. lra.
    + apply (f_equal z) in H. cbn in H. lra.
  - exists u. split; assumption.
Defined.

(** ** String representations *)

Lemma append_assoc (a b c : string) : (a +:+ b) +:+ c = a +:+ b +:+ c.
Proof.
  induction a as [|ch a IH]; [reflexivity|].
  change (String ch ((a +:+ b) +:+ c) = String ch (a +:+ b +:+ c)).
  f_equal. exact IH.
Qed.

Lemma append_nil_r (a : string) : a +:+ "" = a.
Proof.
  induction a as [|ch a IH]; [reflexivity|].
  change (String ch (a +:+ "") = String ch a). f_equal. exact IH.
Qed.

Lemma join_cons (sep s : string) (l : list string) :
  l ≠ [] → join sep (s :: l) = s +:+ sep +:+ join sep l.
Proof. destruct l; [contradiction|reflexivity]. Qed.

Lemma fmap_seq_nonempty {A} (f : nat → A) (k m : nat) :
  (0 < m)%nat → f <$> seq k m ≠ [].
Proof. destruct m; [lia|discriminate]. Qed.

Section ReprFacts.

Variable str : R → string.

Lemma repr_cols_square t (i k m : nat) (line : string) :
  well_formed t → _h t = _w t → (i < _h t)%nat → (k + m = _w t)%nat →
  repr_cols str t i (seq k m) line
  = Ok (line +:+ join ", " ((λ j, str (elem t i j)) <$> seq k m)).
Proof.
  intros Hwf Hsq Hi. revert k line.
  induction m as [|m IH]; intros k line Hkm.
  - cbn [seq repr_cols]. rewrite fmap_nil. cbn [join].
    rewrite append_nil_r. reflexivity.
  - cbn [seq repr_cols]. rewrite fmap_cons.
    rewrite (array_getitem_flat t i k) by (auto; lia). step.
    destruct (Z.ltb_spec (Z.of_nat k) (Z.of_nat (_h t) - 1)) as [Hlt|Hge].
    + rewrite IH by lia. f_equal.
      rewrite join_cons by (apply fmap_seq_nonempty; lia).
      rewrite !append_assoc. reflexivity.
    + destruct (Z.eqb_spec (Z.of_nat k) (Z.of_nat (_h t) - 1)) as [Heq|Hne];
        [|lia].
      destruct m as [|m]; [|lia]. reflexivity.
Qed.

Lemma repr_rows_square t indent (k m : nat) (line : string) :
  well_formed t → _h t = _w t → (k + m = _h t)%nat →
  repr_rows str t indent (seq k m) line
  = Ok (line +:+ join ("," +:+ String newline indent)
                   (row_text str t <$> seq k m)).
Proof.
  intros Hwf Hsq. revert k line.
  induction m as [|m IH]; intros k line Hkm.
  - cbn [seq repr_rows]. rewrite fmap_nil. cbn [join].
    rewrite append_nil_r. reflexivity.
  - cbn [seq repr_rows]. rewrite fmap_cons.
    rewrite (repr_cols_square t k 0 (_w t)) by (auto; lia). step.
    destruct (Z.ltb_spec (Z.of_nat k) (Z.of_nat (_w t) - 1)) as [Hlt|Hge].
    + rewrite IH by lia. f_equal.
      rewrite join_cons by (apply fmap_seq_nonempty; lia).
      unfold row_text. rewrite !append_assoc. reflexivity.
    + destruct (Z.eqb_spec (Z.of_nat k) (Z.of_nat (_w t) - 1)) as [Heq|Hne];
        [|lia].
      destruct m as [|m]; [|lia]. cbn [seq repr_rows]. rewrite fmap_nil.
      cbn [join]. unfold row_text. rewrite !append_assoc. reflexivity.
Qed.

(** X12.  On a square tensor [__repr__] and [__str__] write every element:
    each row in square brackets with a comma and a space between its
    elements, the rows separated by a comma, a line break and the
    indentation (8 spaces for [__repr__], 2 for [__str__]), all inside
    a parenthesised pair of square brackets, after the class name for
    [__repr__]. *)
Theorem Tensor_repr_square (name : string) (t : Tensor) :
  well_formed t → _h t = _w t →
  Tensor_repr str name t
  = Ok (name +:+ "([" +:+ matrix_text str "        " t +:+ "])")
  ∧ Tensor_str str t = Ok ("([" +:+ matrix_text str "  " t +:+ "])").
Proof.
  intros Hwf Hsq. unfold Tensor_repr, Tensor_str.
  rewrite !(repr_rows_square t _ 0 (_h t)) by (auto; lia). step.
  unfold matrix_text. rewrite !append_assoc. split; reflexivity.
Qed.

Lemma repr_cols_agree t1 t2 (i : nat) (js : list nat) (line : string) :
  well_formed t1 → well_formed t2 → size t1 = size t2 →
  agree_before (_h t1) t1 t2 → (i < _h t1)%nat →
  Forall (λ j, (j < _w t1)%nat) js →
  ∃ s, repr_cols str t1 i js line = Ok s
       ∧ repr_cols str t2 i js line = Ok s.
Proof.
  intros W1 W2 Hs Hagree Hi Hjs. unfold size in Hs. injection Hs as Hh Hw.
  revert line. induction Hjs as [|j js Hj _ IH]; intros line.
  - exists line. split; reflexivity.
  - cbn [repr_cols]. rewrite <- Hh, <- Hw.
    rewrite (array_getitem_flat t1 i j) by (auto; lia).
    rewrite (array_getitem_flat t2 i j) by (auto; lia). step.
    destruct (Z.ltb_spec (Z.of_nat j) (Z.of_nat (_h t1) - 1)) as [Hlt|Hge].
    + rewrite (Hagree i j) by lia. apply IH.
    + destruct (Z.eqb_spec (Z.of_nat j) (Z.of_nat (_h t1) - 1))
        as [Heq|Hne]; [|apply IH].
      rewrite (Hagree i j) by lia. apply IH.
Qed.

Lemma repr_rows_agree t1 t2 indent (rows : list nat) (line : string) :
  well_formed t1 → well_formed t2 → size t1 = size t2 →
  agree_before (_h t1) t1 t2 →
  Forall (λ i, (i < _h t1)%nat) rows →
  ∃ s, repr_rows str t1 indent rows line = Ok s
       ∧ repr_rows str t2 indent rows line = Ok s.
Proof.
  intros W1 W2 Hs Hagree Hrows. revert line.
  induction Hrows as [|i rows Hi _ IH]; intros line.
  - exists line. split; reflexivity.
  - cbn [repr_rows].
    destruct (repr_cols_agree t1 t2 i (seq 0 (_w t1)) (line +:+ "[")
                W1 W2 Hs Hagree Hi) as (s & H1 & H2).
    { apply List.Forall_forall. intros j Hj. apply in_seq in Hj. lia. }
    unfold size in Hs. injection Hs as Hh Hw.
    rewrite <- Hw, H1, H2. step. apply IH.
Qed.

(** X13.  [__repr__] and [__str__] test the column index against the number
    of rows: an element in a column [j >= h] is never written.  Two
    tensors of one shape that agree in the columns before [h] have the
    same representations, whatever the other columns hold. *)
Theorem Tensor_repr_ignores_columns_from_h (name : string)
    (t1 t2 : Tensor) :
  well_formed t1 → well_formed t2 → size t1 = size t2 →
  agree_before (_h t1) t1 t2 →
  ∃ s1 s2,
    Tensor_repr str name t1 = Ok s1 ∧ Tensor_repr str name t2 = Ok s1
    ∧ Tensor_str str t1 = Ok s2 ∧ Tensor_str str t2 = Ok s2.
Proof.
  intros W1 W2 Hs Hagree.
  assert (Hrows : Forall (λ i, (i < _h t1)%nat) (seq 0 (_h t1))).
  { apply List.Forall_forall. intros i Hi. apply in_seq in Hi. lia. }
  destruct (repr_rows_agree t1 t2 "        " _ (name +:+ "([")
              W1 W2 Hs Hagree Hrows) as (s1 & H1 & H2).
  destruct (repr_rows_agree t1 t2 "  " _ "(["
              W1 W2 Hs Hagree Hrows) as (s2 & H3 & H4).
  unfold Tensor_repr, Tensor_str. unfold size in Hs. injection Hs as Hh Hw.
  rewrite <- Hh, H1, H2, H3, H4. step.
  exists (s1 +:+ "])"), (s2 +:+ "])"). repeat split; reflexivity.
Qed.

End ReprFacts.

Lemma Tensor_repr_square_witness :
  Tensor_str (λ _, "x") (mkTensor 2 2 [1; 2; 3; 4])
  = Ok ("([[x, x]," +:+ String newline "  [x, x]])").
Proof.
  apply (Tensor_repr_square (λ _, "x") "Tensor"
           (mkTensor 2 2 [1; 2; 3; 4])); reflexivity.
Defined.

Lemma Tensor_repr_ignores_columns_from_h_witness :
  ∃ s : string,
    Tensor_str (λ _, "x") (mkTensor 1 2 [1; 2]) = Ok s
    ∧ Tensor_str (λ _, "x") (mkTensor 1 2 [1; 5]) = Ok s.
Proof.
  destruct (Tensor_repr_ignores_columns_from_h (λ _, "x") "Tensor"
              (mkTensor 1 2 [1; 2]) (mkTensor 1 2 [1; 5]))
    as (_ & s & _ & _ & H1 & H2).
  - reflexivity.
  - reflexivity.
  - reflexivity.
  - intros i j Hi Hj. cbn in Hi, Hj.
    destruct i as [|i]; [|lia]. destruct j as [|j]; [|lia]. reflexivity.
  - exists s. split; assumption.
Defined.

(** ** The camera constructor and the hull *)

Lemma avg_points_ok ps : ps ≠ [] → ∃ c, avg_points ps = Ok c.
Proof.
  intros Hne. unfold avg_points.
  assert (Hn : INR (length ps) ≠ 0).
  { apply not_0_INR. destruct ps; [contradiction|discriminate]. }
  rewrite !pydiv_ok by exact Hn. eexists. reflexivity.
Qed.

Lemma get_tensor_matrix_cases (gen : dict → dict → list Point)
    (cam_params : dict) (cam_pose : Pose) (d : dict) :
  let hull := gen d cam_params in
  (hull = [] →
     CameraTensor._get_tensor_matrix gen cam_params cam_pose d
     = Raise AssertionError)
  ∧ ((5 <= length hull <= 7)%nat →
     CameraTensor._get_tensor_matrix gen cam_params cam_pose d
     = Raise IndexError)
  ∧ ((8 <= length hull)%nat →
     ∃ a1 a2 a3 c,
       avg_points hull = Ok c ∧
       CameraTensor._get_tensor_matrix gen cam_params cam_pose d
       = Ok (columns_matrix a1 a2 a3, pose_map cam_pose c)).
Proof.
  intros hull. unfold CameraTensor._get_tensor_matrix. fold hull.
  split; [|split].
  - intros ->. reflexivity.
  - intros Hlen.
    destruct hull as [|p0 [|p1 [|p2 [|p3 [|p4 rest]]]]];
      cbn [length] in Hlen; try lia.
    rewrite bool_decide_eq_false_2 by discriminate.
    destruct (avg_points_ok (p0 :: p1 :: p2 :: p3 :: p4 :: rest))
      as [c ->]; [discriminate|]. step. cbn [drop].
    destruct (avg_points_ok (p4 :: rest)) as [far ->]; [discriminate|]. step.
    cbn [list_getitem nth_error]. step.
    destruct rest as [|p5 [|p6 [|p7 rest]]]; cbn [length] in Hlen;
      try reflexivity; lia.
  - intros Hlen.
    destruct hull as [|p0 [|p1 [|p2 [|p3 [|p4 [|p5 [|p6 [|p7 rest]]]]]]]]
      eqn:Ehull; cbn [length] in Hlen; try lia.
    rewrite bool_decide_eq_false_2 by discriminate.
    destruct (avg_points_ok
                (p0 :: p1 :: p2 :: p3 :: p4 :: p5 :: p6 :: p7 :: rest))
      as [c Hc]; [discriminate|]. rewrite Hc. step. cbn [drop].
    destruct (avg_points_ok (p4 :: p5 :: p6 :: p7 :: rest)) as [far ->];
      [discriminate|]. step.
    cbn [list_getitem nth_error]. step.
    destruct (avg_points_ok [p2; p3; p6; p7]) as [side ->]; [discriminate|].
    step.
    destruct (avg_points_ok [p0; p3; p4; p7]) as [top ->]; [discriminate|].
    step. eexists _, _, _, c. split; reflexivity.
Qed.

(** X14.  The camera constructor and the size of the hull.  The entries of
    the task parameters are written into the shared defaults before
    anything can fail.  With an empty hull the constructor raises
    [AssertionError]; with 5 to 7 points it raises [IndexError] when it
    reads [hull[6]] or [hull[7]]; with 8 points or more it returns a
    camera with a 3x3 tensor, the given pose, the filtered parameters, and
    as centre the centroid of the hull mapped by the pose. *)
Theorem CameraTensor_init_needs_eight_hull_points
    (gen_frustum_hull : dict → dict → list Point) (σ : store) (d : dict)
    (task_params params : dict) (cam_pose : Pose) :
  σ !! CameraTensor.defaults = Some d →
  let hull :=
    gen_frustum_hull (task_params ∪ d) (CameraTensor.init_params params) in
  let outcome :=
    CameraTensor.init gen_frustum_hull σ task_params params cam_pose in
  outcome.1 = <[CameraTensor.defaults := task_params ∪ d]> σ
  ∧ (hull = [] → outcome.2 = Raise AssertionError)
  ∧ ((5 <= length hull <= 7)%nat → outcome.2 = Raise IndexError)
  ∧ ((8 <= length hull)%nat →
       ∃ (cam : CameraTensor.t) (c : Point),
         outcome.2 = Ok cam
         ∧ is_3x3 (CameraTensor.tensor cam)
         ∧ CameraTensor.task_params cam = CameraTensor.defaults
         ∧ CameraTensor._params cam = CameraTensor.init_params params
         ∧ CameraTensor.pose cam = cam_pose
         ∧ avg_points hull = Ok c
         ∧ CameraTensor.centre cam = pose_map cam_pose c).
Proof.
  intros Hd hull outcome.
  split; [apply init_store; exact Hd|].
  destruct (get_tensor_matrix_cases gen_frustum_hull
              (CameraTensor.init_params params) cam_pose (task_params ∪ d))
    as (Hempty & Hshort & Hfull). fold hull in Hempty, Hshort, Hfull.
  assert (Hout : outcome.2
            = ('(matrix, centre) ←
                 CameraTensor._get_tensor_matrix gen_frustum_hull
                   (CameraTensor.init_params params) cam_pose
                   (task_params ∪ d);
               tensor ← Tensor_init matrix;
               Ok (CameraTensor.mk CameraTensor.defaults
                     (CameraTensor.init_params params) cam_pose centre
                     tensor))).
  { unfold outcome, CameraTensor.init, CameraTensor.update_params.
    rewrite Hd, update_fold_union, lookup_insert_eq. reflexivity. }
  rewrite Hout. split; [|split].
  - intros He. rewrite (Hempty He). reflexivity.
  - intros Hs. rewrite (Hshort Hs). reflexivity.
  - intros Hf. destruct (Hfull Hf) as (a1 & a2 & a3 & c & Hc & ->). step.
    rewrite Tensor_init_columns. step. eexists _, c.
    split; [reflexivity|]. split; [apply columns_tensor_3x3|].
    repeat split; [exact Hc].
Qed.

Lemma CameraTensor_init_needs_eight_hull_points_witness :
  (CameraTensor.init (λ _ _, []) initial_store ∅ ∅ tilted_pose).2
  = Raise AssertionError
  ∧ (CameraTensor.init (λ _ _, take 5 example_hull) initial_store ∅ ∅
       tilted_pose).2 = Raise IndexError.
Proof.
  destruct (CameraTensor_init_needs_eight_hull_points (λ _ _, [])
              initial_store CameraTensor.documented_defaults ∅ ∅ tilted_pose)
    as (_ & Hempty & _); [apply lookup_singleton_eq|].
  destruct (CameraTensor_init_needs_eight_hull_points
              (λ _ _, take 5 example_hull)
              initial_store CameraTensor.documented_defaults ∅ ∅ tilted_pose)
    as (_ & _ & Hshort & _); [apply lookup_singleton_eq|].
  split.
  - apply Hempty. reflexivity.
  - apply Hshort. cbn. lia.
Defined.

(** X15.  The camera parameters the constructor keeps: only keys of
    [param_keys], with the value given, except that the sensor pitch [s] never stays a
    single number; filtering the kept parameters again changes
    nothing. *)
Theorem init_params_keeps_known_keys (params : dict) :
  (∀ k v, CameraTensor.init_params params !! k = Some v →
          k ∈ CameraTensor.param_keys)
  ∧ (∀ k, k ∈ CameraTensor.param_keys → k ≠ "s" →
          CameraTensor.init_params params !! k = params !! k)
  ∧ (∀ v, CameraTensor.init_params params !! "s" = Some v →
          CameraTensor.is_number v = false)
  ∧ CameraTensor.init_params (CameraTensor.init_params params)
    = CameraTensor.init_params params.
Proof.
  assert (Hlook : ∀ (p : dict) k,
            CameraTensor.init_params p !! k
            = p !! k ≫= λ value,
                if bool_decide (k ∈ CameraTensor.param_keys)
                then Some (if bool_decide (k = "s")
                              && CameraTensor.is_number value
                           then VList [value; value] else value)
                else None).
  { intros p k. unfold CameraTensor.init_params. apply map_lookup_imap. }
  assert (Hkeys : ∀ k v, CameraTensor.init_params params !! k = Some v →
                         k ∈ CameraTensor.param_keys).
  { intros k v. rewrite Hlook. destruct (params !! k) as [value|]; cbn;
      [|discriminate].
    destruct (bool_decide_reflect (k ∈ CameraTensor.param_keys));
      [auto|discriminate]. }
  assert (Hs : ∀ v, CameraTensor.init_params params !! "s" = Some v →
                    CameraTensor.is_number v = false).
  { intros v. rewrite Hlook. destruct (params !! "s") as [value|]; cbn;
      [|discriminate].
    destruct (CameraTensor.is_number value) eqn:E; intros [= <-];
      [reflexivity|exact E]. }
  split; [exact Hkeys|]. split; [|split; [exact Hs|]].
  - intros k Hk Hne. rewrite Hlook. destruct (params !! k) as [value|]; cbn;
      [|reflexivity].
    rewrite bool_decide_eq_true_2 by exact Hk.
    rewrite (bool_decide_eq_false_2 (k = "s")) by exact Hne. reflexivity.
  - apply map_eq. intros k. rewrite (Hlook (CameraTensor.init_params params)).
    destruct (CameraTensor.init_params params !! k) as [v|] eqn:E; cbn;
      [|reflexivity].
    rewrite bool_decide_eq_true_2 by (eapply Hkeys; exact E).
    destruct (bool_decide_reflect (k = "s")) as [->|]; [|reflexivity].
    rewrite (Hs v E). reflexivity.
Qed.

(** ** Vision distance between cameras *)

Lemma unit_frobenius_sym t o : unit_frobenius t o = unit_frobenius o t.
Proof.
  unfold unit_frobenius. rewrite !Point_euclidean_sqr.
  cbn [Point_neg x y z]. f_equal. ring.
Qed.

Lemma unit_frobenius_nonneg t o : 0 <= unit_frobenius t o.
Proof. apply sqrt_pos. Qed.

Lemma Point_euclidean_comm p q : Point_euclidean p q = Point_euclidean q p.
Proof.
  unfold Point_euclidean, Point_magnitude, Point_sub. cbn [x y z].
  f_equal. ring.
Qed.

Lemma Point_euclidean_nonneg p q : 0 <= Point_euclidean p q.
Proof. apply Point_magnitude_nonneg. Qed.

(** X17.  [vision_distance] between two cameras is symmetric.  It is at
    least the distance of the centres plus [1e-4] when the Frobenius
    distance [frob] of the unit bases is below [sqrt 8], it is [-1] when
    [frob = sqrt 8], and it is negative when [frob > sqrt 8], which
    happens (two cameras that differ in the sign of the third axis). *)
Theorem vision_distance_sign (self other : CameraTensor.t) :
  is_3x3 (CameraTensor.tensor self) → is_3x3 (CameraTensor.tensor other) →
  nonzero_columns (CameraTensor.tensor self) →
  nonzero_columns (CameraTensor.tensor other) →
  let euc :=
    Point_euclidean (CameraTensor.centre self) (CameraTensor.centre other) in
  let frob :=
    unit_frobenius (CameraTensor.tensor self) (CameraTensor.tensor other) in
  ∃ r : R,
    CameraTensor.vision_distance self other = Ok r
    ∧ CameraTensor.vision_distance other self = Ok r
    ∧ (frob < sqrt 8 → euc + 1e-4 <= r)
    ∧ (frob = sqrt 8 → r = -1)
    ∧ (sqrt 8 < frob → r < 0).
Proof.
  intros Hs Ho Hsn Hon euc frob.
  rewrite !vision_distance_3x3 by assumption.
  cbn [tensor_of centre_of CameraTensor.tensor_like].
  rewrite (unit_frobenius_sym (CameraTensor.tensor other)),
    (Point_euclidean_comm (CameraTensor.centre other)).
  fold euc frob.
  pose proof sqrt_8_pos as H8.
  pose proof (Point_euclidean_nonneg (CameraTensor.centre self)
                (CameraTensor.centre other)) as Heuc. fold euc in Heuc.
  pose proof (unit_frobenius_nonneg (CameraTensor.tensor self)
                (CameraTensor.tensor other)) as Hfrob. fold frob in Hfrob.
  assert (Hq : 0 <= frob / sqrt 8) by (apply div_nonneg; assumption).
  destruct (Req_dec_T (1 - frob / sqrt 8) 0) as [Hz|Hnz].
  - rewrite Hz, pydiv_zero. exists (-1).
    assert (Heq : frob = sqrt 8).
    { assert (frob / sqrt 8 = 1) as H1 by lra.
      apply (f_equal (λ v, v * sqrt 8)) in H1.
      unfold Rdiv in H1. rewrite Rmult_assoc, Rinv_l in H1 by lra. lra. }
    repeat split; intros; lra.
  - rewrite pydiv_ok by exact Hnz. eexists. split; [reflexivity|].
    split; [reflexivity|]. split; [|split].
    + intros Hlt.
      assert (Hd : 0 < 1 - frob / sqrt 8 <= 1).
      { split; [|lra].
        assert (frob / sqrt 8 < 1); [|lra].
        apply (Rmult_lt_reg_r (sqrt 8)); [exact H8|].
        unfold Rdiv. rewrite Rmult_assoc, Rinv_l by lra. lra. }
      assert (Hinv : 1 <= 1 / (1 - frob / sqrt 8)).
      { apply (Rmult_le_reg_r (1 - frob / sqrt 8)); [lra|].
        unfold Rdiv. rewrite Rmult_assoc, Rinv_l by lra. lra. }
      nra.
    + intros Heq. exfalso. apply Hnz. rewrite Heq. field. lra.
    + intros Hgt.
      assert (Hd : 1 - frob / sqrt 8 < 0).
      { assert (1 < frob / sqrt 8); [|lra].
        apply (Rmult_lt_reg_r (sqrt 8)); [exact H8|].
        unfold Rdiv. rewrite Rmult_assoc, Rinv_l by lra. lra. }
      assert (Hinv : 1 / (1 - frob / sqrt 8) < 0).
      { unfold Rdiv. rewrite Rmult_1_l. apply Rinv_lt_0_compat. exact Hd. }
      nra.
Qed.

Lemma axes_camera_columns : nonzero_columns (CameraTensor.tensor axes_camera).
Proof.
  split; [|split]; intros H.
  - apply (f_equal x) in H. cbn in H. lra.
  - apply (f_equal y) in H. cbn in H. lra.
  - apply (f_equal z) in H. cbn in H. lra.
Qed.

Lemma mirrored_camera_columns :
  nonzero_columns (CameraTensor.tensor mirrored_camera).
Proof.
  split; [|split]; intros H.
  - apply (f_equal x) in H. cbn in H. lra.
  - apply (f_equal y) in H. cbn in H. lra.
  - apply (f_equal z) in H. cbn in H. lra.
Qed.

Lemma mirrored_frobenius :
  unit_frobenius (CameraTensor.tensor axes_camera)
    (CameraTensor.tensor mirrored_camera) = sqrt 12.
Proof.
  assert (Hunit : ∀ p, x p * x p + y p * y p + z p * z p = 1 →
                       normalized p = p).
  { intros p Hp. apply normalized_unit, Point_magnitude_eq; lra. }
  unfold unit_frobenius.
  rewrite !Hunit by (unfold col, elem; cbn; lra).
  rewrite !Point_euclidean_sqr. unfold col, elem. cbn. f_equal. lra.
Qed.

Lemma vision_distance_sign_witness :
  ∃ r : R,
    CameraTensor.vision_distance axes_camera mirrored_camera = Ok r ∧ r < 0.
Proof.
  destruct (vision_distance_sign axes_camera mirrored_camera)
    as (r & Hr & _ & _ & _ & Hneg).
  - split; reflexivity.
  - split; reflexivity.
  - exact axes_camera_columns.
  - exact mirrored_camera_columns.
  - exists r. split; [exact Hr|]. apply Hneg.
    rewrite mirrored_frobenius. apply sqrt_lt_1; lra.
Defined.

(** ** The mutators of a camera *)

Lemma rebuild_cases (gen : dict → dict → list Point) (σ : store)
    (self : CameraTensor.t) (d : dict) :
  σ !! CameraTensor.task_params self = Some d →
  let hull := gen d (CameraTensor._params self) in
  let outcome := CameraMutators.rebuild gen σ self in
  (hull = [] → outcome = (self, Raise AssertionError))
  ∧ ((5 <= length hull <= 7)%nat → outcome = (self, Raise IndexError))
  ∧ ((8 <= length hull)%nat →
       ∃ (tensor : Tensor) (c : Point),
         avg_points hull = Ok c ∧ is_3x3 tensor ∧
         outcome
         = (CameraTensor.mk (CameraTensor.task_params self)
              (CameraTensor._params self) (CameraTensor.pose self)
              (pose_map (CameraTensor.pose self) c) tensor, Ok ())).
Proof.
  intros Hd hull outcome.
  destruct (get_tensor_matrix_cases gen (CameraTensor._params self)
              (CameraTensor.pose self) d) as (Hempty & Hshort & Hfull).
  fold hull in Hempty, Hshort, Hfull.
  unfold outcome, CameraMutators.rebuild. rewrite Hd. cbn [from_option].
  step. split; [|split].
  - intros He. rewrite (Hempty He). reflexivity.
  - intros Hs. rewrite (Hshort Hs). reflexivity.
  - intros Hf. destruct (Hfull Hf) as (a1 & a2 & a3 & c & Hc & ->).
    rewrite Tensor_init_columns. eexists _, c. split; [exact Hc|].
    split; [apply columns_tensor_3x3|reflexivity].
Qed.

(** X19.  Every mutator of a camera ([setparam], [set_absolute_pose],
    [set_relative_pose], [set_mount]) runs the [Camera] method and then
    recomputes centre and tensor.  When the method raises nothing is
    recomputed.  When the hull is then empty, or has 5 to 7 points, the
    mutator raises and leaves the camera as the [Camera] method left it:
    the change is made, the tensor and the centre are not recomputed.  With 8 points or more it returns,
    with a 3x3 tensor and the centroid of the hull mapped by the current
    pose as centre. *)
Theorem CameraTensor_mutators_rebuild_or_leave_stale
    (gen_frustum_hull : dict → dict → list Point)
    (camera_method : CameraTensor.t → CameraTensor.t * result ())
    (σ : store) (self self' : CameraTensor.t) (d : dict) :
  σ !! CameraTensor.task_params self' = Some d →
  let hull := gen_frustum_hull d (CameraTensor._params self') in
  let outcome :=
    CameraMutators.mutate gen_frustum_hull camera_method σ self in
  (∀ e, camera_method self = (self', Raise e) → outcome = (self', Raise e))
  ∧ (camera_method self = (self', Ok ()) →
       (hull = [] → outcome = (self', Raise AssertionError))
       ∧ ((5 <= length hull <= 7)%nat → outcome = (self', Raise IndexError))
       ∧ ((8 <= length hull)%nat →
            ∃ (cam : CameraTensor.t) (c : Point),
              outcome = (cam, Ok ())
              ∧ is_3x3 (CameraTensor.tensor cam)
              ∧ CameraTensor.task_params cam = CameraTensor.task_params self'
              ∧ CameraTensor._params cam = CameraTensor._params self'
              ∧ CameraTensor.pose cam = CameraTensor.pose self'
              ∧ avg_points hull = Ok c
              ∧ CameraTensor.centre cam
                = pose_map (CameraTensor.pose self') c)).
Proof.
  intros Hd hull outcome. unfold outcome, CameraMutators.mutate. split.
  - intros e ->. reflexivity.
  - intros ->.
    destruct (rebuild_cases gen_frustum_hull σ self' d Hd)
      as (Hempty & Hshort & Hfull).
    split; [exact Hempty|]. split; [exact Hshort|].
    intros Hf. destruct (Hfull Hf) as (tensor & c & Hc & H3 & ->).
    eexists _, c. split; [reflexivity|]. split; [exact H3|].
    repeat split; [exact Hc].
Qed.

Lemma CameraTensor_mutators_rebuild_or_leave_stale_witness :
  CameraMutators.mutate (λ _ _, [])
    (λ cam, (CameraTensor.mk (CameraTensor.task_params cam)
               (CameraTensor._params cam) identity_pose
               (CameraTensor._frustum_centre cam) (CameraTensor.tensor cam),
             Ok ()))
    initial_store example_camera_tilted
  = (CameraTensor.mk CameraTensor.defaults ∅ identity_pose
       (CameraTensor._frustum_centre example_camera_tilted)
       (CameraTensor.tensor example_camera_tilted),
     Raise AssertionError).
Proof.
  destruct (CameraTensor_mutators_rebuild_or_leave_stale (λ _ _, [])
              (λ cam, (CameraTensor.mk (CameraTensor.task_params cam)
                         (CameraTensor._params cam) identity_pose
                         (CameraTensor._frustum_centre cam)
                         (CameraTensor.tensor cam), Ok ()))
              initial_store example_camera_tilted
              (CameraTensor.mk CameraTensor.defaults ∅ identity_pose
                 (CameraTensor._frustum_centre example_camera_tilted)
                 (CameraTensor.tensor example_camera_tilted))
              CameraTensor.documented_defaults)
    as (_ & Hok); [apply lookup_singleton_eq|].
  destruct Hok as (Hempty & _); [reflexivity|].
  apply Hempty. reflexivity.
Defined.

Lemma get_tensor_matrix_other_pose (gen : dict → dict → list Point)
    (cam_params d : dict) (pose1 pose2 : Pose) matrix centre :
  CameraTensor._get_tensor_matrix gen cam_params pose1 d
    = Ok (matrix, centre) →
  ∃ matrix' centre',
    CameraTensor._get_tensor_matrix gen cam_params pose2 d
    = Ok (matrix', centre').
Proof.
  unfold CameraTensor._get_tensor_matrix.
  destruct (bool_decide _); [discriminate|].
  intros H. repeat bind_inv H. eexists _, _. step.
  repeat (match goal with
          | E : ?m = Ok _ |- context [?m] => rewrite E
          end; step).
  reflexivity.
Qed.

(** X20.  Setting the pose of a constructed camera gives the camera the
    constructor builds with that pose: when [Camera.set_absolute_pose]
    stores the pose and changes nothing else, [set_absolute_pose] returns
    and leaves the same camera as a fresh construction from the same
    parameters. *)
Theorem set_absolute_pose_is_reconstruction
    (gen_frustum_hull : dict → dict → list Point)
    (Camera_set_absolute_pose :
       Pose → CameraTensor.t → CameraTensor.t * result ())
    (σ : store) (task_params params : dict) (pose0 value : Pose)
    (cam : CameraTensor.t) :
  let built :=
    CameraTensor.init gen_frustum_hull σ task_params params pose0 in
  built.2 = Ok cam →
  Camera_set_absolute_pose value cam
  = (CameraTensor.mk (CameraTensor.task_params cam)
       (CameraTensor._params cam) value
       (CameraTensor._frustum_centre cam) (CameraTensor.tensor cam),
     Ok ()) →
  ∃ cam' : CameraTensor.t,
    CameraMutators.set_absolute_pose gen_frustum_hull
      Camera_set_absolute_pose built.1 cam value = (cam', Ok ())
    ∧ CameraTensor.init gen_frustum_hull σ task_params params value
      = (built.1, Ok cam').
Proof.
  intros built Hbuilt Hmethod.
  unfold CameraMutators.set_absolute_pose, CameraMutators.mutate.
  rewrite Hmethod. unfold CameraMutators.rebuild.
  cbn [CameraTensor.task_params CameraTensor._params CameraTensor.pose].
  unfold built, CameraTensor.init in *.
  destruct (CameraTensor.update_params _ _ _) as [σ'|]; cbn [fst snd] in *;
    [|discriminate].
  destruct (σ' !! CameraTensor.defaults) as [d|] eqn:Ed;
    cbn [from_option] in Hbuilt; [|discriminate]. step in Hbuilt.
  destruct (CameraTensor._get_tensor_matrix _ _ pose0 _)
    as [[matrix centre]|] eqn:E0; step in Hbuilt; [|discriminate].
  destruct (Tensor_init matrix) as [tensor|]; step in Hbuilt; [|discriminate].
  injection Hbuilt as <-.
  cbn [CameraTensor.task_params CameraTensor._params].
  rewrite Ed. cbn [from_option]. step.
  destruct (get_tensor_matrix_other_pose _ _ _ _ value _ _ E0)
    as (matrix' & centre' & E1).
  rewrite E1. step.
  assert (H3 : ∃ tensor', Tensor_init matrix' = Ok tensor').
  { unfold CameraTensor._get_tensor_matrix in E1.
    destruct (bool_decide _); [discriminate|].
    repeat bind_inv E1. injection E1 as <- <-.
    rewrite Tensor_init_columns. eexists. reflexivity. }
  destruct H3 as [tensor' ->]. step. eexists. split; reflexivity.
Qed.

Lemma set_absolute_pose_is_reconstruction_witness :
  ∃ cam' : CameraTensor.t,
    CameraMutators.set_absolute_pose (λ _ _, example_hull)
      (λ value cam,
         (CameraTensor.mk (CameraTensor.task_params cam)
            (CameraTensor._params cam) value
            (CameraTensor._frustum_centre cam) (CameraTensor.tensor cam),
          Ok ()))
      initial_store example_camera_tilted identity_pose = (cam', Ok ())
    ∧ CameraTensor.init (λ _ _, example_hull) initial_store ∅ ∅
        identity_pose = (initial_store, Ok cam').
Proof.
  pose proof (set_absolute_pose_is_reconstruction (λ _ _, example_hull)
                (λ value cam,
                   (CameraTensor.mk (CameraTensor.task_params cam)
                      (CameraTensor._params cam) value
                      (CameraTensor._frustum_centre cam)
                      (CameraTensor.tensor cam), Ok ()))
                initial_store ∅ ∅ tilted_pose identity_pose
                example_camera_tilted) as H.
  rewrite example_camera_tilted_built in H. cbn [fst snd] in H.
  apply H; reflexivity.
Defined.

(** ** The maximum over all views, and the order of the views *)

(** X21.  The early exit of [TensorModel.strength] loses nothing.  When
    every view names at least one camera and every camera has a strength,
    the value returned is the maximum, from 0.0, over all views of the
    enumeration, also those after the view at which the loop stops. *)
Theorem TensorModel_strength_is_max_over_all_views {occluder : Type}
    (cameras : gmap string CameraTensor.t)
    (views : option (gset string) → list (list string))
    (occluded : Point → string → list occluder → bool)
    (triangle : TriangleTensor.t) (triangle_set : list occluder)
    (subset : option (gset string)) (cam_strength : string → R) :
  strengths_defined cameras triangle cam_strength (views subset) →
  (∀ view, In view (views subset) → view ≠ []) →
  let value_of :=
    Aggregation.view_value cam_strength
      (occluded_from occluded triangle triangle_set) in
  ∃ value : pyfloat,
    (TensorModel.strength occluder cameras views occluded
       triangle triangle_set subset []).1 = Ok value
    ∧ value = fold_left pymax (value_of <$> views subset) (Fin 0)
    ∧ (∀ view, In view (views subset) →
         pyfloat_leb (value_of view) value = true)
    ∧ (value = Fin 0 ∨ ∃ view, In view (views subset) ∧ value = value_of view).
Proof.
  intros Hdef Hne value_of. eexists.
  split; [apply (strength_over_all_views _ _ _ _ _ _ cam_strength Hdef Hne)|].
  split; [reflexivity|]. fold value_of.
  destruct (fold_pymax_is_maximum (value_of <$> views subset) (Fin 0) I)
    as (_ & _ & Hupper & Hatt).
  { apply List.Forall_forall. intros a Ha.
    apply (proj1 (in_map_iff _ _ _)) in Ha as (view & <- & _).
    apply view_value_real_or_inf. }
  split.
  - intros view Hin. apply Hupper, in_map. exact Hin.
  - destruct Hatt as [-> | Hin]; [left; reflexivity|right].
    apply (proj1 (in_map_iff _ _ _)) in Hin as (view & Hv & Hin). eauto.
Qed.

Lemma TensorModel_strength_is_max_over_all_views_witness :
  ∃ value : pyfloat,
    (TensorModel.strength unit {["cam" := example_camera_tilted]}
       (λ _, [["cam"]]) (λ _ _ _, false) example_triangle [] None []).1
    = Ok value
    ∧ pyfloat_leb
        (Aggregation.view_value
           (λ _, strength_value example_camera_tilted example_triangle)
           (occluded_from (λ _ _ _, false) example_triangle (@nil unit))
           ["cam"])
        value = true.
Proof.
  destruct (TensorModel_strength_is_max_over_all_views
              {["cam" := example_camera_tilted]} (λ _, [["cam"]])
              (λ _ _ _, false) example_triangle (@nil unit) None
              (λ _, strength_value example_camera_tilted example_triangle)
              example_strengths_defined)
    as (value & Hrun & _ & Hupper & _).
  - intros view [<- | []]. discriminate.
  - exists value. split; [exact Hrun|]. apply Hupper. left. reflexivity.
Defined.

(** X22.  The result of [TensorModel.strength] does not depend on the order
    of the views, nor on repetitions: two enumerations with the same
    non-empty views give the same value. *)
Theorem TensorModel_strength_view_order_irrelevant {occluder : Type}
    (cameras : gmap string CameraTensor.t)
    (views1 views2 : option (gset string) → list (list string))
    (occluded : Point → string → list occluder → bool)
    (triangle : TriangleTensor.t) (triangle_set : list occluder)
    (subset1 subset2 : option (gset string)) (cam_strength : string → R) :
  strengths_defined cameras triangle cam_strength (views1 subset1) →
  (∀ view, In view (views1 subset1) → view ≠ []) →
  same_views (views1 subset1) (views2 subset2) →
  (TensorModel.strength occluder cameras views1 occluded
     triangle triangle_set subset1 []).1
  = (TensorModel.strength occluder cameras views2 occluded
       triangle triangle_set subset2 []).1.
Proof.
  intros Hdef Hne Hsame.
  assert (Hdef2 : strengths_defined cameras triangle cam_strength
                    (views2 subset2)).
  { intros view camera Hview Hc. apply (Hdef view camera); [|exact Hc].
    apply Hsame, Hview. }
  assert (Hne2 : ∀ view, In view (views2 subset2) → view ≠ []).
  { intros view Hview. apply Hne, Hsame, Hview. }
  rewrite (strength_over_all_views _ _ _ _ _ _ cam_strength Hdef Hne),
    (strength_over_all_views _ _ _ _ _ _ cam_strength Hdef2 Hne2).
  f_equal. apply fold_pymax_same_views; [|exact Hsame].
  eapply views_in_unit_interval; eassumption.
Qed.

Lemma TensorModel_strength_view_order_irrelevant_witness :
  (TensorModel.strength unit {["cam" := example_camera_tilted]}
     (λ _, [["cam"]]) (λ _ _ _, false) example_triangle [] None []).1
  = (TensorModel.strength unit {["cam" := example_camera_tilted]}
       (λ _, [["cam"]; ["cam"]]) (λ _ _ _, false) example_triangle []
       None []).1.
Proof.
  apply (TensorModel_strength_view_order_irrelevant
           {["cam" := example_camera_tilted]} (λ _, [["cam"]])
           (λ _, [["cam"]; ["cam"]])
           (λ _ _ _, false) example_triangle (@nil unit) None None
           (λ _, strength_value example_camera_tilted example_triangle)
           example_strengths_defined).
  - intros view [<- | []]. discriminate.
  - intros view. cbn. tauto.
Defined.

(** ** The coverage cache and the range of the performance *)

Lemma cache_setitem_In (cache : PointCache) point value k v :
  In (k, v) (cache_setitem cache point value) →
  In (k, v) cache ∨ (k = point ∧ v = value).
Proof.
  induction cache as [|[k' v'] rest IH]; cbn [cache_setitem].
  - intros [[= <- <-] | []]. right. split; reflexivity.
  - destruct (decide (k' = point)) as [->|Hne].
    + intros [[= <- <-] | Hin]; [right; split; reflexivity|].
      left. right. exact Hin.
    + intros [Heq | Hin]; [left; left; exact Heq|].
      destruct (IH Hin) as [Hrest | Hnew]; [left; right; exact Hrest|].
      right. exact Hnew.
Qed.

Lemma cache_setitem_length (cache : PointCache) point value :
  (length cache <= length (cache_setitem cache point value)
   <= S (length cache))%nat
  ∧ cache_setitem cache point value ≠ [].
Proof.
  induction cache as [|[k' v'] rest IH]; cbn [cache_setitem].
  - split; [cbn; lia|discriminate].
  - destruct (decide (k' = point)); cbn [length];
      (split; [lia|discriminate]).
Qed.

Section CoverageFacts.

Context {occluder : Type}.
Variable cameras : gmap string CameraTensor.t.
Variable views : option (gset string) → list (list string).
Variable occluded : Point → string → list occluder → bool.
Variable scene_triangles : list occluder.
Variable Point_angle : Point → Point → R.
Variable atan2 : R → R → R.

Local Abbreviation coverage_loop :=
  (TensorModel.coverage_loop occluder cameras views occluded scene_triangles
     Point_angle atan2).
Local Abbreviation coverage :=
  (TensorModel.coverage occluder cameras views occluded scene_triangles
     Point_angle atan2).
Local Abbreviation performance :=
  (TensorModel.performance occluder cameras views occluded scene_triangles
     Point_angle atan2).
Local Abbreviation strength_of :=
  (λ triangle subset,
     (TensorModel.strength occluder cameras views occluded triangle
        scene_triangles subset []).1).

Lemma coverage_loop_entries triangles subset (acc cache : PointCache) :
  coverage_loop triangles subset acc = Ok cache →
  (length acc <= length cache <= length acc + length triangles)%nat
  ∧ (triangles ≠ [] → cache ≠ [])
  ∧ ∀ k v, In (k, v) cache →
      In (k, v) acc
      ∨ ∃ triangle, In triangle triangles
          ∧ point_of Point_angle atan2 triangle = Ok k
          ∧ strength_of triangle subset = Ok v.
Proof.
  revert acc. induction triangles as [|triangle rest IH]; intros acc.
  - cbn. intros [= <-]. split; [lia|]. split; [congruence|]. auto.
  - cbn [TensorModel.coverage_loop].
    destruct (TriangleTensor.axis triangle) as [a|] eqn:Ea; [|discriminate].
    step.
    destruct (TensorModel.strength _ _ _ _ _ _ _ _).1 as [s|] eqn:Es;
      [|discriminate].
    step. intros Hloop. destruct (IH _ Hloop) as (Hlen & _ & Hentries).
    destruct (cache_setitem_length acc
                (mkDirectionalPoint (x (TriangleTensor.centre triangle))
                   (y (TriangleTensor.centre triangle))
                   (z (TriangleTensor.centre triangle))
                   (Point_angle a (mkPoint 0 0 1)) (atan2 (y a) (x a))) s)
      as (Hset & Hne).
    split; [cbn [length]; lia|]. split.
    + intros _ ->. cbn [length] in Hlen.
      destruct (cache_setitem _ _ _); [contradiction|cbn in Hlen; lia].
    + intros k v Hin. destruct (Hentries k v Hin) as [Hacc | Hrest].
      * apply cache_setitem_In in Hacc as [Hacc | [-> ->]];
          [left; exact Hacc|].
        right. exists triangle. split; [apply in_eq|].
        unfold point_of. rewrite Ea. split; [reflexivity|exact Es].
      * destruct Hrest as (t' & Hin' & Hp & Hs). right. exists t'.
        split; [apply in_cons; exact Hin'|]. split; assumption.
Qed.

(** X23.  What [coverage] returns: a cache with distinct keys, at most one per
    triangle of the object and not empty unless the object has no
    triangle, where every key is the directional point of a triangle of
    the object (its centre, with the angles of its axis) and the value is
    the strength of such a triangle. *)
Theorem TensorModel_coverage_entries
    (object_triangles : list TriangleTensor.t)
    (subset : option (gset string)) (cache : PointCache) :
  coverage object_triangles subset = Ok cache →
  NoDup (cache_keys cache)
  ∧ (length cache <= length object_triangles)%nat
  ∧ (object_triangles ≠ [] → cache ≠ [])
  ∧ ∀ k v, In (k, v) cache →
      ∃ triangle, In triangle object_triangles
        ∧ point_of Point_angle atan2 triangle = Ok k
        ∧ strength_of triangle subset = Ok v.
Proof.
  unfold TensorModel.coverage. intros Hcov.
  destruct (coverage_loop_entries _ _ _ _ Hcov) as (Hlen & Hne & Hentries).
  split.
  { eapply coverage_loop_NoDup; [|exact Hcov]. apply NoDup_nil_2. }
  split; [cbn [length] in Hlen; lia|]. split; [exact Hne|].
  intros k v Hin. destruct (Hentries k v Hin) as [[] | Hfound].
  exact Hfound.
Qed.

Lemma unit_values_real (values : list pyfloat) :
  Forall in_unit_interval values →
  ∃ rs, values = Fin <$> rs ∧ Forall (λ r, 0 <= r <= 1) rs.
Proof.
  induction 1 as [|v rest Hv _ (rs & -> & Hrs)].
  - exists []. split; [reflexivity|constructor].
  - destruct v as [r| | |]; try contradiction.
    exists (r :: rs). split; [reflexivity|]. constructor; assumption.
Qed.

Lemma Rsum_unit_bounds (rs : list R) :
  Forall (λ r, 0 <= r <= 1) rs → 0 <= Rsum rs <= INR (length rs).
Proof.
  induction 1 as [|r rest Hr _ IH].
  - cbn. lra.
  - unfold Rsum in *. cbn [fold_right]. rewrite length_cons, S_INR. lra.
Qed.

Lemma cache_mean_unit (cache : PointCache) :
  cache ≠ [] → Forall in_unit_interval cache.*2 →
  ∃ m, cache_mean cache = Ok (Fin m) ∧ 0 <= m <= 1.
Proof.
  intros Hne Hall.
  destruct (cache_mean_nonempty cache Hne) as (m & Hmean & Hreal).
  destruct (unit_values_real _ Hall) as (rs & Hrs & Hbounds).
  rewrite (Hreal rs Hrs) in Hmean. eexists. split; [exact Hmean|].
  pose proof (Rsum_unit_bounds rs Hbounds) as Hsum.
  assert (Hlen : length rs = length cache).
  { apply (f_equal length) in Hrs. rewrite !length_fmap in Hrs. auto. }
  rewrite Hlen in Hsum.
  assert (Hn : 0 < INR (length cache)).
  { apply lt_0_INR. destruct cache; [contradiction|cbn; lia]. }
  split; [apply div_nonneg; lra|].
  apply (Rmult_le_reg_r (INR (length cache))); [exact Hn|].
  unfold Rdiv. rewrite Rmult_assoc, Rinv_l by lra. lra.
Qed.

(** X24.  [performance] of a given non-empty cache whose values are all in
    [0, 1] is a real number in [0, 1]. *)
Theorem TensorModel_performance_of_unit_cache
    (object_triangles : list TriangleTensor.t)
    (subset : option (gset string)) (cache : PointCache) :
  cache ≠ [] → NoDup (cache_keys cache) →
  Forall in_unit_interval cache.*2 →
  ∃ m : R,
    performance object_triangles subset (Some cache) = Ok (Fin m)
    ∧ 0 <= m <= 1.
Proof.
  intros Hne Hnd Hall. rewrite performance_given by assumption.
  apply cache_mean_unit; assumption.
Qed.

(** X25.  [performance] computed from [coverage] is in [0, 1]: for an object
    with at least one triangle, when [coverage] returns, every view names
    a camera, and every camera has a strength towards every triangle of
    the object. *)
Theorem TensorModel_performance_in_unit_interval
    (object_triangles : list TriangleTensor.t)
    (subset : option (gset string)) (cache : PointCache) :
  object_triangles ≠ [] →
  coverage object_triangles subset = Ok cache →
  (∀ view, In view (views subset) → view ≠ []) →
  (∀ triangle, In triangle object_triangles →
     ∃ cam_strength,
       strengths_defined cameras triangle cam_strength (views subset)) →
  ∃ m : R,
    performance object_triangles subset None = Ok (Fin m) ∧ 0 <= m <= 1.
Proof.
  intros Hobj Hcov Hviews Hdef.
  pose proof Hcov as Hcov'. unfold TensorModel.coverage in Hcov'.
  destruct (coverage_loop_entries _ _ _ _ Hcov') as (_ & Hne & Hentries).
  assert (Hnd : NoDup (cache_keys cache)).
  { eapply coverage_loop_NoDup; [|exact Hcov']. apply NoDup_nil_2. }
  rewrite (performance_computed _ _ _ _ _ _ _ _ _ cache) by auto.
  apply cache_mean_unit; [exact (Hne Hobj)|].
  apply List.Forall_forall. intros v Hv.
  apply (proj1 (in_map_iff _ _ _)) in Hv as ([k v'] & Hv & Hin).
  cbn in Hv. subst v'.
  destruct (Hentries k v Hin) as [[] | (triangle & Ht & _ & Hs)].
  destruct (Hdef triangle Ht) as [cam_strength Hcs].
  eapply strength_in_unit_interval; eassumption.
Qed.

End CoverageFacts.

Lemma example_cache_unit : Forall in_unit_interval example_cache.*2.
Proof. unfold example_cache. cbn. repeat constructor; lra. Qed.

Lemma TensorModel_coverage_entries_witness :
  TensorModel.coverage unit ∅ (λ _, []) (λ _ _ _, false) []
    (λ _ _, 0) (λ _ _, 0) [example_triangle] None
  = Ok [(mkDirectionalPoint 0 0 0 0 0, Fin 0)]
  ∧ NoDup (cache_keys [(mkDirectionalPoint 0 0 0 0 0, Fin 0)]).
Proof.
  assert (Hcov : TensorModel.coverage unit ∅ (λ _, []) (λ _ _ _, false) []
            (λ _ _, 0) (λ _ _, 0) [example_triangle] None
            = Ok [(mkDirectionalPoint 0 0 0 0 0, Fin 0)]).
  { unfold TensorModel.coverage. cbn [TensorModel.coverage_loop].
    unfold TriangleTensor.axis.
    rewrite column_0 by exact example_triangle_3x3. reflexivity. }
  split; [exact Hcov|].
  apply (TensorModel_coverage_entries (occluder := unit) ∅ (λ _, [])
           (λ _ _ _, false) [] (λ _ _, 0) (λ _ _, 0) [example_triangle]
           None _ Hcov).
Defined.

Lemma TensorModel_performance_of_unit_cache_witness :
  ∃ m : R,
    TensorModel.performance unit ∅ (λ _, []) (λ _ _ _, false) []
      (λ _ _, 0) (λ _ _, 0) [] None (Some example_cache) = Ok (Fin m)
    ∧ 0 <= m <= 1.
Proof.
  apply (TensorModel_performance_of_unit_cache (occluder := unit) ∅
           (λ _, []) (λ _ _ _, false) [] (λ _ _, 0) (λ _ _, 0) [] None
           example_cache).
  - discriminate.
  - exact example_cache_NoDup.
  - exact example_cache_unit.
Defined.

Lemma TensorModel_performance_in_unit_interval_witness :
  ∃ m : R,
    TensorModel.performance unit {["cam" := example_camera_tilted]}
      (λ _, [["cam"]]) (λ _ _ _, false) [] (λ _ _, 0) (λ _ _, 0)
      [example_triangle] None None = Ok (Fin m)
    ∧ 0 <= m <= 1.
Proof.
  destruct (TensorModel.coverage unit {["cam" := example_camera_tilted]}
              (λ _, [["cam"]]) (λ _ _ _, false) [] (λ _ _, 0) (λ _ _, 0)
              [example_triangle] None) as [cache|e] eqn:Hcov.
  - apply (TensorModel_performance_in_unit_interval (occluder := unit)
             {["cam" := example_camera_tilted]} (λ _, [["cam"]])
             (λ _ _ _, false) [] (λ _ _, 0) (λ _ _, 0) [example_triangle]
             None cache).
    + discriminate.
    + exact Hcov.
    + intros view [<- | []]. discriminate.
    + intros triangle [<- | []].
      exists (λ _, strength_value example_camera_tilted example_triangle).
      exact example_strengths_defined.
  - exfalso. revert Hcov. unfold TensorModel.coverage.
    cbn [TensorModel.coverage_loop]. unfold TriangleTensor.axis.
    rewrite column_0 by exact example_triangle_3x3. step.
    rewrite (TensorModel_strength_run _ _ _ _ _ _
               (λ _, strength_value example_camera_tilted example_triangle)
               example_strengths_defined).
    cbn [fst]. step. discriminate.
Defined.

(** ** Primitives of the frustum *)

(** X27.  [frustum_primitives] (visualisation enabled) by the size of the
    hull: no primitive for an empty hull; [IndexError] for 1 to 7 points;
    for 8 or more, 4 face curves, 4 edge curves and 3 arrows at the
    centroid of the hull, whose axes are the columns of the camera tensor
    before the pose rotates them.  The face curves are cut at the offsets
    0, 4, 8 and 12: for a hull of 8 points the last two hold no point. *)
Theorem frustum_primitives_by_hull_size
    (gen_frustum_hull : dict → dict → list Point) (self : CameraTensor.t)
    (task_params : dict) (cam_pose : Pose) :
  let hull := gen_frustum_hull task_params (CameraTensor._params self) in
  let outcome :=
    CameraVisual.frustum_primitives gen_frustum_hull self task_params in
  (hull = [] → outcome = Ok [])
  ∧ ((1 <= length hull <= 7)%nat → outcome = Raise IndexError)
  ∧ ((8 <= length hull)%nat →
       ∃ (faces edges : list primitive) (c a1 a2 a3 : Point),
         outcome
         = Ok ((faces ++ edges) ++ [Arrow c a1; Arrow c a2; Arrow c a3])
         ∧ length faces = 4%nat ∧ length edges = 4%nat
         ∧ CameraTensor._get_tensor_matrix gen_frustum_hull
             (CameraTensor._params self) cam_pose task_params
           = Ok (columns_matrix (rotate (pose_R cam_pose) a1)
                   (rotate (pose_R cam_pose) a2)
                   (rotate (pose_R cam_pose) a3),
                 pose_map cam_pose c))
  ∧ (∀ p0 p1 p2 p3 p4 p5 p6 p7,
       hull = [p0; p1; p2; p3; p4; p5; p6; p7] →
       ∃ rest,
         outcome
         = Ok (Curve [p0; p1; p2; p3; p0] :: Curve [p4; p5; p6; p7; p4]
               :: Curve [] :: Curve [] :: rest)).
Proof.
  intros hull outcome.
  unfold outcome, CameraVisual.frustum_primitives,
    CameraTensor._get_tensor_matrix. fold hull.
  assert (Hfull : ∀ p0 p1 p2 p3 p4 p5 p6 p7 rest,
            hull = p0 :: p1 :: p2 :: p3 :: p4 :: p5 :: p6 :: p7 :: rest →
            ∃ c far side top,
              avg_points hull = Ok c
              ∧ avg_points (p4 :: p5 :: p6 :: p7 :: rest) = Ok far
              ∧ avg_points [p2; p3; p6; p7] = Ok side
              ∧ avg_points [p0; p3; p4; p7] = Ok top).
  { intros p0 p1 p2 p3 p4 p5 p6 p7 rest ->.
    destruct (avg_points_ok
                (p0 :: p1 :: p2 :: p3 :: p4 :: p5 :: p6 :: p7 :: rest))
      as [c Hc]; [discriminate|].
    destruct (avg_points_ok (p4 :: p5 :: p6 :: p7 :: rest)) as [far Hfar];
      [discriminate|].
    destruct (avg_points_ok [p2; p3; p6; p7]) as [side Hside];
      [discriminate|].
    destruct (avg_points_ok [p0; p3; p4; p7]) as [top Htop];
      [discriminate|].
    eauto 10. }
  split; [|split; [|split]].
  - intros ->. reflexivity.
  - intros Hlen.
    destruct hull as [|p0 [|p1 [|p2 [|p3 [|p4 [|p5 [|p6 [|p7 rest]]]]]]]];
      cbn [length] in Hlen; try lia;
      rewrite bool_decide_eq_false_2 by discriminate; reflexivity.
  - intros Hlen.
    destruct hull as [|p0 [|p1 [|p2 [|p3 [|p4 [|p5 [|p6 [|p7 rest]]]]]]]]
      eqn:Ehull; cbn [length] in Hlen; try lia.
    destruct (Hfull _ _ _ _ _ _ _ _ _ eq_refl)
      as (c & far & side & top & Hc & Hfar & Hside & Htop).
    rewrite !bool_decide_eq_false_2 by discriminate.
    cbn [CameraVisual.edge_curves list_getitem nth_error Nat.add]. step.
    rewrite Hc. step. cbn [drop]. rewrite Hfar. step.
    rewrite Hside. step. rewrite Htop. step.
    eexists _, _, c, _, _, _. split; [reflexivity|].
    split; [reflexivity|]. split; reflexivity.
  - intros p0 p1 p2 p3 p4 p5 p6 p7 Ehull.
    destruct (Hfull _ _ _ _ _ _ _ _ _ Ehull)
      as (c & far & side & top & Hc & Hfar & Hside & Htop).
    rewrite Hc. rewrite Ehull.
    rewrite bool_decide_eq_false_2 by discriminate.
    cbn [CameraVisual.edge_curves list_getitem nth_error Nat.add]. step.
    cbn [drop]. rewrite Hfar. step. rewrite Hside. step.
    rewrite Htop. step. eexists. reflexivity.
Qed.

(** ** The guide and the mutators of a triangle *)

Lemma toggle_hidden (self : TriangleVisual.t) v0 v1 v2 :
  TriangleTensor.vertices (TriangleVisual.triangle self) = [v0; v1; v2] →
  non_degenerate v0 v1 v2 →
  TriangleVisual._guide_c self = false →
  TriangleVisual.toggle_tensor_vis self
  = (TriangleVisual.mk (TriangleVisual.triangle self) true
       (Some (guide_arrows v0 v1 v2)), Ok ()).
Proof.
  intros Hv Hnd Hc. unfold TriangleVisual.toggle_tensor_vis.
  rewrite Hc, Hv. rewrite get_tensor_basis_three by exact Hnd. step.
  rewrite avg_points_three. reflexivity.
Qed.

Lemma toggle_shown (self : TriangleVisual.t) :
  TriangleVisual._guide_c self = true →
  TriangleVisual.toggle_tensor_vis self
  = (TriangleVisual.mk (TriangleVisual.triangle self) false None, Ok ()).
Proof.
  intros Hc. unfold TriangleVisual.toggle_tensor_vis. rewrite Hc.
  reflexivity.
Qed.

Lemma refresh_guide_three (self : TriangleVisual.t) v0 v1 v2 :
  TriangleTensor.vertices (TriangleVisual.triangle self) = [v0; v1; v2] →
  non_degenerate v0 v1 v2 →
  TriangleVisual.refresh_guide self
  = (TriangleVisual.mk (TriangleVisual.triangle self)
       (TriangleVisual._guide_c self)
       (if TriangleVisual._guide_c self
        then Some (guide_arrows v0 v1 v2)
        else TriangleVisual.guide self), Ok ()).
Proof.
  intros Hv Hnd. unfold TriangleVisual.refresh_guide.
  destruct (TriangleVisual._guide_c self) eqn:Hc.
  - rewrite toggle_shown by exact Hc.
    rewrite (toggle_hidden _ v0 v1 v2) by (assumption || reflexivity).
    reflexivity.
  - destruct self. cbn in Hc. subst. reflexivity.
Qed.

(** X28.  [toggle_tensor_vis] on a triangle with three non-degenerate
    vertices returns and flips [_guide_c].  It deletes the guide when it
    is shown; otherwise the guide becomes three arrows at the centroid of
    the vertices along the basis vectors in the triangle's own frame.
    Toggling twice restores the flag, with the guide made anew when it
    was shown. *)
Theorem toggle_tensor_vis_flips_the_guide (self : TriangleVisual.t)
    (v0 v1 v2 : Point) :
  TriangleTensor.vertices (TriangleVisual.triangle self) = [v0; v1; v2] →
  non_degenerate v0 v1 v2 →
  ∃ once twice : TriangleVisual.t,
    TriangleVisual.toggle_tensor_vis self = (once, Ok ())
    ∧ TriangleVisual.toggle_tensor_vis once = (twice, Ok ())
    ∧ TriangleVisual.triangle once = TriangleVisual.triangle self
    ∧ TriangleVisual._guide_c once = negb (TriangleVisual._guide_c self)
    ∧ TriangleVisual.guide once
      = (if TriangleVisual._guide_c self then None
         else Some (guide_arrows v0 v1 v2))
    ∧ twice
      = TriangleVisual.mk (TriangleVisual.triangle self)
          (TriangleVisual._guide_c self)
          (if TriangleVisual._guide_c self
           then Some (guide_arrows v0 v1 v2) else None).
Proof.
  intros Hv Hnd. destruct (TriangleVisual._guide_c self) eqn:Hc.
  - eexists _, _. split; [apply toggle_shown; exact Hc|].
    split; [apply (toggle_hidden _ v0 v1 v2); (assumption || reflexivity)|].
    repeat split.
  - eexists _, _.
    split; [apply (toggle_hidden _ v0 v1 v2); assumption|].
    split; [apply toggle_shown; reflexivity|]. repeat split.
Qed.

Lemma toggle_tensor_vis_flips_the_guide_witness :
  ∃ once twice : TriangleVisual.t,
    TriangleVisual.toggle_tensor_vis example_triangle_state = (once, Ok ())
    ∧ TriangleVisual.toggle_tensor_vis once = (twice, Ok ())
    ∧ twice = example_triangle_state.
Proof.
  destruct (toggle_tensor_vis_flips_the_guide example_triangle_state
              example_v0 example_v1 example_v2 eq_refl
              example_non_degenerate)
    as (once & twice & H1 & H2 & _ & _ & _ & H3).
  exists once, twice. split; [exact H1|]. split; [exact H2|exact H3].
Defined.

Lemma triangle_rebuild_three (tri : TriangleTensor.t) v0 v1 v2 :
  TriangleTensor.vertices tri = [v0; v1; v2] → non_degenerate v0 v1 v2 →
  ∃ tri' : TriangleTensor.t,
    TriangleVisual.rebuild tri = (tri', Ok ())
    ∧ TriangleTensor.init [v0; v1; v2] (TriangleTensor.pose tri) = Ok tri'.
Proof.
  intros Hv Hnd. unfold TriangleVisual.rebuild, TriangleTensor.init.
  rewrite Hv, get_tensor_matrix_three by exact Hnd. step.
  rewrite Tensor_init_columns. step. eexists. split; reflexivity.
Qed.

(** X29.  Setting the pose of a triangle gives the triangle the constructor
    builds from the same vertices with that pose, when
    [OcclusionTriangle.set_absolute_pose] stores the pose and changes
    nothing else; the flag [_guide_c] is kept, and a shown guide is made
    anew. *)
Theorem TriangleTensor_set_pose_is_reconstruction
    (Triangle_set_absolute_pose :
       Pose → TriangleTensor.t → TriangleTensor.t * result ())
    (self : TriangleVisual.t) (v0 v1 v2 : Point) (value : Pose) :
  TriangleTensor.vertices (TriangleVisual.triangle self) = [v0; v1; v2] →
  non_degenerate v0 v1 v2 →
  Triangle_set_absolute_pose value (TriangleVisual.triangle self)
  = (TriangleTensor.mk [v0; v1; v2] value
       (TriangleTensor._centre (TriangleVisual.triangle self))
       (TriangleTensor.tensor (TriangleVisual.triangle self)), Ok ()) →
  ∃ tri' : TriangleTensor.t,
    TriangleTensor.init [v0; v1; v2] value = Ok tri'
    ∧ TriangleVisual.set_absolute_pose Triangle_set_absolute_pose self value
      = (TriangleVisual.mk tri' (TriangleVisual._guide_c self)
           (if TriangleVisual._guide_c self
            then Some (guide_arrows v0 v1 v2)
            else TriangleVisual.guide self), Ok ()).
Proof.
  intros Hv Hnd Hmethod.
  unfold TriangleVisual.set_absolute_pose, TriangleVisual.mutate.
  rewrite Hmethod.
  destruct (triangle_rebuild_three
              (TriangleTensor.mk [v0; v1; v2] value
                 (TriangleTensor._centre (TriangleVisual.triangle self))
                 (TriangleTensor.tensor (TriangleVisual.triangle self)))
              v0 v1 v2 eq_refl Hnd) as (tri' & -> & Hinit).
  cbn [TriangleTensor.pose] in Hinit. exists tri'. split; [exact Hinit|].
  assert (Hv' : TriangleTensor.vertices tri' = [v0; v1; v2]).
  { rewrite TriangleTensor_init_three in Hinit by exact Hnd.
    injection Hinit as <-. reflexivity. }
  rewrite (refresh_guide_three _ v0 v1 v2) by assumption. reflexivity.
Qed.

Lemma TriangleTensor_set_pose_is_reconstruction_witness :
  ∃ tri' : TriangleTensor.t,
    TriangleTensor.init [example_v0; example_v1; example_v2] tilted_pose
    = Ok tri'
    ∧ TriangleVisual.set_absolute_pose
        (λ value tri,
           (TriangleTensor.mk (TriangleTensor.vertices tri) value
              (TriangleTensor._centre tri) (TriangleTensor.tensor tri),
            Ok ()))
        example_triangle_state tilted_pose
      = (TriangleVisual.mk tri' false None, Ok ()).
Proof.
  apply (TriangleTensor_set_pose_is_reconstruction
           (λ value tri,
              (TriangleTensor.mk (TriangleTensor.vertices tri) value
                 (TriangleTensor._centre tri) (TriangleTensor.tensor tri),
               Ok ()))
           example_triangle_state example_v0 example_v1 example_v2
           tilted_pose eq_refl example_non_degenerate).
  reflexivity.
Defined.
